(** * tibbiyreja: the visit-calendar engine of [processor.js]

    A shallow embedding of the scheduling part of [processExcel]
    (working-day calendar, even distribution, cycle and birthday
    projections, cohort loop, consolidated sheet) and of [getGender],
    together with the properties the specification states about them.

    What is modelled.  The engine starts where the workbook has been
    read: from [rowsData], the detected identifier, name and birth-date
    columns, and [config].  A run either throws or hands over the rows of
    each cohort ([allRangesRows]), the rows of the consolidated sheet and
    the warnings.  Cell styles and the zip archive are left out; the
    reading of the workbook and the monthly sheets (which repeat the
    assigned rows) are modelled apart, in the second part of the
    definitions.

    Conventions.
    - JavaScript numbers used as counters, years and identifiers are
      integers ([Z], [nat] for the visit count and for indices).  The one
      fractional quantity, [interval = 12 / visitCount], is an exact
      rational ([Q]); module [Binary64] evaluates the same expressions in
      binary64, and up to 93 visits a year both give the same months.
    - A dayjs object is its local calendar fields plus the milliseconds
      elapsed in its day.  The time zone has a fixed offset (no daylight
      saving), so [valueOf] orders dates as the local day number and the
      time of day do; day arithmetic is the one of ECMAScript
      ([DayFromYear], [MakeDay], [WeekDay]).
    - [dayjs()] reads the wall clock: every function of the source that
      calls it takes the instant it reads as the argument [now], and a
      run is given one instant, the one at which it executes. *)

From Stdlib Require Import ZArith QArith Qround Lia List Bool Ascii String.
From Stdlib Require Import Sorted Permutation DecimalString DecimalPos DecimalZ.
From Stdlib Require Import Floats Uint63.
From stdpp Require Import base gmap list strings.

Open Scope Z_scope.

(** ** ECMAScript day arithmetic *)

Module Calendar.

Definition msPerDay : Z := 86400000.

Definition isLeap (y : Z) : bool :=
  (y mod 4 =? 0) && (negb (y mod 100 =? 0) || (y mod 400 =? 0)).

Definition daysInYear (y : Z) : Z := if isLeap y then 366 else 365.

(** Month indices are 0..11, as in JavaScript. *)
Definition daysInMonth (y m : Z) : Z :=
  if m =? 1 then (if isLeap y then 29 else 28)
  else if (m =? 3) || (m =? 5) || (m =? 8) || (m =? 10) then 30
  else 31.

(** Days from 1 January 1970 to 1 January of year [y]. *)
Definition DayFromYear (y : Z) : Z :=
  365 * (y - 1970) + (y - 1969) / 4 - (y - 1901) / 100 + (y - 1601) / 400.

(** Days from 1 January of [y] to the first of month [m]. *)
Fixpoint daysBeforeMonth_nat (y : Z) (m : nat) : Z :=
  match m with
  | O => 0
  | S k => daysBeforeMonth_nat y k + daysInMonth y (Z.of_nat k)
  end.

Definition daysBeforeMonth (y m : Z) : Z := daysBeforeMonth_nat y (Z.to_nat m).

(** [MakeDay(year, month, date)]: the month may lie outside 0..11 and the
    date outside the month. *)
Definition MakeDay (y m d : Z) : Z :=
  let ym := y + m / 12 in
  let mn := m mod 12 in
  DayFromYear ym + daysBeforeMonth ym mn + d - 1.

(** [WeekDay]: 0 is Sunday, 6 is Saturday; 1 January 1970 was a Thursday. *)
Definition WeekDay (day : Z) : Z := (day + 4) mod 7.

Definition nextMonth (y m : Z) : Z * Z :=
  if m <? 11 then (y, m + 1) else (y + 1, 0).

Definition prevMonth (y m : Z) : Z * Z :=
  if 0 <? m then (y, m - 1) else (y - 1, 11).

(** The calendar fields of day [d] of month [(y, m)] when [d] may fall
    outside the month: days past the end roll into the following months,
    days before the first into the preceding ones. *)
Fixpoint normDate (fuel : nat) (y m d : Z) : Z * Z * Z :=
  match fuel with
  | O => (y, m, d)
  | S f =>
      if d <? 1 then
        let '(y', m') := prevMonth y m in
        normDate f y' m' (d + daysInMonth y' m')
      else if daysInMonth y m <? d then
        let '(y', m') := nextMonth y m in
        normDate f y' m' (d - daysInMonth y m)
      else (y, m, d)
  end.

End Calendar.

(** ** dayjs objects *)

Module Dayjs.
Import Calendar.

Record t : Type := mk { year : Z; month : Z; date : Z; time : Z }.

(** The calendar day of a date, without its time of day. *)
Definition civil (a : t) : Z * Z * Z := (year a, month a, date a).

Definition dayNumber (a : t) : Z := MakeDay (year a) (month a) (date a).

(** [.valueOf()], in local milliseconds. *)
Definition valueOf (a : t) : Z := dayNumber a * msPerDay + time a.

(** [.day()] *)
Definition day (a : t) : Z := WeekDay (dayNumber a).

(** [.daysInMonth()] *)
Definition daysInMonthOf (a : t) : Z := daysInMonth (year a) (month a).

(** [.date(d)]: [Date.prototype.setDate]. *)
Definition set_date (a : t) (d : Z) : t :=
  let '(y, m, d') := normDate (S (Z.to_nat (Z.abs d))) (year a) (month a) d in
  mk y m d' (time a).

(** [.month(m)]: dayjs sets the month on the first of the month and then
    restores the day, clamped to the length of the new month. *)
Definition set_month (a : t) (m : Z) : t :=
  let y' := year a + m / 12 in
  let m' := m mod 12 in
  mk y' m' (Z.min (date a) (daysInMonth y' m')) (time a).

(** [.year(y)]: same clamping as [.month]. *)
Definition set_year (a : t) (y : Z) : t :=
  mk y (month a) (Z.min (date a) (daysInMonth y (month a))) (time a).

(** [ToIntegerOrInfinity] of a finite number: truncation towards zero. *)
Definition truncQ (q : Q) : Z :=
  if Qle_bool 0 q then Qfloor q else Qceiling q.

(** [.add(1, 'day')] *)
Definition add_day (a : t) : t := set_date a (date a + 1).

(** [.add(x, 'month')]: [this.set('month', this.$M + x)]; [setMonth]
    truncates its argument. *)
Definition add_month (a : t) (x : Q) : t :=
  set_month a (truncQ (inject_Z (month a) + x)).

(** [.subtract(1, 'year')] *)
Definition subtract_year (a : t) : t := set_year a (year a - 1).

(** [.startOf('day')], [.endOf('day')], [.endOf('month')] *)
Definition startOf_day (a : t) : t := mk (year a) (month a) (date a) 0.
Definition endOf_day (a : t) : t := mk (year a) (month a) (date a) (msPerDay - 1).
Definition endOf_month (a : t) : t :=
  mk (year a) (month a) (daysInMonthOf a) (msPerDay - 1).

(** [a.isBefore(b)] and [a.isSame(b, 'day')] *)
Definition isBefore (a b : t) : bool := valueOf a <? valueOf b.
Definition isSame_day (a b : t) : bool :=
  (valueOf (startOf_day a) <=? valueOf b) && (valueOf b <=? valueOf (endOf_day a)).

(** [String(n)] for an integer. *)
Definition stringOfZ (n : Z) : string := NilZero.string_of_int (Z.to_int n).

(** dayjs' [padStart(s, length, '0')] *)
Fixpoint zeros (n : nat) : string :=
  match n with O => EmptyString | S k => String "0"%char (zeros k) end.

Definition padStart (s : string) (len : nat) : string :=
  (zeros (len - String.length s) ++ s)%string.

(** [.format('YYYY-MM-DD')] *)
Definition format (a : t) : string :=
  (padStart (stringOfZ (year a)) 4 ++ "-" ++
   padStart (stringOfZ (month a + 1)) 2 ++ "-" ++
   padStart (stringOfZ (date a)) 2)%string.

(** [a + n days] by repeated [.add(1, 'day')]. *)
Definition addDays (n : nat) (a : t) : t := Nat.iter n add_day a.

(** A date whose fields name a day of the calendar. *)
Definition valid (a : t) : Prop :=
  0 <= month a <= 11 /\ 1 <= date a <= daysInMonth (year a) (month a).

Definition validTime (a : t) : Prop := 0 <= time a < msPerDay.

End Dayjs.

(** ** Working-day calendar *)

Section WorkingDays.
Import Dayjs.

(** [holidays.includes(dateStr)] *)
Definition includes (l : list string) (s : string) : bool :=
  existsb (String.eqb s) l.

Variable holidays : list string.
Variable saturdayWorking : bool.

Definition isWorkingDay (d : Dayjs.t) : bool :=
  let dWeek := day d in
  let dateStr := format d in
  if dWeek =? 0 then false
  else if (dWeek =? 6) && negb saturdayWorking then false
  else if includes holidays dateStr then false
  else true.

(** The [for (let i = 0; i < 60; i++)] loop of [findNextWorkingDay];
    [None] when the loop ends without returning. *)
Fixpoint findNextWorkingDay_loop (n : nat) (curr : Dayjs.t) : option Dayjs.t :=
  match n with
  | O => None
  | S k =>
      if isWorkingDay curr then Some curr
      else findNextWorkingDay_loop k (add_day curr)
  end.

Definition findNextWorkingDay (d : Dayjs.t) : Dayjs.t :=
  match findNextWorkingDay_loop 60 d with
  | Some r => r
  | None => d
  end.

End WorkingDays.

(** ** The month of working days

    [getWorkingDays] builds the first of the month from [dayjs()] and walks
    to the end of the month; every date it returns carries the time of day
    of [now]. *)

Section GetWorkingDays.
Import Dayjs.

Variable now : Dayjs.t.
Variable holidays : list string.
Variable saturdayWorking : bool.

(** The body of the [while] loop: the working test is written out in the
    source rather than calling [isWorkingDay]. *)
Definition monthDayIsWorking (curr : Dayjs.t) : bool :=
  let dWeek := day curr in
  let isSunday := dWeek =? 0 in
  let isSaturday := dWeek =? 6 in
  let dateStr := format curr in
  let isHoliday := includes holidays dateStr in
  let isWorking := negb isSunday && negb isHoliday in
  if isSaturday && negb saturdayWorking then false else isWorking.

(** [while (curr.isBefore(end) || curr.isSame(end, 'day'))]; [None] when
    the fuel is used up before the condition fails. *)
Fixpoint getWorkingDays_loop (fuel : nat) (curr end_ : Dayjs.t)
    (days : list Dayjs.t) : option (list Dayjs.t) :=
  match fuel with
  | O => None
  | S f =>
      if isBefore curr end_ || isSame_day curr end_ then
        let days' := if monthDayIsWorking curr then days ++ [curr] else days in
        getWorkingDays_loop f (add_day curr) end_ days'
      else Some days
  end.

Definition monthStart (year monthIndex : Z) : Dayjs.t :=
  set_date (set_month (set_year now year) monthIndex) 1.

Definition getWorkingDays_opt (year monthIndex : Z) : option (list Dayjs.t) :=
  let start := monthStart year monthIndex in
  let end_ := endOf_month start in
  getWorkingDays_loop 33 start end_ [].

Definition getWorkingDays (year monthIndex : Z) : list Dayjs.t :=
  default [] (getWorkingDays_opt year monthIndex).

End GetWorkingDays.

(** ** Even distribution *)

(** [Math.floor(n / d)] and [n % d] on integers. *)
Definition jsFloorDiv (n d : Z) : Z := n / d.
Definition jsRem (n d : Z) : Z := Z.rem n d.

(** The [for (let i = 0; i < 12; i++) countsToUse.push(...)] loop. *)
Fixpoint pushCounts (n : nat) (i base rem : Z) (countsToUse : list Z) : list Z :=
  match n with
  | O => countsToUse
  | S k =>
      pushCounts k (i + 1) base rem
        (countsToUse ++ [if i <? rem then base + 1 else base])
  end.

(** Auto plan: [totalPatients] spread over the twelve months. *)
Definition autoCounts (totalPatients : Z) : list Z :=
  let base := jsFloorDiv totalPatients 12 in
  let rem := jsRem totalPatients 12 in
  pushCounts 12 0 base rem [].

(** The quota of working day number [d] (from 0) among [D] days for [N]
    patients. *)
Definition countForDay (N D d : Z) : Z :=
  let base := jsFloorDiv N D in
  let remainder := jsRem N D in
  if d <? remainder then base + 1 else base.

(** ** Cell values and rows *)

Inductive Value : Type :=
  | VUndef
  | VNull
  | VStr (s : string)
  | VNum (n : Z)
  | VBool (b : bool)
  | VDate (d : Dayjs.t).

(** A row object: a JavaScript object used as a map from column name to
    cell value. *)
Abbreviation Row := (gmap string Value).

(** A row of [rowsData]: the cells by header plus the parsed birth date
    ([None] is an invalid dayjs). *)
Record Patient : Type := mkPatient {
  fields : Row;
  _birthDate : option Dayjs.t
}.

(** [row[key]] *)
Definition getProp (r : Row) (key : string) : Value :=
  default VUndef (r !! key).

(** JavaScript truthiness. *)
Definition truthy (v : Value) : bool :=
  match v with
  | VUndef | VNull => false
  | VStr s => negb (String.eqb s "")
  | VNum n => negb (n =? 0)
  | VBool b => b
  | VDate _ => true
  end.

(** ** Strings

    Strings are sequences of bytes; white space and letter case are
    those of ASCII. *)

Module JsString.

(** Tab, line feed, vertical tab, form feed, carriage return, space. *)
Definition isWhite (c : ascii) : bool :=
  let n := nat_of_ascii c in
  ((9 <=? n) && (n <=? 13))%nat || (n =? 32)%nat.

Fixpoint trimStart (s : string) : string :=
  match s with
  | EmptyString => EmptyString
  | String c r => if isWhite c then trimStart r else s
  end.

Fixpoint trimEnd (s : string) : string :=
  match s with
  | EmptyString => EmptyString
  | String c r =>
      match trimEnd r with
      | EmptyString => if isWhite c then EmptyString else String c EmptyString
      | r' => String c r'
      end
  end.

(** [s.trim()] *)
Definition trim (s : string) : string := trimEnd (trimStart s).

(** [s.split(' ')[0]] *)
Fixpoint splitFirst (s : string) : string :=
  match s with
  | EmptyString => EmptyString
  | String c r => if Ascii.eqb c " " then EmptyString else String c (splitFirst r)
  end.

(** [A]..[Z] to [a]..[z]. *)
Definition lowerChar (c : ascii) : ascii :=
  let n := nat_of_ascii c in
  if ((65 <=? n) && (n <=? 90))%nat then ascii_of_nat (n + 32) else c.

(** [s.toLowerCase()] *)
Fixpoint toLowerCase (s : string) : string :=
  match s with
  | EmptyString => EmptyString
  | String c r => String (lowerChar c) (toLowerCase r)
  end.

(** [s.endsWith(t)] *)
Definition endsWith (s t : string) : bool :=
  (String.length t <=? String.length s)%nat
  && String.eqb (substring (String.length s - String.length t) (String.length t) s) t.

Definition dayName (w : Z) : string :=
  nth (Z.to_nat w) ["Sun"; "Mon"; "Tue"; "Wed"; "Thu"; "Fri"; "Sat"]%string ""%string.

Definition monthName (m : Z) : string :=
  nth (Z.to_nat m)
    ["Jan"; "Feb"; "Mar"; "Apr"; "May"; "Jun";
     "Jul"; "Aug"; "Sep"; "Oct"; "Nov"; "Dec"]%string ""%string.

(** [String(v)]; for a [Date] the text up to the clock time (the zone
    label that follows it is left out). *)
Definition toString (v : Value) : string :=
  match v with
  | VUndef => "undefined"
  | VNull => "null"
  | VStr s => s
  | VNum n => Dayjs.stringOfZ n
  | VBool true => "true"
  | VBool false => "false"
  | VDate d =>
      let t := Dayjs.time d / 1000 in
      (dayName (Dayjs.day d) ++ " " ++ monthName (Dayjs.month d) ++ " " ++
       Dayjs.padStart (Dayjs.stringOfZ (Dayjs.date d)) 2 ++ " " ++
       Dayjs.padStart (Dayjs.stringOfZ (Dayjs.year d)) 4 ++ " " ++
       Dayjs.padStart (Dayjs.stringOfZ (t / 3600)) 2 ++ ":" ++
       Dayjs.padStart (Dayjs.stringOfZ (t / 60 mod 60)) 2 ++ ":" ++
       Dayjs.padStart (Dayjs.stringOfZ (t mod 60)) 2)%string
  end.

End JsString.

(** ** Gender heuristic and the cohort filter *)

(** [getGender]: ['female'] if the first word ends in 'a', else ['male']. *)
Definition getGender (nameColKey : option string) (row : Row) : string :=
  match nameColKey with
  | None => "male"
  | Some key =>
      let storedVal := getProp row key in
      if negb (truthy storedVal) then "male"
      else
        let valStr := JsString.trim (JsString.toString storedVal) in
        let firstWord := JsString.splitFirst valStr in
        if String.eqb firstWord "" then "male"
        else if JsString.endsWith (JsString.toLowerCase firstWord) "a" then "female"
        else "male"
  end.

(** One entry of [config.ranges].  [visitCountRaw] is the field as sent
    (0 when absent), [gender] is the empty string when absent. *)
Record Range : Type := mkRange {
  startYear : Z;
  endYear : Z;
  gender : string;
  visitCountRaw : nat;
  useBirthday : bool;
  counts : list Z
}.

(** [range.visitCount || 1] *)
Definition visitCountOf (r : Range) : nat :=
  match visitCountRaw r with O => 1%nat | n => n end.

(** The predicate of [rowsData.filter(...)]. *)
Definition inRange (nameColKey : option string) (range : Range) (r : Patient) : bool :=
  match _birthDate r with
  | None => false
  | Some b =>
      let y := Dayjs.year b in
      if y <? 1900 then false
      else if (y <? startYear range) || (endYear range <? y) then false
      else if negb (String.eqb (gender range) "") && negb (String.eqb (gender range) "all")
      then String.eqb (getGender nameColKey (fields r)) (gender range)
      else true
  end.

Definition rangePatients (nameColKey : option string) (range : Range)
    (rowsData : list Patient) : list Patient :=
  List.filter (inRange nameColKey range) rowsData.

(** ** Visit-date projections *)

(** [generatedDates.sort((a, b) => a.valueOf() - b.valueOf())]: the
    stable sort by instant. *)
Fixpoint insertByValue (x : Dayjs.t) (l : list Dayjs.t) : list Dayjs.t :=
  match l with
  | [] => [x]
  | y :: r =>
      if Dayjs.valueOf x <=? Dayjs.valueOf y then x :: y :: r
      else y :: insertByValue x r
  end.

Fixpoint sortByValue (l : list Dayjs.t) : list Dayjs.t :=
  match l with
  | [] => []
  | x :: r => insertByValue x (sortByValue r)
  end.

(** [12 / visitCount] *)
Definition interval (visitCount : nat) : Q :=
  (12 / inject_Z (Z.of_nat visitCount))%Q.

Section Projections.

Variable now : Dayjs.t.
Variable targetYear : Z.
Variable holidays : list string.
Variable saturdayWorking : bool.

(** One pass of the multi-visit loop: [dayDate.add(interval * v, 'month')],
    folded back into the target year. *)
Definition cycleCandidate (visitCount : nat) (dayDate : Dayjs.t) (v : nat) : Dayjs.t :=
  let nextDate :=
    Dayjs.add_month dayDate (interval visitCount * inject_Z (Z.of_nat v))%Q in
  if targetYear <? Dayjs.year nextDate then Dayjs.subtract_year nextDate
  else nextDate.

(** [for (let v = 1; v < visitCount; v++) generatedDates.push(nextDate)];
    [n] counts the passes that remain. *)
Fixpoint cycleLoop (n : nat) (visitCount v : nat) (dayDate : Dayjs.t)
    (generatedDates : list Dayjs.t) : list Dayjs.t :=
  match n with
  | O => generatedDates
  | S k =>
      cycleLoop k visitCount (S v) dayDate
        (generatedDates ++ [cycleCandidate visitCount dayDate v])
  end.

(** The multi-visit block of the distribution branch, up to the column
    assignment. *)
Definition cycleDates (visitCount : nat) (dayDate : Dayjs.t) : list Dayjs.t :=
  let generatedDates :=
    if (1 <? visitCount)%nat
    then cycleLoop (visitCount - 1) visitCount 1 dayDate [dayDate]
    else [dayDate] in
  let sorted := sortByValue generatedDates in
  map (findNextWorkingDay holidays saturdayWorking) sorted.

(** One pass of the birthday loop. *)
Definition birthdayVisit (visitCount : nat) (birthDay : Z) (v : nat) : Dayjs.t :=
  let targetMonth := Qfloor (0 + inject_Z (Z.of_nat v) * interval visitCount)%Q in
  let d := Dayjs.set_date
             (Dayjs.set_month (Dayjs.set_year now targetYear) targetMonth) birthDay in
  let daysInMonth :=
    Dayjs.daysInMonthOf (Dayjs.set_month (Dayjs.set_year now targetYear) targetMonth) in
  let d :=
    if daysInMonth <? birthDay
    then Dayjs.set_date
           (Dayjs.set_month (Dayjs.set_year now targetYear) targetMonth) daysInMonth
    else d in
  findNextWorkingDay holidays saturdayWorking d.

(** [for (let v = 0; v < visitCount; v++) generatedDates.push(d)] *)
Fixpoint birthdayLoop (n : nat) (visitCount : nat) (birthDay : Z) (v : nat)
    (generatedDates : list Dayjs.t) : list Dayjs.t :=
  match n with
  | O => generatedDates
  | S k =>
      birthdayLoop k visitCount birthDay (S v)
        (generatedDates ++ [birthdayVisit visitCount birthDay v])
  end.

Definition birthdayDates (visitCount : nat) (birthDay : Z) : list Dayjs.t :=
  sortByValue (birthdayLoop visitCount visitCount birthDay 0 []).

End Projections.

(** ** Output rows *)

(** The visit columns of a cohort: ['Tashrif sanasi'] for a single visit,
    ['1-tashrif sanasi'], ['2-tashrif sanasi'], ... otherwise. *)
Definition visitKey (v : nat) : string :=
  (Dayjs.stringOfZ (Z.of_nat v) ++ "-tashrif sanasi")%string.

Definition visitKeysOf (visitCount : nat) : list string :=
  if (visitCount =? 1)%nat then ["Tashrif sanasi"%string]
  else map visitKey (seq 1 visitCount).

(** [generatedDates.forEach((date, idx) => { if (idx < visitCount)
    row[visitKeys[idx]] = date.toDate(); })] *)
Fixpoint assignDates (visitCount : nat) (visitKeys : list string) (idx : nat)
    (generatedDates : list Dayjs.t) (row : Row) : Row :=
  match generatedDates with
  | [] => row
  | d :: rest =>
      let row' :=
        if (idx <? visitCount)%nat
        then <[ default "undefined"%string (visitKeys !! idx) := VDate d ]> row
        else row in
      assignDates visitCount visitKeys (S idx) rest row'
  end.

(** The visit dates a row carries, read back column by column. *)
Definition visitDatesOf (visitCount : nat) (row : Row) : list Value :=
  map (getProp row) (visitKeysOf visitCount).

(** What the header detection hands to the engine: the identifier column,
    the name column and the header of the birth-date column, each absent
    when none was found. *)
Record Columns : Type := mkColumns {
  idColKey : option string;
  nameColKey : option string;
  birthKey : option string
}.

(** [config]; [holidays] is the empty list when the field is absent. *)
Record Config : Type := mkConfig {
  targetYear : Z;
  holidays : list string;
  saturdayWorking : bool;
  ranges : list Range
}.

Section Cohort.

Variable now : Dayjs.t.
Variable cols : Columns.
Variable config : Config.

(** [{ ...p }], the birth date written back as a [Date], [_birthDate]
    deleted. *)
Definition baseRow (p : Patient) : Row :=
  let outRow := fields p in
  let outRow :=
    match birthKey cols, _birthDate p with
    | Some k, Some b => <[ k := VDate b ]> outRow
    | _, _ => outRow
    end in
  delete "_birthDate"%string outRow.

(** [if (idColKey) row[idColKey] = id] *)
Definition setId (id : Z) (row : Row) : Row :=
  match idColKey cols with
  | Some k => <[ k := VNum id ]> row
  | None => row
  end.

(** [counter++] under [if (idColKey)] *)
Definition bumpId (id : Z) : Z :=
  match idColKey cols with Some _ => id + 1 | None => id end.

(** *** Logic A: birthday mode *)

Definition birthdayRow (visitCount : nat) (p : Patient) : Row :=
  let birthDay := match _birthDate p with Some b => Dayjs.date b | None => 0 end in
  let generatedDates :=
    birthdayDates now (targetYear config) (holidays config) (saturdayWorking config)
      visitCount birthDay in
  assignDates visitCount (visitKeysOf visitCount) 0 generatedDates (baseRow p).

(** [patientPool.forEach(p => { ...; rangeAllRows.push(pRow); })];
    afterwards [pIndex = patientPool.length]. *)
Definition logicA (visitCount : nat) (patientPool : list Patient) : list Row * nat :=
  (map (birthdayRow visitCount) patientPool, length patientPool).

(** *** Logic B: distribution over months and working days *)

(** The row of one placed patient. *)
Definition placedRow (visitCount : nat) (p : Patient) (dayDate : Dayjs.t)
    (monthlyId : Z) : Row :=
  let outRow := setId monthlyId (baseRow p) in
  let generatedDates :=
    cycleDates (targetYear config) (holidays config) (saturdayWorking config)
      visitCount dayDate in
  assignDates visitCount (visitKeysOf visitCount) 0 generatedDates outRow.

(** The state of the two nested day loops. *)
Record DayState : Type := mkDayState {
  currentPatientIdx : nat;
  monthlyIdCounter : Z;
  monthlyRows : list Row
}.

(** [for (let k = 0; k < countForDay; k++)] with its [break]. *)
Fixpoint placeOnDay (k : nat) (visitCount : nat) (patientsForMonth : list Patient)
    (dayDate : Dayjs.t) (st : DayState) : DayState :=
  match k with
  | O => st
  | S k' =>
      match patientsForMonth !! currentPatientIdx st with
      | None => st
      | Some p =>
          placeOnDay k' visitCount patientsForMonth dayDate
            {| currentPatientIdx := S (currentPatientIdx st);
               monthlyIdCounter := bumpId (monthlyIdCounter st);
               monthlyRows :=
                 monthlyRows st ++ [placedRow visitCount p dayDate (monthlyIdCounter st)] |}
      end
  end.

(** [for (let d = 0; d < D; d++)] over [workingDays], from index [d]. *)
Fixpoint placeOnDays (visitCount : nat) (patientsForMonth : list Patient)
    (N D : Z) (d : Z) (workingDays : list Dayjs.t) (st : DayState) : DayState :=
  match workingDays with
  | [] => st
  | dayDate :: rest =>
      let count := countForDay N D d in
      placeOnDays visitCount patientsForMonth N D (d + 1) rest
        (placeOnDay (Z.to_nat count) visitCount patientsForMonth dayDate st)
  end.

(** [for (let i = 0; i < targetCount; i++)]: takes patients from the pool
    while there are some. *)
Fixpoint takePatients (n : nat) (patientPool : list Patient) (pIndex : nat)
    (patientsForMonth : list Patient) : list Patient * nat :=
  match n with
  | O => (patientsForMonth, pIndex)
  | S k =>
      match patientPool !! pIndex with
      | Some p => takePatients k patientPool (S pIndex) (patientsForMonth ++ [p])
      | None => (patientsForMonth, pIndex)
      end
  end.

(** One pass of [for (let m = 0; m < 12; m++)] on the pair
    [(rangeAllRows, pIndex)]. *)
Definition monthStep (visitCount : nat) (countsToUse : list Z)
    (patientPool : list Patient) (st : list Row * nat) (m : nat) : list Row * nat :=
  let '(rangeAllRows, pIndex) := st in
  let targetCount := nth m countsToUse 0 in
  if targetCount =? 0 then st
  else
    let workingDays :=
      getWorkingDays now (holidays config) (saturdayWorking config)
        (targetYear config) (Z.of_nat m) in
    if (length workingDays =? 0)%nat then st
    else
      let '(patientsForMonth, pIndex') :=
        takePatients (Z.to_nat targetCount) patientPool pIndex [] in
      if (length patientsForMonth =? 0)%nat then (rangeAllRows, pIndex')
      else
        let N := Z.of_nat (length patientsForMonth) in
        let D := Z.of_nat (length workingDays) in
        let st' :=
          placeOnDays visitCount patientsForMonth N D 0 workingDays
            {| currentPatientIdx := 0; monthlyIdCounter := 1; monthlyRows := [] |} in
        (rangeAllRows ++ monthlyRows st', pIndex').

Definition logicB (visitCount : nat) (processAll : bool) (range : Range)
    (patientPool : list Patient) : list Row * nat :=
  let totalPatients := Z.of_nat (length patientPool) in
  let countsToUse := if processAll then autoCounts totalPatients else counts range in
  fold_left (monthStep visitCount countsToUse patientPool) (seq 0 12) ([], 0%nat).

(** *** Unplanned rows *)

(** [remainingPatients.forEach(p => { ...; rangeAllRows.push(outRow); })] *)
Fixpoint unplannedLoop (remainingPatients : list Patient) (uIdCounterUnplanned : Z)
    (acc : list Row) : list Row :=
  match remainingPatients with
  | [] => acc
  | p :: rest =>
      let outRow := setId uIdCounterUnplanned (baseRow p) in
      let outRow := <[ "_isUnplanned"%string := VBool true ]> outRow in
      unplannedLoop rest (bumpId uIdCounterUnplanned) (acc ++ [outRow])
  end.

(** The rows pushed to [rangeAllRows] inside [if (rangeAllRows.length > 0)]:
    everyone from [pIndex] on, numbered after the assigned rows. *)
Definition unplannedRows (assigned : list Row) (pIndex : nat)
    (patientPool : list Patient) : list Row :=
  if (0 <? length assigned)%nat then
    let uIdCounter := Nat.iter (length assigned) bumpId 1 in
    if (pIndex <? length patientPool)%nat
    then unplannedLoop (drop pIndex patientPool) uIdCounter []
    else []
  else [].

(** *** One cohort *)

Inductive Error : Type :=
  | CapacityExceeded (startYear endYear totalPlanned totalPatients : Z).

Inductive Warning : Type :=
  | NoPopulation (startYear endYear : Z) (gender : string)
  | Shortfall (startYear endYear totalPlanned totalPatients : Z).

(** An entry of [allRangesRows]. *)
Record Group : Type := mkGroup {
  rows : list Row;
  groupVisitCount : nat
}.

Record EngineState : Type := mkEngineState {
  allRangesRows : list Group;
  warnings : list Warning
}.

(** [range.counts.reduce((a, b) => a + b, 0)] *)
Definition totalPlannedOf (range : Range) : Z := fold_left Z.add (counts range) 0.

(** [processAll]: birthday mode or more than one visit. *)
Definition processAllOf (range : Range) : bool :=
  if useBirthday range then true
  else if (1 <? visitCountOf range)%nat then true
  else false.

(** The rows recorded as assigned for a cohort with a non-empty pool, and
    [pIndex] after the assignment. *)
Definition assignCohort (range : Range) (patientPool : list Patient) : list Row * nat :=
  if useBirthday range then logicA (visitCountOf range) patientPool
  else logicB (visitCountOf range) (processAllOf range) range patientPool.

(** The body of [for (const range of config.ranges)]; [inl] is the
    [throw]. *)
Definition processRange (rowsData : list Patient) (range : Range)
    (st : EngineState) : Error + EngineState :=
  let visitCount := visitCountOf range in
  let pool := rangePatients (nameColKey cols) range rowsData in
  let totalPatients := Z.of_nat (length pool) in
  let processAll := processAllOf range in
  let totalPlanned := totalPlannedOf range in
  if totalPatients =? 0 then
    inr {| allRangesRows := allRangesRows st;
           warnings := warnings st ++
             [NoPopulation (startYear range) (endYear range)
                (if String.eqb (gender range) "" then "all" else gender range)] |}
  else if negb processAll && (totalPatients <? totalPlanned) then
    inl (CapacityExceeded (startYear range) (endYear range) totalPlanned totalPatients)
  else
    let warnings' :=
      if negb processAll && (totalPlanned <? totalPatients)
      then warnings st ++
             [Shortfall (startYear range) (endYear range) totalPlanned totalPatients]
      else warnings st in
    let '(assigned, pIndex) := assignCohort range pool in
    let rangeAllRows := assigned ++ unplannedRows assigned pIndex pool in
    inr {| allRangesRows :=
             allRangesRows st ++ [{| rows := rangeAllRows; groupVisitCount := visitCount |}];
           warnings := warnings' |}.

Fixpoint processRanges (rowsData : list Patient) (rs : list Range)
    (st : EngineState) : Error + EngineState :=
  match rs with
  | [] => inr st
  | range :: rest =>
      match processRange rowsData range st with
      | inl e => inl e
      | inr st' => processRanges rowsData rest st'
      end
  end.

(** *** Consolidated sheet *)

(** [config.ranges.forEach(r => { if ((r.visitCount || 1) > maxVisitsGlobal)
    maxVisitsGlobal = r.visitCount || 1; })] from 1. *)
Definition maxVisitsGlobalOf (rs : list Range) : nat :=
  fold_left (fun mx r => if (mx <? visitCountOf r)%nat then visitCountOf r else mx) rs 1%nat.

(** The body of [group.rows.forEach(r => ...)] up to the push. *)
Definition normalizeRow (maxVisitsGlobal : nat) (groupVisits : nat)
    (gIdCounter : Z) (r : Row) : Row :=
  let newR := r in
  let newR :=
    if (groupVisits =? 1)%nat && (1 <? maxVisitsGlobal)%nat
    then delete "Tashrif sanasi"%string
           (<[ "1-tashrif sanasi"%string := getProp r "Tashrif sanasi" ]> newR)
    else newR in
  setId gIdCounter newR.

Fixpoint consolidateRows (maxVisitsGlobal groupVisits : nat) (rs : list Row)
    (st : Z * list Row) : Z * list Row :=
  match rs with
  | [] => st
  | r :: rest =>
      let '(gIdCounter, allFlatRows) := st in
      consolidateRows maxVisitsGlobal groupVisits rest
        (bumpId gIdCounter,
         allFlatRows ++ [normalizeRow maxVisitsGlobal groupVisits gIdCounter r])
  end.

Fixpoint consolidateGroups (maxVisitsGlobal : nat) (groups : list Group)
    (st : Z * list Row) : Z * list Row :=
  match groups with
  | [] => st
  | g :: rest =>
      consolidateGroups maxVisitsGlobal rest
        (consolidateRows maxVisitsGlobal (groupVisitCount g) (rows g) st)
  end.

Definition consolidate (maxVisitsGlobal : nat) (groups : list Group) : list Row :=
  snd (consolidateGroups maxVisitsGlobal groups (1, [])).

(** *** The run *)

(** What a run that does not throw hands over: the per-cohort rows, the
    rows of the consolidated sheet (none when no cohort had a population)
    and the warnings. *)
Record Output : Type := mkOutput {
  cohortResults : list Group;
  consolidatedPlan : option (list Row);
  outWarnings : list Warning
}.

Definition processExcel (rowsData : list Patient) : Error + Output :=
  let maxVisitsGlobal := maxVisitsGlobalOf (ranges config) in
  match processRanges rowsData (ranges config)
          {| allRangesRows := []; warnings := [] |} with
  | inl e => inl e
  | inr st =>
      inr {| cohortResults := allRangesRows st;
             consolidatedPlan :=
               if (0 <? length (allRangesRows st))%nat
               then Some (consolidate maxVisitsGlobal (allRangesRows st))
               else None;
             outWarnings := warnings st |}
  end.

End Cohort.

(** ** Vocabulary of the statements *)

(** The days [k], [k+1], ... of month [(y, m)], [n] of them, at the time of
    day [t]. *)
Fixpoint monthDays (y m k t : Z) (n : nat) : list Dayjs.t :=
  match n with
  | O => []
  | S n' => Dayjs.mk y m k t :: monthDays y m (k + 1) t n'
  end.

(** The sum of a list of integers. *)
Definition sumZ (l : list Z) : Z := fold_right Z.add 0 l.

Section PlanVocabulary.

Variable cols : Columns.
Variable config : Config.

(** The rows of the patients [ps] placed, one by one, on the days [days],
    numbered from [id]. *)
Fixpoint placedRows (visitCount : nat) (ps : list Patient) (days : list Dayjs.t)
    (id : Z) : list Row :=
  match ps, days with
  | p :: ps', d :: days' =>
      placedRow cols config visitCount p d id
        :: placedRows visitCount ps' days' (bumpId cols id)
  | _, _ => []
  end.

(** The day of each of [N] patients when day number [d], [d + 1], ... of
    [D] working days receive their quotas in turn. *)
Fixpoint dayPlan (N D d : Z) (workingDays : list Dayjs.t) : list Dayjs.t :=
  match workingDays with
  | [] => []
  | dayDate :: rest =>
      replicate (Z.to_nat (countForDay N D d)) dayDate ++ dayPlan N D (d + 1) rest
  end.

End PlanVocabulary.

(** Dates in ascending order of instant (equal instants allowed). *)
Definition notAfter (a b : Dayjs.t) : Prop := Dayjs.valueOf a <= Dayjs.valueOf b.
Definition ascending (l : list Dayjs.t) : Prop := StronglySorted notAfter l.

(** Dates in strictly increasing order of instant. *)
Definition strictlyBefore (a b : Dayjs.t) : Prop := Dayjs.valueOf a < Dayjs.valueOf b.
Definition strictlyAscending (l : list Dayjs.t) : Prop := StronglySorted strictlyBefore l.

(** The same day at another time of day. *)
Definition retime (t : Z) (d : Dayjs.t) : Dayjs.t :=
  Dayjs.mk (Dayjs.year d) (Dayjs.month d) (Dayjs.date d) t.




Section RunVocabulary.

Variable now : Dayjs.t.
Variable cols : Columns.
Variable config : Config.
Variable rowsData : list Patient.

(** The eligible pool of a cohort rule. *)
Definition poolOf (range : Range) : list Patient :=
  rangePatients (nameColKey cols) range rowsData.

(** The rows recorded as assigned and as unplanned for a cohort rule. *)
Definition assignedRowsOf (range : Range) : list Row :=
  fst (assignCohort now cols config range (poolOf range)).

Definition unplannedRowsOf (range : Range) : list Row :=
  unplannedRows cols (assignedRowsOf range)
    (snd (assignCohort now cols config range (poolOf range))) (poolOf range).

(** The entry a cohort rule with a population adds to [allRangesRows]. *)
Definition cohortGroup (range : Range) : Group :=
  {| rows := assignedRowsOf range ++ unplannedRowsOf range;
     groupVisitCount := visitCountOf range |}.

(** Manual mode whose plan exceeds a non-empty pool. *)
Definition overCapacity (range : Range) : Prop :=
  visitCountOf range = 1%nat /\ useBirthday range = false
  /\ 0 < Z.of_nat (length (poolOf range)) < totalPlannedOf range.

End RunVocabulary.

(** The rows of all groups in order, each with the visit count of its
    cohort. *)
Definition taggedRows (groups : list Group) : list (nat * Row) :=
  concat (map (fun g => map (pair (groupVisitCount g)) (rows g)) groups).

(** The consolidated rows of [src], numbered from [id]. *)
Fixpoint numberedRows (cols : Columns) (maxVisitsGlobal : nat)
    (src : list (nat * Row)) (id : Z) : list Row :=
  match src with
  | [] => []
  | (groupVisits, r) :: rest =>
      normalizeRow cols maxVisitsGlobal groupVisits id r
        :: numberedRows cols maxVisitsGlobal rest (bumpId cols id)
  end.

(** A cell with its date, if it holds one, set to midnight: the calendar
    day without the time of day. *)
Definition dayOnly (v : Value) : Value :=
  match v with
  | VDate d => VDate (Dayjs.startOf_day d)
  | _ => v
  end.

Definition rowDays (r : Row) : Row := dayOnly <$> r.

Definition groupDays (g : Group) : Group :=
  {| rows := map rowDays (rows g); groupVisitCount := groupVisitCount g |}.

Definition outputDays (o : Output) : Output :=
  {| cohortResults := map groupDays (cohortResults o);
     consolidatedPlan := option_map (map rowDays) (consolidatedPlan o);
     outWarnings := outWarnings o |}.

(** The result of a run with every date cell reduced to its calendar
    day. *)
Definition resultDays (r : Error + Output) : Error + Output :=
  match r with
  | inl e => inl e
  | inr o => inr (outputDays o)
  end.

(** The time of day of the first visit date of the first row of the
    consolidated sheet, in milliseconds (-1 when there is none). *)
Definition firstVisitTime (visitCount : nat) (r : Error + Output) : Z :=
  match r with
  | inr {| consolidatedPlan := Some (row :: _) |} =>
      match visitDatesOf visitCount row with
      | VDate d :: _ => Dayjs.time d
      | _ => -1
      end
  | _ => -1
  end.

(** The output of a run that did not throw (an empty one otherwise). *)
Definition succeeded (r : Error + Output) : bool :=
  match r with inr _ => true | inl _ => false end.

Definition outputOf (r : Error + Output) : Output :=
  match r with
  | inr o => o
  | inl _ => {| cohortResults := []; consolidatedPlan := None; outWarnings := [] |}
  end.

(** ** The month arithmetic in binary64

    The source computes [12 / visitCount] and its multiples in binary64.
    These are the two expressions as JavaScript evaluates them, to compare
    with the exact ones of the model. *)

Module Binary64.

Definition ofZ (z : Z) : float := PrimFloat.of_uint63 (Uint63.of_Z z).

(** The integer part of a finite non-negative number. *)
Definition floorPos (f : float) : Z :=
  match Prim2SF f with
  | S754_finite false m e => if 0 <=? e then Z.pos m * 2 ^ e else Z.pos m / 2 ^ (- e)
  | _ => 0
  end.

(** [Math.floor(0 + v * interval)] with [interval = 12 / visitCount] *)
Definition targetMonth (visitCount v : Z) : Z :=
  floorPos (PrimFloat.add (ofZ 0)
              (PrimFloat.mul (ofZ v) (PrimFloat.div (ofZ 12) (ofZ visitCount)))).

(** The month [setMonth] receives from [add(interval * v, 'month')] on a
    date of month [m]: [m + interval * v], truncated. *)
Definition addedMonth (visitCount v m : Z) : Z :=
  floorPos (PrimFloat.add (ofZ m)
              (PrimFloat.mul (PrimFloat.div (ofZ 12) (ofZ visitCount)) (ofZ v))).

(** Both agree with the exact quotient for every visit [v] of
    [visitCount] and every month. *)
Definition agrees (visitCount : Z) : bool :=
  forallb
    (fun v =>
       (targetMonth visitCount v =? 12 * v / visitCount)
       && forallb (fun m => addedMonth visitCount v m =? m + 12 * v / visitCount)
            (seqZ 0 12))
    (seqZ 0 visitCount).

End Binary64.

(** ** Sample inputs *)

Module Samples.

(** Two instants of one day: 09:00 and 15:00 on 2 November 2025. *)
Definition morning : Dayjs.t := Dayjs.mk 2025 10 2 32400000.
Definition afternoon : Dayjs.t := Dayjs.mk 2025 10 2 54000000.

Definition cols : Columns :=
  {| idColKey := Some "No"%string;
     nameColKey := Some "F.I.SH"%string;
     birthKey := Some "Tug'ilgan sana"%string |}.

(** A patient with a number, a name and a birth date at midnight. *)
Definition person (n : Z) (name : string) (y m d : Z) : Patient :=
  {| fields := <[ "No"%string := VNum n ]> (<[ "F.I.SH"%string := VStr name ]> ∅);
     _birthDate := Some (Dayjs.mk y m d 0) |}.

Definition four : list Patient :=
  [ person 1 "Karimova Anna" 2000 0 31;
    person 2 "Aliyev Vali" 2000 5 15;
    person 3 "Valiyeva Gulnora" 2000 1 29;
    person 4 "Toshmatov Eshmat" 2000 11 1 ].

(** Every day from 1 January to 31 March 2026 entered as a holiday. *)
Definition winterClosure : list string :=
  map Dayjs.format
    (monthDays 2026 0 1 0 31 ++ monthDays 2026 1 1 0 28 ++ monthDays 2026 2 1 0 31).

(** Twelve visits a year, distributed automatically. *)
Definition monthly : Range :=
  {| startYear := 2000; endYear := 2000; gender := "all";
     visitCountRaw := 12; useBirthday := false; counts := [] |}.

(** Twenty-four visits a year on the birthday timeline. *)
Definition fortnightly : Range :=
  {| startYear := 2000; endYear := 2000; gender := "all";
     visitCountRaw := 24; useBirthday := true; counts := [] |}.


(** One visit, planned by hand. *)
Definition manual (cs : list Z) : Range :=
  {| startYear := 2000; endYear := 2000; gender := "all";
     visitCountRaw := 1; useBirthday := false; counts := cs |}.


(** One visit in January and one in February, planned by hand. *)
Definition twoPlanned : Range := manual [1; 1; 0; 0; 0; 0; 0; 0; 0; 0; 0; 0].

Definition config2026 (hs : list string) (rs : list Range) : Config :=
  {| targetYear := 2026; holidays := hs; saturdayWorking := false; ranges := rs |}.

End Samples.

(** * The rest of the program

    What follows models the code around the engine: the detection of the
    header row and of the columns, the parsing of birth dates, the reading
    of the rows, [analyzeExcel], the sheets and file names a run writes,
    and the computations of the browser script.

    Conventions.
    - A worksheet is the list of its rows, row 1 first, and a row the list
      of its cells, column 1 first; [rowCount] is the length of the list.
      A cell value is [null], a string, a number, a boolean, a [Date], a
      rich text or an object with a non-empty [text] (a hyperlink);
      formula and error cells are left out, and so are numbers with a
      fraction.
    - [dayjs(s)] for a string [s] is the library's parser: the functions
      that call it take it as the argument [dayjsOfString].  [new Date(ms)]
      is read in the fixed zone of the model, [tz] milliseconds east of
      UTC. *)

(** ** More string methods *)

Module Str.

(** [s.startsWith(t)] *)
Fixpoint startsWith (s t : string) {struct t} : bool :=
  match t with
  | EmptyString => true
  | String c t' =>
      match s with
      | EmptyString => false
      | String d s' => Ascii.eqb d c && startsWith s' t'
      end
  end.

(** [s.includes(k)] *)
Fixpoint includes (s k : string) : bool :=
  startsWith s k
  || match s with
     | EmptyString => false
     | String _ r => includes r k
     end.

(** [s.split(sep)] for a separator of one character. *)
Fixpoint split (sep : ascii) (s : string) : list string :=
  match s with
  | EmptyString => [EmptyString]
  | String c r =>
      if Ascii.eqb c sep then EmptyString :: split sep r
      else
        match split sep r with
        | w :: ws => String c w :: ws
        | [] => [String c EmptyString]
        end
  end.

End Str.

(** [keywords.some(k => val.includes(k))] *)
Definition mentions (keywords : list string) (val : string) : bool :=
  existsb (Str.includes val) keywords.

(** ** Column detection *)

Definition birthKeywords : list string :=
  ["tug'ilgan"; "birth"; "d.o.b"; "data rojdeniya"; "sana"]%string.

(** The [for] loop of [findBirthDateColumn] from index [i]; [None] when it
    ends without returning. *)
Fixpoint findBirthDateColumn_loop (headerRow : list string) (i : nat) : option nat :=
  match headerRow with
  | [] => None
  | h :: rest =>
      let val := JsString.toLowerCase h in
      if mentions birthKeywords val then Some (i + 1)%nat
      else findBirthDateColumn_loop rest (S i)
  end.

(** The 1-based index of the birth-date column; column 1 when no header
    mentions a keyword. *)
Definition findBirthDateColumn (headerRow : list string) : nat :=
  default 1%nat (findBirthDateColumn_loop headerRow 0).

Definition idKeywords : list string := ["№"; "t/r"; "no"; "tartib"]%string.

Definition nameKeywords : list string :=
  ["f.i.sh"; "fish"; "ism"; "name"; "familiya"]%string.

(** [for (const h of headers) if (keywords.some(k =>
    h.toLowerCase().includes(k))) { key = h; break; }] from [key = null]. *)
Definition firstMentioning (keywords : list string) (headers : list string)
    : option string :=
  List.find (fun h => mentions keywords (JsString.toLowerCase h)) headers.

(** [!key] for a key that is [null], [undefined] or a string. *)
Definition noKey (key : option string) : bool :=
  match key with
  | None => true
  | Some s => String.eqb s ""
  end.

(** The identifier column: the first header that mentions a keyword, else
    the first header. *)
Definition detectIdColKey (headers : list string) : option string :=
  let idColKey := firstMentioning idKeywords headers in
  if noKey idColKey && (0 <? length headers)%nat then headers !! 0%nat
  else idColKey.

(** The name column: the first header that mentions a keyword, else the
    second header. *)
Definition detectNameColKey (headers : list string) : option string :=
  let nameColKey := firstMentioning nameKeywords headers in
  if noKey nameColKey && (1 <? length headers)%nat then headers !! 1%nat
  else nameColKey.

(** [while (lastNonEmptyIdx > 0 && (!headers[lastNonEmptyIdx - 1] ||
    headers[lastNonEmptyIdx - 1].startsWith('Col'))) lastNonEmptyIdx--] *)
Fixpoint trimHeaders_loop (headers : list string) (lastNonEmptyIdx : nat) : nat :=
  match lastNonEmptyIdx with
  | O => O
  | S k =>
      match headers !! k with
      | Some h =>
          if String.eqb h "" || Str.startsWith h "Col"
          then trimHeaders_loop headers k
          else lastNonEmptyIdx
      | None => trimHeaders_loop headers k
      end
  end.

(** [lastNonEmptyIdx] after the loop and the guard that keeps the birth
    column. *)
Definition lastNonEmptyIdxOf (headers : list string) (birthColIdx : nat) : nat :=
  let lastNonEmptyIdx := trimHeaders_loop headers (length headers) in
  if (lastNonEmptyIdx <? birthColIdx)%nat then length headers else lastNonEmptyIdx.

(** [headers.slice(0, lastNonEmptyIdx)] *)
Definition trimmedHeadersOf (headers : list string) (birthColIdx : nat) : list string :=
  take (lastNonEmptyIdxOf headers birthColIdx) headers.

(** A key as the tests [if (key)] of the engine see it: absent when it is
    [null], [undefined] or the empty string. *)
Definition keyOf (key : option string) : option string :=
  if noKey key then None else key.

(** The columns the engine works with. *)
Definition columnsOf (headers : list string) : Columns :=
  let birthColIdx := findBirthDateColumn headers in
  {| idColKey := keyOf (detectIdColKey headers);
     nameColKey := keyOf (detectNameColKey headers);
     birthKey := keyOf (trimmedHeadersOf headers birthColIdx !! (birthColIdx - 1)%nat) |}.

(** ** Cells and sheets *)

Inductive Cell : Type :=
  | Plain (v : Value)
  | RichText (runs : list string)
  | Hyperlink (c : ascii) (rest : string).

(** A worksheet: its rows from row 1, each the cells from column 1. *)
Abbreviation Sheet := (list (list Cell)).

(** [if (typeof val === 'object' && val !== null) { if (val.richText) val =
    val.richText.map(t => t.text).join(''); else if (val.text) val =
    val.text; }] *)
Definition flatten (cell : Cell) : Value :=
  match cell with
  | Plain v => v
  | RichText runs => VStr (String.concat "" runs)
  | Hyperlink c rest => VStr (String c rest)
  end.

(** [String(cell.value)] and the truthiness of [cell.value], the value
    taken as it is. *)
Definition rawString (cell : Cell) : string :=
  match cell with
  | Plain v => JsString.toString v
  | RichText _ | Hyperlink _ _ => "[object Object]"
  end.

Definition rawTruthy (cell : Cell) : bool :=
  match cell with
  | Plain v => truthy v
  | RichText _ | Hyperlink _ _ => true
  end.

(** A cell without a value. *)
Definition isNullCell (cell : Cell) : bool :=
  match cell with
  | Plain VNull | Plain VUndef => true
  | _ => false
  end.

(** [sheet.getRow(r)] and [row.getCell(c)], both 1-based; a row or a cell
    that is not there is empty. *)
Definition getRow (sheet : Sheet) (r : nat) : list Cell :=
  default [] (sheet !! (r - 1)%nat).

Definition getCell (row : list Cell) (c : nat) : Cell :=
  match c with
  | O => Plain VNull
  | S k => default (Plain VNull) (row !! k)
  end.

(** [row.hasValues] *)
Definition hasValues (row : list Cell) : bool :=
  existsb (fun cell => negb (isNullCell cell)) row.

(** The headers of a header row: [headers[colNumber - 1] = val ?
    String(val) : placeholder] for every cell; the placeholder is
    [`Col${colNumber}`] in [processExcel] and [''] in [analyzeExcel]. *)
Fixpoint headersOf_loop (placeholder : nat -> string) (cells : list Cell)
    (colNumber : nat) : list string :=
  match cells with
  | [] => []
  | cell :: rest =>
      let val := flatten cell in
      (if truthy val then JsString.toString val else placeholder colNumber)
        :: headersOf_loop placeholder rest (S colNumber)
  end.

Definition colPlaceholder (colNumber : nat) : string :=
  ("Col" ++ Dayjs.stringOfZ (Z.of_nat colNumber))%string.

Definition emptyPlaceholder (colNumber : nat) : string := ""%string.

Definition headersOf (placeholder : nat -> string) (cells : list Cell) : list string :=
  headersOf_loop placeholder cells 1.

(** ** The header row *)

Definition headerKeywords : list string :=
  ["tug'ilgan"; "birth"; "d.o.b"; "sana"; "yil"; "date"]%string.

(** [String(val || '')] for the flattened value of a cell. *)
Definition cellText (cell : Cell) : string :=
  let val := flatten cell in
  JsString.toString (if truthy val then val else VStr "").

(** The callback of [row.eachCell] in [findHeaderRow]: whether the cell
    counts as a match. *)
Definition cellMatches (cell : Cell) : bool :=
  let str := JsString.toLowerCase (cellText cell) in
  mentions headerKeywords str.

(** [matchCount] after [row.eachCell(...)], which visits the cells that
    have a value. *)
Definition matchCountOf (row : list Cell) : nat :=
  length (List.filter cellMatches
            (List.filter (fun cell => negb (isNullCell cell)) row)).

(** [for (let r = 1; r <= limit; r++)] from row [r], [n] passes left. *)
Fixpoint findHeaderRow_loop (sheet : Sheet) (n : nat) (r : nat) : option nat :=
  match n with
  | O => None
  | S k =>
      if (0 <? matchCountOf (getRow sheet r))%nat then Some r
      else findHeaderRow_loop sheet k (S r)
  end.

Definition findHeaderRow (sheet : Sheet) : nat :=
  let limit := Nat.min 15 (length sheet) in
  default 1%nat (findHeaderRow_loop sheet limit 1).

(** ** Birth dates *)

Section ParseDate.

Variable tz : Z.
Variable dayjsOfString : string -> option Dayjs.t.

(** The largest time value of a [Date], in milliseconds. *)
Definition maxTime : Z := 8640000000000000.

(** The calendar day that lies [n] days after 1 January 1970. *)
Definition ofEpochDay (n : Z) : Dayjs.t :=
  Dayjs.set_date (Dayjs.mk 1970 0 1 0) (n + 1).

(** [dayjs(new Date(ms))]: invalid outside the range of time values, else
    the local date and time of the instant. *)
Definition dayjsOfMillis (ms : Z) : option Dayjs.t :=
  if Z.abs ms <=? maxTime then
    let localTime := ms + tz in
    Some (retime (localTime mod Calendar.msPerDay)
            (ofEpochDay (localTime / Calendar.msPerDay)))
  else None.

(** [parseDate(val)] on the value of a cell; [None] is an invalid dayjs. *)
Definition parseDate (val : Cell) : option Dayjs.t :=
  match val with
  | Plain VNull | Plain VUndef => None
  | Plain (VDate d) => Some d
  | Plain (VNum n) =>
      if (1900 <=? n) && (n <=? 2100)
      then dayjsOfString (Dayjs.stringOfZ n ++ "-01-01")
      else if n <? 4000 then None
      else dayjsOfMillis ((n - (25567 + 2)) * 86400 * 1000)
  | Plain (VStr s) =>
      if String.eqb s "" then None
      else
        let trimmed := JsString.trim s in
        if String.eqb trimmed "" then None
        else if Str.includes trimmed "." then
          match Str.split "." trimmed with
          | [p0; p1; p2] => dayjsOfString (p2 ++ "-" ++ p1 ++ "-" ++ p0)
          | _ => dayjsOfString trimmed
          end
        else dayjsOfString trimmed
  | Plain (VBool b) => dayjsOfMillis (if b then 1 else 0)
  | RichText _ | Hyperlink _ _ => None
  end.

(** ** The rows *)

(** Identity numbers are kept as text: [if (lowerKey.includes('jshshir')
    || ...) { if (val) val = String(val); }] *)
Definition forceString (key : string) (val : Value) : Value :=
  let lowerKey := JsString.toLowerCase key in
  if Str.includes lowerKey "jshshir" || Str.includes lowerKey "shaxsiy"
     || Str.includes lowerKey "hujjat"
  then (if truthy val then VStr (JsString.toString val) else val)
  else val.

(** [row.eachCell({ includeEmpty: true }, (cell, colNumber) => ...)] on
    [rowObj], from column [colNumber]. *)
Fixpoint readCells (headers : list string) (lastNonEmptyIdx : nat)
    (cells : list Cell) (colNumber : nat) (rowObj : Row) : Row :=
  match cells with
  | [] => rowObj
  | cell :: rest =>
      let rowObj' :=
        if (lastNonEmptyIdx <? colNumber)%nat then rowObj
        else
          match headers !! (colNumber - 1)%nat with
          | Some key =>
              if String.eqb key "" then rowObj
              else <[ key := forceString key (flatten cell) ]> rowObj
          | None => rowObj
          end in
      readCells headers lastNonEmptyIdx rest (S colNumber) rowObj'
  end.

(** One entry of [rowsData].  The parsed date is kept apart in
    [_birthDate]; the source stores it in the row object under that name,
    over a cell that a header of the same name would have put there. *)
Definition readRow (headers : list string) (lastNonEmptyIdx birthColIdx : nat)
    (row : list Cell) : Patient :=
  let rowObj := readCells headers lastNonEmptyIdx row 1 ∅ in
  {| fields := delete "_birthDate"%string rowObj;
     _birthDate := parseDate (getCell row birthColIdx) |}.

(** [inputSheet.eachRow((row, rowNumber) => { if (rowNumber <=
    headerRowIdx) return; ...; rowsData.push(rowObj); })]: the rows that
    have values are visited, from row [rowNumber]. *)
Fixpoint eachRow_loop (headers : list string)
    (headerRowIdx lastNonEmptyIdx birthColIdx : nat)
    (rows : Sheet) (rowNumber : nat) (rowsData : list Patient) : list Patient :=
  match rows with
  | [] => rowsData
  | row :: rest =>
      let rowsData' :=
        if hasValues row then
          if (rowNumber <=? headerRowIdx)%nat then rowsData
          else rowsData ++ [readRow headers lastNonEmptyIdx birthColIdx row]
        else rowsData in
      eachRow_loop headers headerRowIdx lastNonEmptyIdx birthColIdx
        rest (S rowNumber) rowsData'
  end.

(** What [processExcel] has read when the cohort loop starts. *)
Record Reading : Type := mkReading {
  headerRowIdx : nat;
  headers : list string;
  birthColIdx : nat;
  columns : Columns;
  trimmedHeaders : list string;
  rowsData : list Patient
}.

Inductive ReadError : Type :=
  | EmptyFile.

(** [processExcel] up to the cohort loop; [inl] is the [throw]. *)
Definition readSheet (inputSheet : Sheet) : ReadError + Reading :=
  if (length inputSheet <? 1)%nat then inl EmptyFile
  else
    let headerRowIdx := findHeaderRow inputSheet in
    let headerRow := getRow inputSheet headerRowIdx in
    let headers := headersOf colPlaceholder headerRow in
    let birthColIdx := findBirthDateColumn headers in
    let lastNonEmptyIdx := lastNonEmptyIdxOf headers birthColIdx in
    inr {| headerRowIdx := headerRowIdx;
           headers := headers;
           birthColIdx := birthColIdx;
           columns := columnsOf headers;
           trimmedHeaders := trimmedHeadersOf headers birthColIdx;
           rowsData :=
             eachRow_loop headers headerRowIdx lastNonEmptyIdx birthColIdx
               inputSheet 1 [] |}.

(** [processExcel(buffer, config)] on the first worksheet of the buffer,
    run at the instant [now]. *)
Definition processSheet (now : Dayjs.t) (inputSheet : Sheet) (config : Config)
    : ReadError + (Error + Output) :=
  match readSheet inputSheet with
  | inl e => inl e
  | inr rd => inr (processExcel now (columns rd) config (rowsData rd))
  end.

End ParseDate.

(** ** [analyzeExcel] *)

(** One entry of [yearCounts]. *)
Record YearCount : Type := mkYearCount {
  total : Z;
  male : Z;
  female : Z
}.

(** [headers.forEach((h, i) => { if (!nameColKey && keywordsName.some(k =>
    h.toLowerCase().includes(k))) { nameColKey = h; nameColIdx = i + 1; }
    })] on the pair [(nameColKey, nameColIdx)]. *)
Fixpoint nameCol_loop (headers : list string) (i : nat)
    (st : option string * Z) : option string * Z :=
  match headers with
  | [] => st
  | h :: rest =>
      let st' :=
        if noKey (fst st) && mentions nameKeywords (JsString.toLowerCase h)
        then (Some h, Z.of_nat i + 1)
        else st in
      nameCol_loop rest (S i) st'
  end.

(** [nameColIdx] once the fallback to column 2 has been applied; -1 when
    there is no name column. *)
Definition nameColIdxOf (headers : list string) : Z :=
  let '(nameColKey, nameColIdx) := nameCol_loop headers 0 (None, -1) in
  if noKey nameColKey && (1 <? length headers)%nat then 2 else nameColIdx.

(** The gender check of [analyzeExcel] on one row. *)
Definition isFemaleRow (nameColIdx : Z) (row : list Cell) : bool :=
  if 0 <? nameColIdx then
    let val := getCell row (Z.to_nat nameColIdx) in
    let str :=
      if rawTruthy val then JsString.trim (rawString val) else ""%string in
    let firstWord := JsString.splitFirst str in
    negb (String.eqb firstWord "")
    && JsString.endsWith (JsString.toLowerCase firstWord) "a"
  else false.

Section Analyze.

Variable tz : Z.
Variable dayjsOfString : string -> option Dayjs.t.
Variable now : Dayjs.t.

(** The body of [sheet.eachRow] below the header, on the pair
    [(yearCounts, totalPatients)]. *)
Definition analyzeRow (birthColIdx : nat) (nameColIdx : Z) (row : list Cell)
    (st : gmap Z YearCount * Z) : gmap Z YearCount * Z :=
  let '(yearCounts, totalPatients) := st in
  match parseDate tz dayjsOfString (getCell row birthColIdx) with
  | Some date =>
      let y := Dayjs.year date in
      if (1900 <=? y) && (y <? Dayjs.year now + 1) then
        let c :=
          default {| total := 0; male := 0; female := 0 |} (yearCounts !! y) in
        let c := {| total := total c + 1; male := male c; female := female c |} in
        let c :=
          if isFemaleRow nameColIdx row
          then {| total := total c; male := male c; female := female c + 1 |}
          else {| total := total c; male := male c + 1; female := female c |} in
        (<[ y := c ]> yearCounts, totalPatients + 1)
      else st
  | None => st
  end.

(** [sheet.eachRow((row, rowNum) => { if (rowNum <= headerRowIdx) return;
    ... })] from row [rowNum]. *)
Fixpoint analyze_loop (headerRowIdx birthColIdx : nat) (nameColIdx : Z)
    (rows : Sheet) (rowNum : nat) (st : gmap Z YearCount * Z)
    : gmap Z YearCount * Z :=
  match rows with
  | [] => st
  | row :: rest =>
      let st' :=
        if hasValues row then
          if (rowNum <=? headerRowIdx)%nat then st
          else analyzeRow birthColIdx nameColIdx row st
        else st in
      analyze_loop headerRowIdx birthColIdx nameColIdx rest (S rowNum) st'
  end.

(** [analyzeExcel(buffer)] on the first worksheet: [(yearCounts,
    totalPatients)]. *)
Definition analyzeExcel (sheet : Sheet) : gmap Z YearCount * Z :=
  let headerRowIdx := findHeaderRow sheet in
  let headers := headersOf emptyPlaceholder (getRow sheet headerRowIdx) in
  let birthColIdx := findBirthDateColumn headers in
  let nameColIdx := nameColIdxOf headers in
  analyze_loop headerRowIdx birthColIdx nameColIdx sheet 1 (∅, 0).

End Analyze.

(** ** The browser script *)

(** An entry of [currentYearCounts]: a bare number (an older shape of the
    payload) or the object [analyzeExcel] sends. *)
Inductive YearEntry : Type :=
  | CountNumber (n : Z)
  | CountObject (c : YearCount).

(** [n || 0] *)
Definition orZero (n : Z) : Z := if n =? 0 then 0 else n.

(** What one year adds to [available]. *)
Definition contribution (gender : string) (counts : option YearEntry) : Z :=
  match counts with
  | None => 0
  | Some (CountNumber n) => if n =? 0 then 0 else n
  | Some (CountObject c) =>
      if String.eqb gender "male" then orZero (male c)
      else if String.eqb gender "female" then orZero (female c)
      else orZero (total c)
  end.

(** [for (let y = startYear; y <= endYear; y++) { ... available += ... }]
    from [available = 0]. *)
Definition availableOf (currentYearCounts : gmap Z YearEntry)
    (startYear endYear : Z) (gender : string) : Z :=
  fold_left
    (fun available y => available + contribution gender (currentYearCounts !! y))
    (seqZ startYear (endYear - startYear + 1)) 0.

(** [parseInt(text) || d] on what [parseInt] returned ([None] is NaN). *)
Definition orDefault (d : Z) (parsed : option Z) : Z :=
  match parsed with
  | Some n => if n =? 0 then d else n
  | None => d
  end.

(** [monthInputs.forEach(input => planned += (parseInt(input.value) ||
    0))] from [planned = 0]. *)
Definition plannedOf (monthInputs : list (option Z)) : Z :=
  fold_left (fun planned v => planned + orDefault 0 v) monthInputs 0.

(** [counts.push(parseInt(...) || 0)] for each month field, when the
    configuration is collected. *)
Definition countsOf (monthInputs : list (option Z)) : list Z :=
  map (orDefault 0) monthInputs.

(** The class [updateRangeValidation] gives to the statistics line. *)
Inductive StatusClass : Type :=
  | StatNone
  | StatOk
  | StatWarning
  | StatError.

Definition statusOf (available planned startYear endYear visitCount : Z)
    : StatusClass :=
  let isError := available <? planned in
  let isWarning := planned <? available in
  let isOk := (0 <? planned) && (planned =? available) in
  if 1 <? visitCount then StatOk
  else if (available =? 0) && (0 <? startYear) then StatError
  else if (startYear =? 0) && (endYear =? 0) then StatNone
  else if isError then StatError
  else if isWarning then StatWarning
  else if isOk then StatOk
  else StatNone.

(** The [inputs.forEach] of the distribute button over [n] month fields:
    the values it writes. *)
Fixpoint distribute_loop (n : nat) (base remainder : Z) : list Z :=
  match n with
  | O => []
  | S k =>
      if 0 <? remainder
      then (base + 1) :: distribute_loop k base (remainder - 1)
      else base :: distribute_loop k base remainder
  end.

(** The distribute button on twelve month fields; [None] is the alert
    that there is no one to distribute. *)
Definition distribute (totalAvailable : Z) : option (list Z) :=
  if totalAvailable <=? 0 then None
  else
    let base := jsFloorDiv totalAvailable 12 in
    let remainder := jsRem totalAvailable 12 in
    Some (distribute_loop 12 base remainder).

(** [holidaysText.split(',').map(s => s.trim()).filter(s => s)] *)
Definition parseHolidays (holidaysText : string) : list string :=
  List.filter (fun s => negb (String.eqb s ""))
    (map JsString.trim (Str.split "," holidaysText)).

(** ** The files and sheets of a run *)

Definition MONTH_NAMES : list string :=
  ["Yanvar"; "Fevral"; "Mart"; "Aprel"; "May"; "Iyun";
   "Iyul"; "Avgust"; "Sentabr"; "Oktabr"; "Noyabr"; "Dekabr"]%string.

(** [`${range.endYear}-${range.startYear}_${range.gender || 'all'}.xlsx`] *)
Definition rangeName (range : Range) : string :=
  (Dayjs.stringOfZ (endYear range) ++ "-" ++ Dayjs.stringOfZ (startYear range)
   ++ "_" ++ (if String.eqb (gender range) "" then "all" else gender range)
   ++ ".xlsx")%string.

(** A written row: the values handed to [addRow] and whether its cells
    are filled yellow. *)
Record OutRow : Type := mkOutRow {
  cells : list Value;
  yellow : bool
}.

Record OutSheet : Type := mkOutSheet {
  sheetName : string;
  sheetHeaders : list string;
  sheetRows : list OutRow
}.

(** [headers.map(h => row[h])] *)
Definition valuesOf (headers : list string) (row : Row) : list Value :=
  map (getProp row) headers.

Section Sheets.

Variable now : Dayjs.t.
Variable cols : Columns.
Variable config : Config.
Variable trimmedHeaders : list string.

(** [rangeHeaders] *)
Definition rangeHeadersOf (visitCount : nat) : list string :=
  trimmedHeaders ++ visitKeysOf visitCount.

(** A row written without a fill. *)
Definition plainRow (headers : list string) (row : Row) : OutRow :=
  {| cells := valuesOf headers row; yellow := false |}.

(** The sheet of month [m]: [outWb.addWorksheet(MONTH_NAMES[m])], the
    header row, and one row written for each of [rows]. *)
Definition monthSheet (headers : list string) (m : nat) (rows : list Row) : OutSheet :=
  {| sheetName := nth m MONTH_NAMES ""%string;
     sheetHeaders := headers;
     sheetRows := map (plainRow headers) rows |}.

(** [rows.map(r => { const newR = { ...r }; if (idColKey) newR[idColKey] =
    counter++; return newR; })] from [counter = id]. *)
Fixpoint renumber (rows : list Row) (id : Z) : list Row :=
  match rows with
  | [] => []
  | r :: rest => setId cols id r :: renumber rest (bumpId cols id)
  end.

(** *** Monthly sheets of the distribution branch *)

(** One pass of [for (let m = 0; m < 12; m++)] with the sheet it adds, on
    [(rangeAllRows, pIndex, sheets)]. *)
Definition monthStepSheets (visitCount : nat) (countsToUse : list Z)
    (patientPool : list Patient) (st : list Row * nat * list OutSheet) (m : nat)
    : list Row * nat * list OutSheet :=
  let '(rangeAllRows, pIndex, sheets) := st in
  let targetCount := nth m countsToUse 0 in
  if targetCount =? 0 then st
  else
    let workingDays :=
      getWorkingDays now (holidays config) (saturdayWorking config)
        (targetYear config) (Z.of_nat m) in
    if (length workingDays =? 0)%nat then st
    else
      let '(patientsForMonth, pIndex') :=
        takePatients (Z.to_nat targetCount) patientPool pIndex [] in
      if (length patientsForMonth =? 0)%nat then (rangeAllRows, pIndex', sheets)
      else
        let N := Z.of_nat (length patientsForMonth) in
        let D := Z.of_nat (length workingDays) in
        let st' :=
          placeOnDays cols config visitCount patientsForMonth N D 0 workingDays
            {| currentPatientIdx := 0; monthlyIdCounter := 1; monthlyRows := [] |} in
        let sheet := monthSheet (rangeHeadersOf visitCount) m (monthlyRows st') in
        (rangeAllRows ++ monthlyRows st', pIndex', sheets ++ [sheet]).

Definition logicBSheets (visitCount : nat) (processAll : bool) (range : Range)
    (patientPool : list Patient) : list Row * nat * list OutSheet :=
  let totalPatients := Z.of_nat (length patientPool) in
  let countsToUse := if processAll then autoCounts totalPatients else counts range in
  fold_left (monthStepSheets visitCount countsToUse patientPool) (seq 0 12)
    ([], 0%nat, []).

(** *** Monthly sheets of the birthday branch *)

(** [generatedDates[0].month()] of a patient. *)
Definition firstMonthOf (visitCount : nat) (p : Patient) : Z :=
  let birthDay := match _birthDate p with Some b => Dayjs.date b | None => 0 end in
  match
    birthdayDates now (targetYear config) (holidays config) (saturdayWorking config)
      visitCount birthDay
  with
  | d :: _ => Dayjs.month d
  | [] => 0
  end.

(** [patientPool.forEach(p => { ...; patientsByMonth[firstMonth].push(pRow);
    })] *)
Fixpoint groupByMonth (visitCount : nat) (patientPool : list Patient)
    (patientsByMonth : list (list Row)) : list (list Row) :=
  match patientPool with
  | [] => patientsByMonth
  | p :: rest =>
      groupByMonth visitCount rest
        (alter (fun pList => pList ++ [birthdayRow now cols config visitCount p])
           (Z.to_nat (firstMonthOf visitCount p)) patientsByMonth)
  end.

(** One pass of the rendering loop [for (let m = 0; m < 12; m++)]. *)
Definition renderMonth (visitCount : nat) (patientsByMonth : list (list Row))
    (sheets : list OutSheet) (m : nat) : list OutSheet :=
  let pList := nth m patientsByMonth [] in
  if (length pList =? 0)%nat then sheets
  else
    sheets ++ [monthSheet (rangeHeadersOf visitCount) m (renumber pList 1)].

Definition logicASheets (visitCount : nat) (patientPool : list Patient)
    : list OutSheet :=
  let patientsByMonth := groupByMonth visitCount patientPool (replicate 12 []) in
  fold_left (renderMonth visitCount patientsByMonth) (seq 0 12) [].

(** *** The sheet of the whole cohort *)

(** The rows of the sheet "Umumiy": the assigned rows renumbered, filled
    where they carry a truthy [_isUnplanned], then the unplanned rows,
    filled. *)
Definition umumiySheet (visitCount : nat) (assigned : list Row) (pIndex : nat)
    (patientPool : list Patient) : option OutSheet :=
  if (0 <? length assigned)%nat then
    let rangeHeaders := rangeHeadersOf visitCount in
    let uRows := renumber assigned 1 in
    Some
      {| sheetName := "Umumiy"%string;
         sheetHeaders := rangeHeaders;
         sheetRows :=
           map (fun row =>
                  {| cells := valuesOf rangeHeaders row;
                     yellow := truthy (getProp row "_isUnplanned") |}) uRows
           ++ map (fun outRow =>
                     {| cells := valuesOf rangeHeaders outRow; yellow := true |})
                (unplannedRows cols assigned pIndex patientPool) |}
  else None.

(** The sheets of the workbook of a cohort with a population, in the
    order they are added. *)
Definition cohortSheets (range : Range) (patientPool : list Patient)
    : list OutSheet :=
  let visitCount := visitCountOf range in
  let '(assigned, pIndex, monthly) :=
    if useBirthday range then
      let '(rangeAllRows, pIndex) := logicA now cols config visitCount patientPool in
      (rangeAllRows, pIndex, logicASheets visitCount patientPool)
    else logicBSheets visitCount (processAllOf range) range patientPool in
  monthly ++
    match umumiySheet visitCount assigned pIndex patientPool with
    | Some sheet => [sheet]
    | None => []
    end.

(** *** The consolidated workbook *)

(** The sheet "Umumiy Reja" for the groups of a run. *)
Definition consolidatedSheet (maxVisitsGlobal : nat) (groups : list Group)
    : OutSheet :=
  let globalHeaders := trimmedHeaders ++ visitKeysOf maxVisitsGlobal in
  {| sheetName := "Umumiy Reja"%string;
     sheetHeaders := globalHeaders;
     sheetRows :=
       map (fun row =>
              {| cells := valuesOf globalHeaders row;
                 yellow := truthy (getProp row "_isUnplanned") |})
         (consolidate cols maxVisitsGlobal groups) |}.

End Sheets.

(** ** Vocabulary of the statements on the rest of the program *)

(** The string [k] occurs in [s]. *)
Definition occursIn (k s : string) : Prop :=
  exists a b, s = (a ++ k ++ b)%string.

(** The header [h] mentions one of the keywords, in any letter case. *)
Definition mentionsOneOf (keywords : list string) (h : string) : Prop :=
  exists k, In k keywords /\ occursIn k (JsString.toLowerCase h).

(** [h] is the first of the headers to mention one of the keywords. *)
Definition firstToMention (keywords : list string) (headers : list string)
    (h : string) : Prop :=
  exists i : nat,
    headers !! i = Some h /\ mentionsOneOf keywords h
    /\ forall (j : nat) h', (j < i)%nat -> headers !! j = Some h' ->
         ~ mentionsOneOf keywords h'.

(** A header that the trimming loop steps over: empty, or starting with
    "Col" as the placeholders do. *)
Definition steppedOver (h : string) : Prop :=
  h = ""%string \/ exists rest, h = ("Col" ++ rest)%string.

(** A row with a cell whose text mentions a header keyword. *)
Definition headerLike (row : list Cell) : Prop :=
  exists cell, In cell row /\ mentionsOneOf headerKeywords (cellText cell).


(** The text the sample generator writes for a birth date:
    [`${day}.${month}.${year}`]. *)
Definition sampleBirthText (day month year : Z) : string :=
  (Dayjs.stringOfZ day ++ "." ++ Dayjs.stringOfZ month ++ "."
   ++ Dayjs.stringOfZ year)%string.

(** Every character of [s] passes the test [P]. *)
Fixpoint allChars (P : ascii -> bool) (s : string) : bool :=
  match s with
  | EmptyString => true
  | String c r => P c && allChars P r
  end.

(** A decimal digit or the minus sign: the characters of [String(n)] for
    an integer [n]. *)
Definition isDigitOrMinus (c : ascii) : bool :=
  let n := nat_of_ascii c in
  ((48 <=? n) && (n <=? 57))%nat || (n =? 45)%nat.

(** How many of the birth dates are valid and of a year that passes the
    test [P]. *)
Definition countBirths (P : Z -> bool) (births : list (option Dayjs.t)) : Z :=
  Z.of_nat
    (length
       (List.filter
          (fun b => match b with Some d => P (Dayjs.year d) | None => false end)
          births)).

(** The years [analyzeExcel] counts at the instant [now]: from 1900 to the
    current year. *)
Definition countedYear (now : Dayjs.t) (y : Z) : bool :=
  (1900 <=? y) && (y <? Dayjs.year now + 1).

(** The sum of the [total] fields of [yearCounts]. *)
Definition sumTotals (yearCounts : gmap Z YearCount) : Z :=
  map_fold (fun _ c acc => total c + acc) 0 yearCounts.

(** The rows of a sheet below its header row that have a value. *)
Definition dataRows (sheet : Sheet) : Sheet :=
  List.filter hasValues (drop (findHeaderRow sheet) sheet).

(** A cohort rule for both sexes. *)
Definition bothSexes (range : Range) : Prop :=
  gender range = ""%string \/ gender range = "all"%string.

(** What the browser script holds after an analysis: the entries
    [analyzeExcel] sends. *)
Definition receivedCounts (yearCounts : gmap Z YearCount) : gmap Z YearEntry :=
  CountObject <$> yearCounts.

(** The characters of a placeholder header in lower case. *)
Definition placeholderChar (c : ascii) : bool :=
  isDigitOrMinus c || Ascii.eqb c "c" || Ascii.eqb c "o" || Ascii.eqb c "l".

(** A keyword with a character that no placeholder has. *)
Definition beyondPlaceholders (k : string) : Prop :=
  exists c, Str.includes k (String c "") = true /\ placeholderChar c = false.

(** What holds of [(yearCounts, totalPatients)] once the rows whose birth
    dates are [births] have been analysed. *)
Definition analysisInv (now : Dayjs.t) (births : list (option Dayjs.t))
    (st : gmap Z YearCount * Z) : Prop :=
  (forall y,
     match fst st !! y with
     | Some c =>
         total c = countBirths (fun k => (k =? y) && countedYear now k) births
         /\ 1 <= total c /\ 0 <= male c /\ 0 <= female c
         /\ total c = male c + female c
         /\ countedYear now y = true
     | None => countBirths (fun k => (k =? y) && countedYear now k) births = 0
     end)
  /\ snd st = sumTotals (fst st).

(** The birth dates parsed from the data rows of a sheet, in order. *)
Definition birthsOf (tz : Z) (dayjsOfString : string -> option Dayjs.t)
    (sheet : Sheet) : list (option Dayjs.t) :=
  map (fun row =>
         parseDate tz dayjsOfString
           (getCell row
              (findBirthDateColumn
                 (headersOf colPlaceholder (getRow sheet (findHeaderRow sheet))))))
    (dataRows sheet).

(** A holiday entry as the script keeps it: not empty, without a comma,
    without white space at either end. *)
Definition cleanEntry (h : string) : Prop :=
  h <> ""%string /\ Str.includes h "," = false /\ JsString.trim h = h.

(** A decimal digit. *)
Definition isDigit (c : ascii) : bool :=
  let n := nat_of_ascii c in ((48 <=? n) && (n <=? 57))%nat.

(** The gender a file name shows: "all" when the rule names none. *)
Definition genderLabel (range : Range) : string :=
  if String.eqb (gender range) "" then "all"%string else gender range.

(** The text of a whole number: digits, after a minus sign or not. *)
Definition numeral (s : string) : Prop :=
  exists ds, ds <> ""%string /\ allChars isDigit ds = true
             /\ (s = ds \/ s = String "-" ds).

(** ** Sample sheets *)

Module SampleSheets.

Definition header : list Cell :=
  [Plain (VStr "No"); Plain (VStr "F.I.SH"); Plain (VStr "Tug'ilgan sana")].

(** A data row: number, name, birth date as a date cell. *)
Definition row (n : Z) (name : string) (y m d : Z) : list Cell :=
  [Plain (VNum n); Plain (VStr name); Plain (VDate (Dayjs.mk y m d 0))].

(** A title row, the header row and four people born in 2000. *)
Definition sheet : Sheet :=
  [ [Plain (VStr "Aholi ro'yxati")];
    header;
    row 1 "Karimova Anna" 2000 0 31;
    row 2 "Aliyev Vali" 2000 5 15;
    row 3 "Valiyeva Gulnora" 2000 1 29;
    row 4 "Toshmatov Eshmat" 2000 11 1 ].

(** A zone five hours ahead of UTC, in milliseconds. *)
Definition tashkent : Z := 18000000.

(** A string parser that accepts nothing: the sample sheets hold date
    cells only. *)
Definition noParser (s : string) : option Dayjs.t := None.

End SampleSheets.

(** * Properties *)

(** ** Facts of the calendar *)

Module CalendarFacts.
Import Calendar.

Lemma daysInMonth_bounds y m : 28 <= daysInMonth y m <= 31.
Proof.
  unfold daysInMonth.
  destruct (m =? 1); [destruct (isLeap y); lia|].
  destruct ((m =? 3) || (m =? 5) || (m =? 8) || (m =? 10)); lia.
Qed.

Lemma isLeap_spec y :
  isLeap y = true <-> (y mod 4 = 0 /\ (y mod 100 <> 0 \/ y mod 400 = 0)).
Proof.
  unfold isLeap. rewrite andb_true_iff, orb_true_iff, negb_true_iff.
  rewrite !Z.eqb_eq, Z.eqb_neq. tauto.
Qed.

Lemma DayFromYear_succ y : DayFromYear (y + 1) = DayFromYear y + daysInYear y.
Proof.
  unfold DayFromYear, daysInYear.
  destruct (isLeap y) eqn:E.
  - apply isLeap_spec in E. Z.div_mod_to_equations. lia.
  - assert (~ (y mod 4 = 0 /\ (y mod 100 <> 0 \/ y mod 400 = 0))) as N
      by (rewrite <- isLeap_spec; congruence).
    Z.div_mod_to_equations. lia.
Qed.

Lemma DayFromYear_mono y y' : y <= y' -> DayFromYear y + 365 * (y' - y) <= DayFromYear y'.
Proof. unfold DayFromYear. intros. Z.div_mod_to_equations. lia. Qed.


Lemma daysBeforeMonth_succ y m :
  0 <= m -> daysBeforeMonth y (m + 1) = daysBeforeMonth y m + daysInMonth y m.
Proof.
  intros Hm. unfold daysBeforeMonth.
  replace (Z.to_nat (m + 1)) with (S (Z.to_nat m)) by lia.
  simpl. rewrite Z2Nat.id by lia. reflexivity.
Qed.

Lemma daysBeforeMonth_12 y : daysBeforeMonth y 12 = daysInYear y.
Proof.
  unfold daysBeforeMonth, daysInYear.
  change (Z.to_nat 12) with 12%nat. cbn [daysBeforeMonth_nat].
  unfold daysInMonth. destruct (isLeap y); reflexivity.
Qed.

Lemma daysBeforeMonth_0 y : daysBeforeMonth y 0 = 0.
Proof. reflexivity. Qed.

Lemma daysBeforeMonth_mono y m m' :
  0 <= m <= m' -> daysBeforeMonth y m <= daysBeforeMonth y m'.
Proof.
  intros [H0 H]. unfold daysBeforeMonth.
  assert (Z.to_nat m <= Z.to_nat m')%nat as Hn by lia.
  induction Hn as [|k _ IH]; [lia|].
  simpl. pose proof (daysInMonth_bounds y (Z.of_nat k)). lia.
Qed.

Lemma MakeDay_month y m d :
  0 <= m <= 11 -> MakeDay y m d = DayFromYear y + daysBeforeMonth y m + d - 1.
Proof.
  intros Hm. unfold MakeDay.
  rewrite Z.div_small, Z.mod_small by lia.
  rewrite Z.add_0_r. reflexivity.
Qed.

(** The day number of a day of the calendar lies in its year. *)
Lemma MakeDay_in_year y m d :
  0 <= m <= 11 -> 1 <= d <= daysInMonth y m ->
  DayFromYear y <= MakeDay y m d < DayFromYear (y + 1).
Proof.
  intros Hm Hd. rewrite MakeDay_month by assumption.
  rewrite DayFromYear_succ, <- daysBeforeMonth_12.
  pose proof (daysBeforeMonth_mono y 0 m ltac:(lia)) as H0.
  pose proof (daysBeforeMonth_mono y (m + 1) 12 ltac:(lia)) as H1.
  rewrite daysBeforeMonth_succ in H1 by lia.
  rewrite daysBeforeMonth_0 in H0. lia.
Qed.

Lemma MakeDay_inj y m d y' m' d' :
  0 <= m <= 11 -> 1 <= d <= daysInMonth y m ->
  0 <= m' <= 11 -> 1 <= d' <= daysInMonth y' m' ->
  MakeDay y m d = MakeDay y' m' d' -> y = y' /\ m = m' /\ d = d'.
Proof.
  intros Hm Hd Hm' Hd' E.
  pose proof (MakeDay_in_year y m d Hm Hd) as B.
  pose proof (MakeDay_in_year y' m' d' Hm' Hd') as B'.
  assert (y = y') as ->.
  { destruct (Z.lt_trichotomy y y') as [L|[L|L]]; [|assumption|].
    - pose proof (DayFromYear_mono (y + 1) y' ltac:(lia)). lia.
    - pose proof (DayFromYear_mono (y' + 1) y ltac:(lia)). lia. }
  split; [reflexivity|].
  rewrite !MakeDay_month in E by assumption.
  assert (m = m') as ->.
  { destruct (Z.lt_trichotomy m m') as [L|[L|L]]; [|assumption|].
    - pose proof (daysBeforeMonth_mono y' (m + 1) m' ltac:(lia)) as H.
      rewrite daysBeforeMonth_succ in H by lia. lia.
    - pose proof (daysBeforeMonth_mono y' (m' + 1) m ltac:(lia)) as H.
      rewrite daysBeforeMonth_succ in H by lia. lia. }
  split; [reflexivity|lia].
Qed.

End CalendarFacts.

Module DayjsFacts.
Import Calendar Dayjs CalendarFacts.

Lemma normDate_in f y m d :
  1 <= d <= daysInMonth y m -> normDate (S f) y m d = (y, m, d).
Proof.
  intros [H1 H2]. simpl.
  destruct (Z.ltb_spec d 1); [lia|].
  destruct (Z.ltb_spec (daysInMonth y m) d); [lia|reflexivity].
Qed.

Lemma set_date_in a d :
  1 <= d <= daysInMonth (year a) (month a) ->
  set_date a d = mk (year a) (month a) d (time a).
Proof. intros H. unfold set_date. rewrite normDate_in by assumption. reflexivity. Qed.

Lemma add_day_inside a :
  1 <= date a + 1 <= daysInMonth (year a) (month a) ->
  add_day a = mk (year a) (month a) (date a + 1) (time a).
Proof. intros H. unfold add_day. apply set_date_in; assumption. Qed.

Lemma add_day_last a :
  date a = daysInMonth (year a) (month a) ->
  add_day a =
    mk (fst (nextMonth (year a) (month a))) (snd (nextMonth (year a) (month a))) 1 (time a).
Proof.
  intros E. unfold add_day, set_date.
  pose proof (daysInMonth_bounds (year a) (month a)) as B.
  replace (Z.to_nat (Z.abs (date a + 1))) with (S (Z.to_nat (date a))) by lia.
  cbn [normDate].
  destruct (Z.ltb_spec (date a + 1) 1); [lia|].
  destruct (Z.ltb_spec (daysInMonth (year a) (month a)) (date a + 1)); [|lia].
  destruct (nextMonth (year a) (month a)) as [y' m'] eqn:En. cbn [fst snd].
  pose proof (daysInMonth_bounds y' m') as B'.
  replace (date a + 1 - daysInMonth (year a) (month a)) with 1 by lia.
  destruct (Z.ltb_spec 1 1); [lia|].
  destruct (Z.ltb_spec (daysInMonth y' m') 1); [lia|reflexivity].
Qed.

Lemma time_add_day a : time (add_day a) = time a.
Proof.
  unfold add_day, set_date.
  destruct (normDate _ _ _ _) as [[y m] d]. reflexivity.
Qed.

Lemma valid_add_day a : valid a -> valid (add_day a).
Proof.
  intros [Hm Hd].
  destruct (Z.eq_dec (date a) (daysInMonth (year a) (month a))) as [E|N].
  - rewrite add_day_last by assumption. unfold valid, nextMonth.
    destruct (Z.ltb_spec (month a) 11); cbn [fst snd year month date];
      match goal with |- context [daysInMonth ?y ?m] =>
        pose proof (daysInMonth_bounds y m) end; lia.
  - rewrite add_day_inside by lia. unfold valid. cbn. lia.
Qed.

Lemma dayNumber_add_day a : valid a -> dayNumber (add_day a) = dayNumber a + 1.
Proof.
  intros [Hm Hd]. unfold dayNumber.
  destruct (Z.eq_dec (date a) (daysInMonth (year a) (month a))) as [E|N].
  - rewrite add_day_last by assumption. unfold nextMonth. cbn [year month date].
    destruct (Z.ltb_spec (month a) 11); cbn [fst snd].
    + rewrite !MakeDay_month by lia. rewrite daysBeforeMonth_succ by lia. lia.
    + assert (month a = 11) as E11 by lia.
      rewrite !MakeDay_month by lia. rewrite DayFromYear_succ, <- daysBeforeMonth_12.
      replace 12 with (month a + 1) by lia.
      rewrite daysBeforeMonth_succ by lia. rewrite daysBeforeMonth_0. lia.
  - rewrite add_day_inside by lia. cbn [year month date].
    rewrite !MakeDay_month by lia. lia.
Qed.

Lemma addDays_S n a : addDays (S n) a = addDays n (add_day a).
Proof. unfold addDays. rewrite Nat.iter_succ_r. reflexivity. Qed.

Lemma valid_addDays n a : valid a -> valid (addDays n a).
Proof. intros H. induction n; [assumption|]. cbn. apply valid_add_day, IHn. Qed.

Lemma time_addDays n a : time (addDays n a) = time a.
Proof. induction n; [reflexivity|]. cbn. rewrite time_add_day. assumption. Qed.

Lemma dayNumber_addDays n a : valid a -> dayNumber (addDays n a) = dayNumber a + Z.of_nat n.
Proof.
  intros H. induction n; [cbn; lia|].
  change (addDays (S n) a) with (add_day (addDays n a)).
  rewrite dayNumber_add_day by (apply valid_addDays; assumption). lia.
Qed.

Lemma valid_same_day a b :
  valid a -> valid b -> dayNumber a = dayNumber b -> time a = time b -> a = b.
Proof.
  intros [Hm Hd] [Hm' Hd'] E T. unfold dayNumber in E.
  apply MakeDay_inj in E; try assumption.
  destruct a, b; cbn in *. destruct E as (-> & -> & ->). congruence.
Qed.

End DayjsFacts.

(** ** Facts of the working-day calendar *)

Section WorkingDayFacts.
Import Calendar Dayjs CalendarFacts DayjsFacts.

Variable holidays : list string.
Variable saturdayWorking : bool.

#[local] Abbreviation isWD := (isWorkingDay holidays saturdayWorking).
#[local] Abbreviation findLoop := (findNextWorkingDay_loop holidays saturdayWorking).
#[local] Abbreviation snap := (findNextWorkingDay holidays saturdayWorking).

Lemma includes_In l s : includes l s = true <-> In s l.
Proof.
  unfold includes. rewrite existsb_exists. split.
  - intros (x & Hx & E). apply String.eqb_eq in E. subst. assumption.
  - intros H. exists s. split; [assumption|apply String.eqb_refl].
Qed.

Lemma isWorkingDay_iff d :
  isWD d = true <->
  day d <> 0 /\ ~ (day d = 6 /\ saturdayWorking = false) /\ ~ In (format d) holidays.
Proof.
  unfold isWorkingDay. rewrite <- includes_In.
  destruct (Z.eqb_spec (day d) 0) as [E0|N0]; [intuition congruence|].
  destruct (Z.eqb_spec (day d) 6) as [E6|N6]; destruct saturdayWorking; cbn;
    destruct (includes holidays (format d)); intuition congruence.
Qed.

Lemma isWorkingDay_civil a b : civil a = civil b -> isWD a = isWD b.
Proof.
  unfold civil. intros E. injection E as Ey Em Ed.
  unfold isWorkingDay, day, dayNumber, format. rewrite Ey, Em, Ed. reflexivity.
Qed.

Lemma monthDayIsWorking_eq d : monthDayIsWorking holidays saturdayWorking d = isWD d.
Proof.
  unfold monthDayIsWorking, isWorkingDay.
  destruct (day d =? 0), (day d =? 6), saturdayWorking,
    (includes holidays (format d)); reflexivity.
Qed.

(** The loop returns the first working day among the next [n] days. *)
Lemma findLoop_Some n d r :
  findLoop n d = Some r <->
  exists i, (i < n)%nat /\ r = addDays i d /\ isWD (addDays i d) = true /\
            forall j, (j < i)%nat -> isWD (addDays j d) = false.
Proof.
  revert d. induction n as [|n IH]; intros d; cbn [findNextWorkingDay_loop].
  - split; [discriminate|]. intros (i & Hi & _). lia.
  - destruct (isWD d) eqn:W.
    + split.
      * intros E. injection E as <-. exists 0%nat. cbn.
        repeat split; [lia|assumption|]. intros j Hj. lia.
      * intros (i & Hi & -> & Wi & Hmin). destruct i as [|i]; [reflexivity|].
        specialize (Hmin 0%nat ltac:(lia)). cbn in Hmin. congruence.
    + rewrite IH. split.
      * intros (i & Hi & -> & Wi & Hmin). exists (S i).
        rewrite addDays_S. repeat split; [lia|assumption|].
        intros [|j] Hj; [assumption|]. rewrite addDays_S. apply Hmin. lia.
      * intros (i & Hi & -> & Wi & Hmin). destruct i as [|i]; [cbn in Wi; congruence|].
        exists i. rewrite addDays_S in Wi. rewrite addDays_S.
        repeat split; [lia|assumption|].
        intros j Hj. specialize (Hmin (S j) ltac:(lia)). rewrite addDays_S in Hmin.
        assumption.
Qed.

Lemma findLoop_None n d :
  findLoop n d = None <-> forall i, (i < n)%nat -> isWD (addDays i d) = false.
Proof.
  revert d. induction n as [|n IH]; intros d; cbn [findNextWorkingDay_loop].
  - split; [intros _ i Hi; lia|reflexivity].
  - destruct (isWD d) eqn:W.
    + split; [discriminate|]. intros H. specialize (H 0%nat ltac:(lia)). cbn in H. congruence.
    + rewrite IH. split.
      * intros H [|i] Hi; [assumption|]. rewrite addDays_S. apply H. lia.
      * intros H i Hi. specialize (H (S i) ltac:(lia)). rewrite addDays_S in H. assumption.
Qed.

(** Either way the result is the date plus some days, at most 59. *)
Lemma snap_cases d :
  (exists i, (i < 60)%nat /\ snap d = addDays i d /\ isWD (addDays i d) = true /\
             forall j, (j < i)%nat -> isWD (addDays j d) = false)
  \/ (snap d = d /\ forall i, (i < 60)%nat -> isWD (addDays i d) = false).
Proof.
  unfold findNextWorkingDay.
  destruct (findLoop 60 d) as [r|] eqn:E.
  - left. apply findLoop_Some in E. destruct E as (i & Hi & -> & W & Hmin).
    exists i. auto.
  - right. split; [reflexivity|]. apply findLoop_None. assumption.
Qed.

End WorkingDayFacts.

Section GetWorkingDaysFacts.
Import Calendar Dayjs CalendarFacts DayjsFacts.

Variable now : Dayjs.t.
Variable holidays : list string.
Variable saturdayWorking : bool.
Hypothesis now_time : validTime now.

#[local] Abbreviation isWD := (isWorkingDay holidays saturdayWorking).

Lemma monthStart_eq yr monthIndex :
  monthStart now yr monthIndex =
    mk (yr + monthIndex / 12) (monthIndex mod 12) 1 (time now).
Proof.
  unfold monthStart. rewrite set_date_in.
  - reflexivity.
  - cbn [year month set_month set_year].
    pose proof (daysInMonth_bounds (yr + monthIndex / 12) (monthIndex mod 12)). lia.
Qed.

Lemma loop_condition_inside y m k t :
  0 <= m <= 11 -> 0 <= t < msPerDay -> 1 <= k <= daysInMonth y m ->
  isBefore (mk y m k t) (endOf_month (mk y m k t))
  || isSame_day (mk y m k t) (endOf_month (mk y m k t)) = true.
Proof.
  intros Hm Ht Hk. unfold isBefore, isSame_day, valueOf, dayNumber, endOf_month,
    startOf_day, endOf_day, daysInMonthOf. cbn [year month date time].
  rewrite !MakeDay_month by lia. unfold msPerDay in *.
  apply orb_true_iff.
  destruct (Z.eq_dec k (daysInMonth y m)) as [->|N].
  - right. apply andb_true_iff. split; apply Z.leb_le; lia.
  - left. apply Z.ltb_lt. lia.
Qed.

Lemma dayNumber_startOf_day a : dayNumber (startOf_day a) = dayNumber a.
Proof. reflexivity. Qed.

Lemma dayNumber_endOf_month a :
  date a = daysInMonth (year a) (month a) -> dayNumber (endOf_month a) = dayNumber a.
Proof.
  intros Hd. unfold dayNumber, endOf_month, daysInMonthOf. cbn [year month date].
  rewrite Hd. reflexivity.
Qed.

Lemma loop_condition_after a end_ :
  valid a -> 0 <= time a -> date a = daysInMonth (year a) (month a) ->
  end_ = endOf_month a ->
  isBefore (add_day a) end_ || isSame_day (add_day a) end_ = false.
Proof.
  intros Hv Ht Hd ->.
  pose proof (dayNumber_add_day a Hv) as Hn.
  pose proof (time_add_day a) as Htm.
  pose proof (dayNumber_endOf_month a Hd) as He.
  unfold isBefore, isSame_day, valueOf.
  rewrite dayNumber_startOf_day, Hn, Htm, He.
  generalize (dayNumber a). intros n.
  cbn [time endOf_month startOf_day]. unfold msPerDay.
  apply orb_false_iff. split.
  - apply Z.ltb_ge. lia.
  - apply andb_false_iff. left. apply Z.leb_gt. lia.
Qed.

Lemma getWorkingDays_loop_run n : forall y m k t fuel acc,
  0 <= m <= 11 -> 0 <= t < msPerDay -> 1 <= k ->
  k + Z.of_nat n = daysInMonth y m ->
  (S (S n) <= fuel)%nat ->
  getWorkingDays_loop holidays saturdayWorking fuel (mk y m k t)
    (endOf_month (mk y m k t)) acc
  = Some (acc ++ List.filter isWD (monthDays y m k t (S n))).
Proof.
  induction n as [|n IH]; intros y m k t fuel acc Hm Ht Hk Hn Hf.
  - destruct fuel as [|[|fuel]]; [lia|lia|].
    cbn [getWorkingDays_loop].
    rewrite loop_condition_inside by lia.
    rewrite (loop_condition_after (mk y m k t));
      [|split; cbn; lia|cbn; lia|cbn; lia|reflexivity].
    rewrite monthDayIsWorking_eq. cbn [monthDays List.filter].
    destruct (isWD (mk y m k t)); [reflexivity|rewrite app_nil_r; reflexivity].
  - destruct fuel as [|fuel]; [lia|].
    cbn [getWorkingDays_loop].
    rewrite loop_condition_inside by lia.
    rewrite add_day_inside by (cbn; lia). cbn [year month date time].
    change (endOf_month (mk y m k t)) with (endOf_month (mk y m (k + 1) t)).
    rewrite IH by lia.
    rewrite monthDayIsWorking_eq.
    change (monthDays y m k t (S (S n))) with (mk y m k t :: monthDays y m (k + 1) t (S n)).
    cbn [List.filter].
    destruct (isWD (mk y m k t)); [rewrite <- app_assoc|]; reflexivity.
Qed.

(** The loop never runs out of fuel, and the month's working days are the
    days of the month, in order, that pass [isWorkingDay]. *)
Lemma getWorkingDays_eq yr monthIndex :
  let y := yr + monthIndex / 12 in
  let m := monthIndex mod 12 in
  getWorkingDays_opt now holidays saturdayWorking yr monthIndex
  = Some (List.filter isWD
            (monthDays y m 1 (time now) (Z.to_nat (daysInMonth y m)))).
Proof.
  intros y m. unfold getWorkingDays_opt. rewrite monthStart_eq. fold y m.
  pose proof (daysInMonth_bounds y m) as B.
  pose proof (Z.mod_pos_bound monthIndex 12 ltac:(lia)) as Hm. fold m in Hm.
  replace (Z.to_nat (daysInMonth y m)) with (S (Z.to_nat (daysInMonth y m - 1))) by lia.
  rewrite (getWorkingDays_loop_run (Z.to_nat (daysInMonth y m - 1))); [reflexivity|lia| |lia|lia|lia].
  exact now_time.
Qed.

End GetWorkingDaysFacts.

(** ** Facts of the even distribution *)

Section DistributionFacts.

Lemma sumZ_app l1 l2 : sumZ (l1 ++ l2) = sumZ l1 + sumZ l2.
Proof. unfold sumZ. induction l1 as [|x l1 IH]; cbn; [reflexivity|]. rewrite IH. lia. Qed.

Lemma countForDay_eq n d i :
  0 <= n -> 0 < d ->
  countForDay n d i = if i <? n mod d then n / d + 1 else n / d.
Proof.
  intros Hn Hd. unfold countForDay, jsFloorDiv, jsRem.
  rewrite Z.rem_mod_nonneg by lia. reflexivity.
Qed.

Lemma countForDay_nonneg n d i : 0 <= n -> 0 < d -> 0 <= countForDay n d i.
Proof.
  intros Hn Hd. rewrite countForDay_eq by assumption.
  pose proof (Z.div_pos n d Hn Hd). destruct (i <? n mod d); lia.
Qed.

(** The quotas of the first [k] slots add up to [k] times the base plus
    one for each slot served by the remainder. *)
Lemma sum_quotas_prefix n d (k : nat) :
  0 <= n -> 0 < d ->
  sumZ (map (countForDay n d) (seqZ 0 (Z.of_nat k)))
  = (n / d) * Z.of_nat k + Z.min (Z.of_nat k) (n mod d).
Proof.
  intros Hn Hd. pose proof (Z.mod_pos_bound n d Hd) as Hr.
  induction k as [|k IH].
  - rewrite seqZ_nil by lia. unfold sumZ. cbn [map fold_right]. lia.
  - rewrite seqZ_S, map_app, sumZ_app, IH. unfold sumZ. cbn [map fold_right].
    rewrite countForDay_eq by assumption.
    destruct (Z.ltb_spec (0 + Z.of_nat k) (n mod d)); lia.
Qed.

Lemma sum_quotas n d :
  0 <= n -> 0 < d -> sumZ (map (countForDay n d) (seqZ 0 d)) = n.
Proof.
  intros Hn Hd. pose proof (Z.mod_pos_bound n d Hd) as Hr.
  rewrite <- (Z2Nat.id d) at 2 by lia.
  rewrite sum_quotas_prefix by assumption.
  rewrite Z2Nat.id by lia. rewrite Z.min_r by lia.
  rewrite (Z.div_mod n d) at 3 by lia. lia.
Qed.

Lemma pushCounts_eq k : forall i base rem acc,
  pushCounts k i base rem acc
  = acc ++ map (fun j => if j <? rem then base + 1 else base) (seqZ i (Z.of_nat k)).
Proof.
  induction k as [|k IH]; intros i base rem acc.
  - rewrite seqZ_nil by lia. cbn [pushCounts map]. rewrite app_nil_r. reflexivity.
  - cbn [pushCounts]. rewrite IH.
    rewrite (seqZ_cons i (Z.of_nat (S k))) by lia.
    replace (Z.pred (Z.of_nat (S k))) with (Z.of_nat k) by lia.
    cbn [map]. rewrite <- app_assoc. reflexivity.
Qed.

Lemma autoCounts_eq n : autoCounts n = map (countForDay n 12) (seqZ 0 12).
Proof. unfold autoCounts. rewrite pushCounts_eq. reflexivity. Qed.

End DistributionFacts.


(** ** Facts of the distribution loops *)

Section SchedulerFacts.

Variable now : Dayjs.t.
Variable cols : Columns.
Variable config : Config.

#[local] Abbreviation placedRows' := (placedRows cols config).

Lemma takePatients_eq n : forall pool pIndex acc,
  takePatients n pool pIndex acc
  = (acc ++ take n (drop pIndex pool), (pIndex + Nat.min n (length pool - pIndex))%nat).
Proof.
  induction n as [|n IH]; intros pool pIndex acc.
  - cbn. rewrite app_nil_r. f_equal. lia.
  - cbn [takePatients]. destruct (pool !! pIndex) as [p|] eqn:E.
    + rewrite IH. pose proof (lookup_lt_Some _ _ _ E) as Hlt.
      rewrite (drop_S _ _ _ E). cbn [take]. rewrite <- app_assoc. cbn [app].
      f_equal. lia.
    + apply lookup_ge_None in E. rewrite drop_ge by lia.
      rewrite take_nil, app_nil_r. f_equal. lia.
Qed.

Lemma placedRows_app vc ps1 ps2 d1 d2 id :
  length ps1 = length d1 ->
  placedRows' vc (ps1 ++ ps2) (d1 ++ d2) id
  = placedRows' vc ps1 d1 id ++ placedRows' vc ps2 d2 (Nat.iter (length ps1) (bumpId cols) id).
Proof.
  revert d1 id. induction ps1 as [|p ps1 IH]; intros [|d d1] id Hl; try discriminate.
  - reflexivity.
  - cbn [app placedRows length]. rewrite IH by (cbn in Hl; lia).
    rewrite Nat.iter_succ_r. reflexivity.
Qed.

Lemma length_placedRows vc ps days id :
  length ps = length days -> length (placedRows' vc ps days id) = length ps.
Proof.
  revert days id. induction ps as [|p ps IH]; intros [|d days] id Hl; try discriminate.
  - reflexivity.
  - cbn. rewrite IH by (cbn in Hl; lia). reflexivity.
Qed.

(** One day: the next [k] patients get this day. *)
Lemma placeOnDay_eq vc P dayDate k : forall st,
  (currentPatientIdx st + k <= length P)%nat ->
  placeOnDay cols config k vc P dayDate st
  = {| currentPatientIdx := currentPatientIdx st + k;
       monthlyIdCounter := Nat.iter k (bumpId cols) (monthlyIdCounter st);
       monthlyRows :=
         monthlyRows st ++
         placedRows' vc (take k (drop (currentPatientIdx st) P))
           (replicate k dayDate) (monthlyIdCounter st) |}.
Proof.
  induction k as [|k IH]; intros [c idc rows] Hle; cbn [currentPatientIdx monthlyIdCounter monthlyRows] in *.
  - cbn. rewrite app_nil_r, Nat.add_0_r. reflexivity.
  - cbn [placeOnDay currentPatientIdx monthlyIdCounter monthlyRows].
    destruct (P !! c) as [p|] eqn:E; [|apply lookup_ge_None in E; lia].
    rewrite IH by (cbn; lia). cbn [currentPatientIdx monthlyIdCounter monthlyRows].
    rewrite (drop_S _ _ _ E). cbn [take replicate placedRows].
    rewrite <- app_assoc. cbn [app]. rewrite Nat.iter_succ_r.
    f_equal. lia.
Qed.

Lemma length_dayPlan N D wd : forall d,
  0 <= N -> 0 < D ->
  Z.of_nat (length (dayPlan N D d wd))
  = sumZ (map (countForDay N D) (seqZ d (Z.of_nat (length wd)))).
Proof.
  induction wd as [|day wd IH]; intros d HN HD.
  - reflexivity.
  - cbn [dayPlan length]. rewrite length_app, length_replicate, Nat2Z.inj_add, IH by assumption.
    rewrite (seqZ_cons d) by lia.
    replace (Z.pred (Z.of_nat (S (length wd)))) with (Z.of_nat (length wd)) by lia.
    unfold sumZ. cbn [map fold_right].
    pose proof (countForDay_nonneg N D d HN HD). unfold Z.succ. lia.
Qed.

(** The day loops: every patient, in order, gets the day of the plan. *)
Lemma placeOnDays_eq vc P N D wd : forall d st,
  (currentPatientIdx st + length (dayPlan N D d wd) <= length P)%nat ->
  placeOnDays cols config vc P N D d wd st
  = {| currentPatientIdx := currentPatientIdx st + length (dayPlan N D d wd);
       monthlyIdCounter :=
         Nat.iter (length (dayPlan N D d wd)) (bumpId cols) (monthlyIdCounter st);
       monthlyRows :=
         monthlyRows st ++
         placedRows' vc
           (take (length (dayPlan N D d wd)) (drop (currentPatientIdx st) P))
           (dayPlan N D d wd) (monthlyIdCounter st) |}.
Proof.
  induction wd as [|day wd IH]; intros d [c idc rows] Hle;
    cbn [currentPatientIdx monthlyIdCounter monthlyRows] in *.
  - cbn. rewrite app_nil_r, Nat.add_0_r. reflexivity.
  - cbn [placeOnDays dayPlan] in *. rewrite length_app, length_replicate in *.
    set (k := Z.to_nat (countForDay N D d)) in *.
    set (rest := dayPlan N D (d + 1) wd) in *.
    rewrite placeOnDay_eq by (cbn; lia).
    rewrite IH by (cbn; fold rest; lia).
    cbn [currentPatientIdx monthlyIdCounter monthlyRows]. fold rest.
    f_equal.
    + lia.
    + rewrite (Nat.add_comm k), Nat.iter_add. reflexivity.
    + rewrite <- app_assoc. f_equal.
      rewrite <- take_take_drop, drop_drop.
      rewrite placedRows_app.
      * rewrite length_take, length_drop, Nat.min_l by lia. reflexivity.
      * rewrite length_take, length_drop, length_replicate. lia.
Qed.


Lemma length_dayPlan_all N wd :
  0 <= N -> (0 < length wd)%nat ->
  length (dayPlan N (Z.of_nat (length wd)) 0 wd) = Z.to_nat N.
Proof.
  intros HN Hwd.
  pose proof (length_dayPlan N (Z.of_nat (length wd)) wd 0 HN ltac:(lia)) as H.
  rewrite sum_quotas in H by lia. lia.
Qed.

#[local] Abbreviation workingDaysOf m :=
  (getWorkingDays now (holidays config) (saturdayWorking config)
     (targetYear config) (Z.of_nat m)).

(** One month of the distribution branch in closed form. *)
Lemma monthStep_eq vc countsToUse pool rows pIndex m :
  monthStep now cols config vc countsToUse pool (rows, pIndex) m
  = if (nth m countsToUse 0 =? 0) || (length (workingDaysOf m) =? 0)%nat
    then (rows, pIndex)
    else
      let p4m := take (Z.to_nat (nth m countsToUse 0)) (drop pIndex pool) in
      (rows ++ placedRows' vc p4m
                 (dayPlan (Z.of_nat (length p4m)) (Z.of_nat (length (workingDaysOf m)))
                    0 (workingDaysOf m)) 1,
       (pIndex + length p4m)%nat).
Proof.
  unfold monthStep.
  destruct (nth m countsToUse 0 =? 0); [reflexivity|]. cbn [orb].
  destruct (Nat.eqb_spec (length (workingDaysOf m)) 0) as [E0|N0]; [reflexivity|].
  rewrite takePatients_eq. cbn [app].
  set (p4m := take (Z.to_nat (nth m countsToUse 0)) (drop pIndex pool)).
  assert (Nat.min (Z.to_nat (nth m countsToUse 0)) (length pool - pIndex) = length p4m) as ->.
  { unfold p4m. rewrite length_take, length_drop. reflexivity. }
  destruct (Nat.eqb_spec (length p4m) 0) as [Ep|Np].
  - cbn zeta. destruct p4m; [|discriminate]. cbn [placedRows]. rewrite app_nil_r. reflexivity.
  - cbn zeta.
    pose proof (length_dayPlan_all (Z.of_nat (length p4m)) (workingDaysOf m)
                  ltac:(lia) ltac:(lia)) as Hl.
    rewrite Nat2Z.id in Hl.
    rewrite placeOnDays_eq
      by (cbn [currentPatientIdx]; rewrite Hl; lia).
    cbn [currentPatientIdx monthlyIdCounter monthlyRows app].
    rewrite Hl. rewrite drop_0, take_ge by lia. reflexivity.
Qed.

Lemma in_dayPlan N D wd x : forall d, In x (dayPlan N D d wd) -> In x wd.
Proof.
  induction wd as [|day wd IH]; intros d H; [assumption|].
  cbn [dayPlan] in H. apply in_app_or in H. destruct H as [H|H].
  - left. apply list_elem_of_In, elem_of_replicate in H. symmetry. apply H.
  - right. eapply IH, H.
Qed.

End SchedulerFacts.

(** ** Facts of the sort *)

Section SortFacts.
Import Dayjs.

Lemma insertByValue_perm x l : Permutation (insertByValue x l) (x :: l).
Proof.
  induction l as [|y r IH]; cbn [insertByValue]; [reflexivity|].
  destruct (valueOf x <=? valueOf y); [reflexivity|].
  rewrite IH. apply perm_swap.
Qed.

Lemma sortByValue_perm l : Permutation (sortByValue l) l.
Proof.
  induction l as [|x r IH]; cbn [sortByValue]; [reflexivity|].
  rewrite insertByValue_perm, IH. reflexivity.
Qed.

Lemma insertByValue_ascending x l : ascending l -> ascending (insertByValue x l).
Proof.
  unfold ascending. induction l as [|y r IH]; intros Hs; cbn [insertByValue].
  - repeat constructor.
  - apply StronglySorted_inv in Hs. destruct Hs as [Hr Hy].
    destruct (Z.leb_spec (valueOf x) (valueOf y)) as [L|G].
    + constructor; [constructor; assumption|].
      constructor; [exact L|].
      eapply Forall_impl; [exact Hy|]. unfold notAfter. intros z Hz. lia.
    + constructor; [apply IH; assumption|].
      eapply Permutation_Forall; [symmetry; apply insertByValue_perm|].
      constructor; [unfold notAfter; lia|assumption].
Qed.

Lemma sortByValue_ascending l : ascending (sortByValue l).
Proof.
  induction l as [|x r IH]; cbn [sortByValue]; [constructor|].
  apply insertByValue_ascending, IH.
Qed.

Lemma length_sortByValue l : length (sortByValue l) = length l.
Proof. apply Permutation_length, sortByValue_perm. Qed.

(** The order does not look at a time of day that all dates share. *)
Lemma valueOf_retime t d : valueOf (retime t d) = dayNumber d * Calendar.msPerDay + t.
Proof. reflexivity. Qed.

Lemma insertByValue_retime t t0 x l :
  time x = t0 -> Forall (fun d => time d = t0) l ->
  insertByValue (retime t x) (map (retime t) l) = map (retime t) (insertByValue x l).
Proof.
  intros Hx Hl. induction Hl as [|y r Hy Hr IH]; [reflexivity|].
  cbn [map insertByValue]. rewrite !valueOf_retime. unfold valueOf. rewrite Hx, Hy.
  destruct (Z.leb_spec (dayNumber x * Calendar.msPerDay + t)
              (dayNumber y * Calendar.msPerDay + t));
    destruct (Z.leb_spec (dayNumber x * Calendar.msPerDay + t0)
              (dayNumber y * Calendar.msPerDay + t0)); try lia.
  - reflexivity.
  - cbn [map]. rewrite IH. reflexivity.
Qed.

Lemma sortByValue_retime t t0 l :
  Forall (fun d => time d = t0) l ->
  sortByValue (map (retime t) l) = map (retime t) (sortByValue l).
Proof.
  intros Hl. induction Hl as [|x r Hx Hr IH]; [reflexivity|].
  cbn [map sortByValue]. rewrite IH.
  apply (insertByValue_retime t t0); [assumption|].
  eapply Permutation_Forall; [symmetry; apply sortByValue_perm|assumption].
Qed.

End SortFacts.

(** ** Facts of the projections *)

Section IntervalFacts.
Import Dayjs.

(** [v * (12 / visitCount)] rounded down is the integer quotient. *)
Lemma Qfloor_interval (vc v : nat) :
  (1 <= vc)%nat ->
  Qfloor (0 + inject_Z (Z.of_nat v) * interval vc)%Q = (12 * Z.of_nat v) / Z.of_nat vc.
Proof.
  intros Hvc. unfold interval.
  destruct vc as [|k]; [lia|].
  assert (Z.of_nat (S k) = Z.pos (Pos.of_succ_nat k)) as -> by lia.
  set (p := Pos.of_succ_nat k).
  transitivity (Qfloor ((12 * Z.of_nat v) # p)); [|reflexivity].
  apply Qfloor_comp. unfold Qeq, Qdiv, Qinv, Qmult, Qplus, inject_Z. cbn [Qnum Qden].
  lia.
Qed.


Lemma month_index_bounds (vc v : nat) :
  (v < vc)%nat -> 0 <= (12 * Z.of_nat v) / Z.of_nat vc <= 11.
Proof.
  intros H. split.
  - apply Z.div_pos; lia.
  - apply Z.lt_succ_r. apply Z.div_lt_upper_bound; lia.
Qed.

End IntervalFacts.

Section SnapFacts.
Import Calendar Dayjs CalendarFacts DayjsFacts.

Variable holidays : list string.
Variable saturdayWorking : bool.

#[local] Abbreviation isWD := (isWorkingDay holidays saturdayWorking).
#[local] Abbreviation snap := (findNextWorkingDay holidays saturdayWorking).

Lemma addDays_add i j a : addDays i (addDays j a) = addDays (i + j) a.
Proof. unfold addDays. rewrite Nat.iter_add. reflexivity. Qed.

Lemma snap_is_later d : exists i, (i < 60)%nat /\ snap d = addDays i d.
Proof.
  destruct (snap_cases holidays saturdayWorking d) as [(i & Hi & E & _)|[E _]].
  - exists i. auto.
  - exists 0%nat. split; [lia|exact E].
Qed.

Lemma time_snap d : time (snap d) = time d.
Proof. destruct (snap_is_later d) as (i & _ & ->). apply time_addDays. Qed.

Lemma valid_snap d : valid d -> valid (snap d).
Proof. intros H. destruct (snap_is_later d) as (i & _ & ->). apply valid_addDays, H. Qed.

(** What the specification leaves open: the date handed back is a working
    day, or no working day lies within the sixty days from it. *)
Lemma snap_working_or_stuck d :
  isWD (snap d) = true
  \/ (forall i, (i < 60)%nat -> isWD (addDays i (snap d)) = false).
Proof.
  destruct (snap_cases holidays saturdayWorking d) as [(i & Hi & E & W & _)|[E N]].
  - left. rewrite E. exact W.
  - right. rewrite E. exact N.
Qed.

(** A later day is never moved before an earlier one. *)
Lemma snap_mono a b :
  valid a -> valid b -> time a = time b -> dayNumber a <= dayNumber b ->
  dayNumber (snap a) <= dayNumber (snap b).
Proof.
  intros Ha Hb Ht Hle.
  set (k := Z.to_nat (dayNumber b - dayNumber a)).
  assert (b = addDays k a) as Eb.
  { apply valid_same_day; [assumption|apply valid_addDays; assumption| |].
    - rewrite dayNumber_addDays by assumption. lia.
    - rewrite time_addDays. congruence. }
  destruct (snap_is_later b) as (j & Hj & Ej).
  assert (dayNumber (snap b) = dayNumber a + Z.of_nat k + Z.of_nat j) as Db.
  { rewrite Ej, Eb, addDays_add, dayNumber_addDays by assumption. lia. }
  destruct (snap_cases holidays saturdayWorking a) as [(i & Hi & E & W & Hmin)|[E N]].
  - rewrite E, dayNumber_addDays by assumption.
    destruct (Nat.le_gt_cases i (k + j)) as [L|G]; [lia|].
    exfalso.
    destruct (snap_cases holidays saturdayWorking b) as [(j' & Hj' & E' & W' & _)|[E' N']].
    + assert (j' = j) as ->.
      { rewrite E' in Ej. apply (f_equal dayNumber) in Ej.
        rewrite !dayNumber_addDays in Ej by assumption. lia. }
      rewrite Eb, addDays_add in W'.
      rewrite (Hmin (j + k)%nat) in W' by lia. discriminate.
    + specialize (N' (i - k)%nat ltac:(lia)).
      rewrite Eb, addDays_add in N'.
      replace (i - k + k)%nat with i in N' by lia. congruence.
  - rewrite E. lia.
Qed.

Lemma valueOf_le a b :
  time a = time b -> (valueOf a <= valueOf b <-> dayNumber a <= dayNumber b).
Proof. intros E. unfold valueOf, msPerDay. rewrite E. lia. Qed.

(** Snapping a list in ascending order keeps it in ascending order. *)
Lemma ascending_map_snap t l :
  Forall valid l -> Forall (fun d => time d = t) l ->
  ascending l -> ascending (map snap l).
Proof.
  unfold ascending. intros Hv Ht Hs.
  induction Hs as [|a l Hs IH Ha]; [constructor|].
  apply Forall_cons in Hv. destruct Hv as [Hva Hvl].
  apply Forall_cons in Ht. destruct Ht as [Hta Htl].
  cbn [map]. constructor; [apply IH; assumption|].
  apply List.Forall_forall. intros x Hx. apply in_map_iff in Hx.
  destruct Hx as (b & <- & Hb).
  rewrite List.Forall_forall in Ha, Hvl, Htl.
  unfold notAfter in *.
  apply valueOf_le; [rewrite !time_snap, Hta, (Htl b Hb); reflexivity|].
  apply snap_mono; [assumption|apply Hvl, Hb|rewrite Hta, (Htl b Hb); reflexivity|].
  apply valueOf_le; [rewrite Hta, (Htl b Hb); reflexivity|apply Ha, Hb].
Qed.

End SnapFacts.

Section ProjectionFacts.
Import Calendar Dayjs CalendarFacts DayjsFacts.

Variable now : Dayjs.t.
Variable targetYear : Z.
Variable holidays : list string.
Variable saturdayWorking : bool.

#[local] Abbreviation snap := (findNextWorkingDay holidays saturdayWorking).
#[local] Abbreviation candidate := (cycleCandidate targetYear).

Lemma cycleLoop_eq n : forall vc v d acc,
  cycleLoop targetYear n vc v d acc = acc ++ map (candidate vc d) (seq v n).
Proof.
  induction n as [|n IH]; intros vc v d acc.
  - cbn. rewrite app_nil_r. reflexivity.
  - cbn [cycleLoop seq map]. rewrite IH, <- app_assoc. reflexivity.
Qed.

Lemma cycleDates_eq vc d :
  cycleDates targetYear holidays saturdayWorking vc d
  = map snap (sortByValue (d :: map (candidate vc d) (seq 1 (vc - 1)))).
Proof.
  unfold cycleDates. destruct (Nat.ltb_spec 1 vc) as [L|G].
  - rewrite cycleLoop_eq. reflexivity.
  - replace (vc - 1)%nat with 0%nat by lia. reflexivity.
Qed.

Lemma length_cycleDates vc d :
  (1 <= vc)%nat ->
  length (cycleDates targetYear holidays saturdayWorking vc d) = vc.
Proof.
  intros H. rewrite cycleDates_eq, length_map, length_sortByValue.
  cbn [length]. rewrite length_map, length_seq. lia.
Qed.

Lemma time_set_month a m : time (set_month a m) = time a.
Proof. reflexivity. Qed.

Lemma valid_set_month a m : 1 <= date a -> valid (set_month a m).
Proof.
  intros H. unfold valid, set_month. cbn [year month date].
  pose proof (Z.mod_pos_bound m 12 ltac:(lia)).
  pose proof (daysInMonth_bounds (year a + m / 12) (m mod 12)). lia.
Qed.

Lemma valid_set_year a y : valid a -> valid (set_year a y).
Proof.
  intros [Hm Hd]. unfold valid, set_year. cbn [year month date].
  pose proof (daysInMonth_bounds y (month a)). lia.
Qed.

Lemma candidate_time vc d v : time (candidate vc d v) = time d.
Proof.
  unfold cycleCandidate.
  destruct (targetYear <? year (add_month d _)); reflexivity.
Qed.

Lemma candidate_valid vc d v : valid d -> valid (candidate vc d v).
Proof.
  intros Hd. unfold cycleCandidate.
  assert (valid (add_month d (interval vc * inject_Z (Z.of_nat v)))) as H
    by (apply valid_set_month, Hd).
  destruct (targetYear <? year (add_month d _)); [apply valid_set_year|]; exact H.
Qed.


Lemma birthdayLoop_eq n : forall vc bd v acc,
  birthdayLoop now targetYear holidays saturdayWorking n vc bd v acc
  = acc ++ map (birthdayVisit now targetYear holidays saturdayWorking vc bd) (seq v n).
Proof.
  induction n as [|n IH]; intros vc bd v acc.
  - cbn. rewrite app_nil_r. reflexivity.
  - cbn [birthdayLoop seq map]. rewrite IH, <- app_assoc. reflexivity.
Qed.

Lemma birthdayDates_eq vc bd :
  birthdayDates now targetYear holidays saturdayWorking vc bd
  = sortByValue (map (birthdayVisit now targetYear holidays saturdayWorking vc bd) (seq 0 vc)).
Proof. unfold birthdayDates. rewrite birthdayLoop_eq. reflexivity. Qed.

(** One birthday visit: the birth day of the month, cut to the length of
    the month, in month [floor(12 v / visitCount)] of the target year, at
    the time of day of [now], then snapped. *)
Lemma birthdayVisit_eq vc bd v :
  (v < vc)%nat -> 1 <= bd ->
  let m := (12 * Z.of_nat v) / Z.of_nat vc in
  birthdayVisit now targetYear holidays saturdayWorking vc bd v
  = snap (mk targetYear m (Z.min bd (daysInMonth targetYear m)) (time now)).
Proof.
  intros Hv Hbd m. unfold birthdayVisit.
  rewrite Qfloor_interval by lia. fold m.
  pose proof (month_index_bounds vc v Hv) as Hm. fold m in Hm.
  assert (set_month (set_year now targetYear) m
          = mk targetYear m
              (Z.min (date (set_year now targetYear)) (daysInMonth targetYear m))
              (time now)) as E.
  { unfold set_month. cbn [year time set_year].
    rewrite Z.div_small, Z.mod_small, Z.add_0_r by lia. reflexivity. }
  rewrite E. unfold daysInMonthOf. cbn [year month].
  pose proof (daysInMonth_bounds targetYear m) as B.
  f_equal.
  destruct (Z.ltb_spec (daysInMonth targetYear m) bd) as [L|G].
  - rewrite set_date_in by (cbn [year month]; lia).
    cbn [year month time]. rewrite Z.min_r by lia. reflexivity.
  - rewrite set_date_in by (cbn [year month]; lia).
    cbn [year month time]. rewrite Z.min_l by lia. reflexivity.
Qed.

End ProjectionFacts.

(** ** Facts of the rows *)

Section RowFacts.

Lemma stringOfZ_inj a b : Dayjs.stringOfZ a = Dayjs.stringOfZ b -> a = b.
Proof.
  unfold Dayjs.stringOfZ. intros E.
  assert (forall z, NilZero.int_of_string (NilZero.string_of_int (Z.to_int z))
                    = Some (Z.to_int z)) as R.
  { intros z. apply NilZero.isi; destruct z; cbn; try discriminate;
      intros H; injection H as H; apply (DecimalPos.Unsigned.to_uint_nonnil _ H). }
  apply DecimalZ.to_int_inj.
  pose proof (R a) as Ra. rewrite E, R in Ra. congruence.
Qed.

Lemma string_app_inv_tail (s1 s2 t : string) :
  (s1 ++ t)%string = (s2 ++ t)%string -> s1 = s2.
Proof.
  intros E.
  apply (f_equal list_ascii_of_string) in E.
  assert (forall a b, list_ascii_of_string (a ++ b)
                      = (list_ascii_of_string a ++ list_ascii_of_string b)%list) as A.
  { intros a b. induction a as [|c a IH]; simpl; [reflexivity|]. rewrite IH. reflexivity. }
  rewrite !A in E. apply app_inv_tail in E.
  rewrite <- (string_of_list_ascii_of_string s1), <- (string_of_list_ascii_of_string s2).
  congruence.
Qed.

Lemma visitKey_inj a b : visitKey a = visitKey b -> a = b.
Proof.
  unfold visitKey. intros E. apply string_app_inv_tail, stringOfZ_inj in E. lia.
Qed.

Lemma visitKey_1 : visitKey 1 = "1-tashrif sanasi"%string.
Proof. reflexivity. Qed.

Lemma length_visitKeysOf vc : length (visitKeysOf vc) = vc.
Proof.
  unfold visitKeysOf. destruct (Nat.eqb_spec vc 1) as [->|N]; [reflexivity|].
  rewrite length_map, length_seq. reflexivity.
Qed.

Lemma NoDup_visitKeysOf vc : NoDup (visitKeysOf vc).
Proof.
  unfold visitKeysOf. destruct (vc =? 1)%nat.
  - apply NoDup_singleton.
  - apply NoDup_fmap_2; [intros a b; apply visitKey_inj|apply NoDup_seq].
Qed.

Lemma NoDup_not_later (keys : list string) i k :
  NoDup keys -> keys !! i = Some k -> k ∉ drop (S i) keys.
Proof.
  intros Hn Hi Hin. apply list_elem_of_lookup in Hin. destruct Hin as [j Hj].
  rewrite lookup_drop in Hj.
  pose proof (NoDup_lookup _ _ _ _ Hn Hi Hj). lia.
Qed.

(** Columns that are not written keep their cell. *)
Lemma assignDates_other vc keys k ds : forall idx (row : Row),
  (idx + length ds <= length keys)%nat ->
  k ∉ drop idx keys ->
  assignDates vc keys idx ds row !! k = row !! k.
Proof.
  induction ds as [|d ds IH]; intros idx row Hl Hk; [reflexivity|].
  cbn [assignDates length] in *.
  destruct (keys !! idx) as [k0|] eqn:E; [|apply lookup_ge_None in E; lia].
  rewrite (drop_S _ _ _ E) in Hk. apply not_elem_of_cons in Hk. destruct Hk as [Hne Hk].
  rewrite IH by (assumption || lia). cbn [from_option id].
  destruct (idx <? vc)%nat; [apply lookup_insert_ne; congruence|reflexivity].
Qed.

(** Column number [idx + j] holds date number [j]. *)
Lemma assignDates_at vc keys : forall ds idx (row : Row) j d k,
  NoDup keys ->
  (idx + length ds <= length keys)%nat -> (idx + length ds <= vc)%nat ->
  ds !! j = Some d -> keys !! (idx + j)%nat = Some k ->
  assignDates vc keys idx ds row !! k = Some (VDate d).
Proof.
  induction ds as [|d0 ds IH]; intros idx row j d k Hn Hl Hv Hd Hk; [discriminate|].
  cbn [assignDates length] in *.
  destruct j as [|j].
  - injection Hd as ->. rewrite Nat.add_0_r in Hk. rewrite Hk. cbn [from_option id].
    destruct (Nat.ltb_spec idx vc); [|lia].
    rewrite assignDates_other.
    + apply lookup_insert_eq.
    + lia.
    + apply NoDup_not_later with (i := idx); assumption.
  - apply (IH (S idx) _ j d k); try assumption; try lia.
    rewrite <- Hk. f_equal. lia.
Qed.

(** Reading the visit columns back gives the dates that were written. *)
Lemma visitDatesOf_assignDates vc ds (row : Row) :
  length ds = vc ->
  visitDatesOf vc (assignDates vc (visitKeysOf vc) 0 ds row) = map VDate ds.
Proof.
  intros Hl. unfold visitDatesOf. apply list_eq. intros i.
  change (map ?f ?l) with (f <$> l). rewrite !list_lookup_fmap.
  pose proof (length_visitKeysOf vc) as Hk.
  destruct (visitKeysOf vc !! i) as [k|] eqn:Ek.
  - pose proof (lookup_lt_Some _ _ _ Ek) as Hi.
    destruct (ds !! i) as [d|] eqn:Ed; [|apply lookup_ge_None in Ed; lia].
    cbn. unfold getProp.
    rewrite (assignDates_at vc (visitKeysOf vc) ds 0 row i d k);
      [reflexivity|apply NoDup_visitKeysOf|cbn; lia|cbn; lia|assumption|assumption].
  - apply lookup_ge_None in Ek.
    destruct (ds !! i) as [d|] eqn:Ed; [apply lookup_lt_Some in Ed; lia|reflexivity].
Qed.

End RowFacts.

(** ** Facts of the assigned rows *)

Section AssignedFacts.
Import Calendar Dayjs CalendarFacts DayjsFacts.

Variable now : Dayjs.t.
Variable cols : Columns.
Variable config : Config.
Hypothesis now_time : validTime now.

#[local] Abbreviation isWD := (isWorkingDay (holidays config) (saturdayWorking config)).
#[local] Abbreviation workingDaysOf m :=
  (getWorkingDays now (holidays config) (saturdayWorking config)
     (targetYear config) (Z.of_nat m)).

Lemma in_monthDays y m t d n : forall k,
  In d (monthDays y m k t n) -> exists j, k <= j < k + Z.of_nat n /\ d = mk y m j t.
Proof.
  induction n as [|n IH]; intros k H; [contradiction|].
  cbn [monthDays] in H. destruct H as [<-|H].
  - exists k. split; [lia|reflexivity].
  - apply IH in H. destruct H as (j & Hj & ->). exists j. split; [lia|reflexivity].
Qed.

(** The working days of a month of the target year. *)
Lemma getWorkingDays_month (y : Z) (m : nat) :
  (m < 12)%nat ->
  getWorkingDays now (holidays config) (saturdayWorking config) y (Z.of_nat m)
  = List.filter isWD
      (monthDays y (Z.of_nat m) 1 (time now) (Z.to_nat (daysInMonth y (Z.of_nat m)))).
Proof.
  intros Hm. unfold getWorkingDays.
  rewrite getWorkingDays_eq by exact now_time.
  rewrite Z.div_small, Z.mod_small, Z.add_0_r by lia. reflexivity.
Qed.

(** The days [getWorkingDays] returns are working days of that month of
    the target year, at the time of day of [now]. *)
Lemma workingDay_facts (m : nat) d :
  (m < 12)%nat -> In d (workingDaysOf m) ->
  valid d /\ time d = time now /\ year d = targetYear config
  /\ month d = Z.of_nat m /\ isWD d = true.
Proof.
  intros Hm Hin. rewrite getWorkingDays_month in Hin by assumption.
  apply filter_In in Hin. destruct Hin as [Hin W].
  apply in_monthDays in Hin. destruct Hin as (j & Hj & ->).
  pose proof (daysInMonth_bounds (targetYear config) (Z.of_nat m)).
  repeat split; cbn [year month date time]; try lia. exact W.
Qed.

#[local] Abbreviation placed vc pool row :=
  (exists p d id (m : nat),
      (m < 12)%nat /\ In p pool /\ In d (workingDaysOf m)
      /\ row = placedRow cols config vc p d id).

Lemma in_placedRows vc ps days row : forall id,
  In row (placedRows cols config vc ps days id) ->
  exists p d id', In p ps /\ In d days /\ row = placedRow cols config vc p d id'.
Proof.
  revert days. induction ps as [|p ps IH]; intros [|d days] id H; try contradiction.
  cbn [placedRows] in H. destruct H as [<-|H].
  - exists p, d, id. repeat split; left; reflexivity.
  - apply IH in H. destruct H as (p' & d' & id' & Hp & Hd & ->).
    exists p', d', id'. repeat split; [right|right]; assumption.
Qed.

Lemma In_take {A} (x : A) n l : In x (take n l) -> In x l.
Proof. rewrite <- !list_elem_of_In. apply subseteq_take. Qed.

Lemma In_drop {A} (x : A) n l : In x (drop n l) -> In x l.
Proof. rewrite <- !list_elem_of_In. apply subseteq_drop. Qed.

Lemma monthStep_rows vc countsToUse pool rows pIndex (m : nat) row :
  (m < 12)%nat ->
  In row (fst (monthStep now cols config vc countsToUse pool (rows, pIndex) m)) ->
  In row rows \/ placed vc pool row.
Proof.
  intros Hm. rewrite monthStep_eq.
  destruct (_ || _); [left; assumption|]. cbn [fst].
  intros H. apply in_app_or in H. destruct H as [H|H]; [left; exact H|right].
  apply in_placedRows in H. destruct H as (p & d & id & Hp & Hd & ->).
  exists p, d, id, m.
  split; [assumption|]. split; [eapply In_drop, In_take, Hp|].
  split; [eapply in_dayPlan, Hd|reflexivity].
Qed.

Lemma fold_monthStep_rows vc countsToUse pool ms : forall st row,
  Forall (fun m => (m < 12)%nat) ms ->
  In row (fst (fold_left (monthStep now cols config vc countsToUse pool) ms st)) ->
  In row (fst st) \/ placed vc pool row.
Proof.
  induction ms as [|m ms IH]; intros [rows pIndex] row Hms H; [left; exact H|].
  apply Forall_cons in Hms. destruct Hms as [Hm Hms].
  cbn [fold_left] in H. apply IH in H; [|assumption].
  destruct H as [H|H]; [|right; exact H].
  destruct (monthStep now cols config vc countsToUse pool (rows, pIndex) m) eqn:E.
  apply (monthStep_rows vc countsToUse pool rows pIndex m row Hm). rewrite E. exact H.
Qed.

(** Every row of the distribution branch is a patient of the pool placed
    on a working day of the target year. *)
Lemma logicB_rows vc processAll range pool row :
  In row (fst (logicB now cols config vc processAll range pool)) ->
  placed vc pool row.
Proof.
  unfold logicB. intros H. apply fold_monthStep_rows in H.
  - destruct H as [[]|H]. exact H.
  - apply Forall_forall. intros m Hm. apply list_elem_of_In, in_seq in Hm. lia.
Qed.

(** The distribution branch has consumed as many patients as it has
    produced rows. *)
Lemma monthStep_count vc countsToUse pool rows pIndex (m : nat) :
  length rows = pIndex -> (pIndex <= length pool)%nat ->
  let st := monthStep now cols config vc countsToUse pool (rows, pIndex) m in
  length (fst st) = snd st /\ (snd st <= length pool)%nat.
Proof.
  intros Hl Hp. rewrite monthStep_eq.
  destruct (_ || _) eqn:E; [cbn; lia|]. cbn [fst snd].
  apply orb_false_iff in E. destruct E as [_ E]. apply Nat.eqb_neq in E.
  set (p4m := take _ (drop pIndex pool)).
  assert (length p4m <= length pool - pIndex)%nat as Hp4.
  { unfold p4m. rewrite length_take, length_drop. lia. }
  rewrite length_app, length_placedRows.
  - lia.
  - rewrite length_dayPlan_all by lia. lia.
Qed.

Lemma logicB_count vc processAll range pool :
  let st := logicB now cols config vc processAll range pool in
  length (fst st) = snd st /\ (snd st <= length pool)%nat.
Proof.
  unfold logicB.
  generalize (if processAll then autoCounts (Z.of_nat (length pool)) else counts range).
  intros cs.
  assert (forall ms st, length (fst st) = snd st -> (snd st <= length pool)%nat ->
            let st' := fold_left (monthStep now cols config vc cs pool) ms st in
            length (fst st') = snd st' /\ (snd st' <= length pool)%nat) as G.
  { induction ms as [|m ms IH]; intros [rows pIndex] Hl Hp; [cbn in *; auto|].
    cbn [fold_left]. cbn [fst snd] in Hl, Hp.
    pose proof (monthStep_count vc cs pool rows pIndex m Hl Hp) as [H1 H2].
    apply IH; assumption. }
  apply G; cbn; lia.
Qed.

End AssignedFacts.

(** ** Small facts *)

Lemma In_hd {A} (d : A) (l : list A) : (0 < length l)%nat -> In (hd d l) l.
Proof. destruct l; cbn; [lia|]. intros _. left. reflexivity. Qed.

Lemma visitCountOf_pos range : (1 <= visitCountOf range)%nat.
Proof. unfold visitCountOf. destruct (visitCountRaw range); lia. Qed.


(** ** Facts of the strings *)

Section StringFacts.
Import JsString.

Lemma append_cons c (a b : string) : (String c a ++ b)%string = String c (a ++ b).
Proof. reflexivity. Qed.






End StringFacts.

(** ** Facts of the cohort loop *)

Section RunFacts.

Variable now : Dayjs.t.
Variable cols : Columns.
Variable config : Config.
Variable rowsData : list Patient.

#[local] Abbreviation pool := (poolOf cols rowsData).
#[local] Abbreviation step := (processRange now cols config rowsData).

Lemma processAllOf_false range :
  processAllOf range = false <-> visitCountOf range = 1%nat /\ useBirthday range = false.
Proof.
  unfold processAllOf. pose proof (visitCountOf_pos range).
  destruct (useBirthday range); [intuition discriminate|].
  destruct (Nat.ltb_spec 1 (visitCountOf range)); intuition (discriminate || lia).
Qed.

(** The three ways a cohort rule leaves the loop body. *)
Lemma processRange_cases range st :
  (length (pool range) = 0%nat /\
   step range st =
     inr {| allRangesRows := allRangesRows st;
            warnings := warnings st ++
              [NoPopulation (startYear range) (endYear range)
                 (if String.eqb (gender range) "" then "all"%string else gender range)] |})
  \/ (overCapacity cols rowsData range /\
      step range st =
        inl (CapacityExceeded (startYear range) (endYear range)
               (totalPlannedOf range) (Z.of_nat (length (pool range)))))
  \/ ((0 < length (pool range))%nat /\ ~ overCapacity cols rowsData range /\
      exists ws,
        step range st =
          inr {| allRangesRows := allRangesRows st ++ [cohortGroup now cols config rowsData range];
                 warnings := warnings st ++ ws |}
        /\ ws = if negb (processAllOf range)
                     && (totalPlannedOf range <? Z.of_nat (length (pool range)))
                then [Shortfall (startYear range) (endYear range)
                        (totalPlannedOf range) (Z.of_nat (length (pool range)))]
                else []).
Proof.
  unfold processRange. fold (pool range).
  destruct (Z.eqb_spec (Z.of_nat (length (pool range))) 0) as [E0|N0].
  - left. split; [lia|reflexivity].
  - right.
    destruct (processAllOf range) eqn:Ea; cbn [negb andb].
    + right. split; [lia|]. split.
      { intros (Hv & Hb & _). assert (processAllOf range = false) by (apply processAllOf_false; auto).
        congruence. }
      exists []. split; [|reflexivity]. rewrite app_nil_r.
      unfold cohortGroup, unplannedRowsOf, assignedRowsOf. fold (pool range).
      destruct (assignCohort now cols config range (pool range)) as [assigned pIndex].
      reflexivity.
    + apply processAllOf_false in Ea.
      destruct (Z.ltb_spec (Z.of_nat (length (pool range))) (totalPlannedOf range)) as [L|G].
      * left. split; [|reflexivity]. unfold overCapacity. fold (pool range).
        destruct Ea. repeat split; try assumption; lia.
      * right. split; [lia|]. split.
        { intros (_ & _ & H). fold (pool range) in H. lia. }
        eexists. split; [|reflexivity].
        unfold cohortGroup, unplannedRowsOf, assignedRowsOf. fold (pool range).
        destruct (assignCohort now cols config range (pool range)) as [assigned pIndex].
        cbn [fst snd].
        destruct (totalPlannedOf range <? Z.of_nat (length (pool range)));
          rewrite ?app_nil_r; reflexivity.
Qed.


Lemma processRanges_ok rs : forall st st',
  processRanges now cols config rowsData rs st = inr st' ->
  allRangesRows st' =
    allRangesRows st ++
    map (cohortGroup now cols config rowsData)
      (List.filter (fun r => negb (length (pool r) =? 0)%nat) rs).
Proof.
  induction rs as [|r rs IH]; intros st st' H; cbn [processRanges] in H.
  - injection H as <-. cbn. rewrite app_nil_r. reflexivity.
  - cbn [List.filter].
    destruct (processRange_cases r st) as [(Hl & E)|[(Ho & E)|(Hl & Hn & ws & E & _)]];
      rewrite E in H; [|discriminate|].
    + apply IH in H. rewrite H. rewrite Hl. reflexivity.
    + apply IH in H. rewrite H. cbn [allRangesRows].
      destruct (Nat.eqb_spec (length (pool r)) 0); [lia|].
      cbn [negb map]. rewrite <- app_assoc. reflexivity.
Qed.

Lemma length_unplannedLoop ps : forall id acc,
  length (unplannedLoop cols ps id acc) = (length acc + length ps)%nat.
Proof.
  induction ps as [|p ps IH]; intros id acc; cbn [unplannedLoop length]; [lia|].
  rewrite IH, length_app. cbn [length]. lia.
Qed.

Lemma assignCohort_count range ps :
  let st := assignCohort now cols config range ps in
  length (fst st) = snd st /\ (snd st <= length ps)%nat.
Proof.
  unfold assignCohort. destruct (useBirthday range).
  - unfold logicA. cbn [fst snd]. rewrite length_map. lia.
  - apply logicB_count.
Qed.

(** When at least one row was assigned, the assigned and the unplanned
    rows together are as many as the pool. *)
Lemma cohort_rows_count range :
  (0 < length (assignedRowsOf now cols config rowsData range))%nat ->
  (length (assignedRowsOf now cols config rowsData range)
   + length (unplannedRowsOf now cols config rowsData range))%nat
  = length (pool range).
Proof.
  intros Hpos. unfold unplannedRowsOf, unplannedRows.
  pose proof (assignCohort_count range (pool range)) as [Hl Hp].
  fold (assignedRowsOf now cols config rowsData range) in Hl.
  destruct (Nat.ltb_spec 0 (length (assignedRowsOf now cols config rowsData range)));
    [|lia].
  destruct (Nat.ltb_spec (snd (assignCohort now cols config range (pool range)))
              (length (pool range))).
  - rewrite length_unplannedLoop, length_drop. cbn [length]. lia.
  - cbn [length]. lia.
Qed.

End RunFacts.

(** ** Facts of the consolidation *)

Section ConsolidationFacts.

Variable cols : Columns.

Lemma bumpId_iter idKey n id :
  idColKey cols = Some idKey -> Nat.iter n (bumpId cols) id = id + Z.of_nat n.
Proof.
  intros E. induction n as [|n IH]; [cbn; lia|].
  rewrite Nat.iter_succ, IH. unfold bumpId. rewrite E. lia.
Qed.

Lemma consolidateRows_eq mx vc rs : forall id acc,
  consolidateRows cols mx vc rs (id, acc)
  = (Nat.iter (length rs) (bumpId cols) id,
     acc ++ numberedRows cols mx (map (pair vc) rs) id).
Proof.
  induction rs as [|r rs IH]; intros id acc.
  - cbn. rewrite app_nil_r. reflexivity.
  - cbn [consolidateRows map numberedRows length]. rewrite IH.
    rewrite Nat.iter_succ_r, <- app_assoc. reflexivity.
Qed.

Lemma numberedRows_app mx s1 s2 id :
  numberedRows cols mx (s1 ++ s2) id
  = numberedRows cols mx s1 id
    ++ numberedRows cols mx s2 (Nat.iter (length s1) (bumpId cols) id).
Proof.
  revert id. induction s1 as [|[vc r] s1 IH]; intros id; [reflexivity|].
  cbn [app numberedRows length]. rewrite IH, Nat.iter_succ_r. reflexivity.
Qed.

Lemma consolidateGroups_eq mx groups : forall id acc,
  consolidateGroups cols mx groups (id, acc)
  = (Nat.iter (length (taggedRows groups)) (bumpId cols) id,
     acc ++ numberedRows cols mx (taggedRows groups) id).
Proof.
  unfold taggedRows.
  induction groups as [|g groups IH]; intros id acc.
  - cbn. rewrite app_nil_r. reflexivity.
  - cbn [consolidateGroups map concat]. rewrite consolidateRows_eq, IH.
    rewrite numberedRows_app, length_app, length_map, <- app_assoc.
    rewrite (Nat.add_comm (length (rows g))), Nat.iter_add.
    reflexivity.
Qed.

Lemma consolidate_eq mx groups :
  consolidate cols mx groups = numberedRows cols mx (taggedRows groups) 1.
Proof. unfold consolidate. rewrite consolidateGroups_eq. reflexivity. Qed.

Lemma length_numberedRows mx src id : length (numberedRows cols mx src id) = length src.
Proof.
  revert id. induction src as [|[vc r] src IH]; intros id; [reflexivity|].
  cbn [numberedRows length]. rewrite IH. reflexivity.
Qed.

Lemma lookup_numberedRows mx src : forall id i vc r,
  src !! i = Some (vc, r) ->
  numberedRows cols mx src id !! i
  = Some (normalizeRow cols mx vc (Nat.iter i (bumpId cols) id) r).
Proof.
  induction src as [|[vc0 r0] src IH]; intros id i vc r H; [discriminate|].
  destruct i as [|i]; cbn [numberedRows].
  - injection H as -> ->. reflexivity.
  - cbn in H. rewrite lookup_cons. rewrite (IH _ _ _ _ H), Nat.iter_succ_r. reflexivity.
Qed.

(** The consolidated row, column by column. *)
Lemma normalizeRow_id idKey mx vc id (r : Row) :
  idColKey cols = Some idKey -> normalizeRow cols mx vc id r !! idKey = Some (VNum id).
Proof. intros E. unfold normalizeRow, setId. rewrite E. apply lookup_insert_eq. Qed.

Lemma normalizeRow_renamed idKey mx vc id (r : Row) key :
  idColKey cols = Some idKey -> (vc =? 1)%nat && (1 <? mx)%nat = true -> key <> idKey ->
  normalizeRow cols mx vc id r !! key
  = if String.eqb key "Tashrif sanasi" then None
    else if String.eqb key "1-tashrif sanasi" then Some (getProp r "Tashrif sanasi")
    else r !! key.
Proof.
  intros E Hc Hk. unfold normalizeRow, setId. rewrite E, Hc.
  rewrite lookup_insert_ne by congruence.
  destruct (String.eqb_spec key "Tashrif sanasi") as [->|N1].
  - apply lookup_delete_eq.
  - rewrite lookup_delete_ne by congruence.
    destruct (String.eqb_spec key "1-tashrif sanasi") as [->|N2].
    + apply lookup_insert_eq.
    + apply lookup_insert_ne. congruence.
Qed.

Lemma normalizeRow_kept idKey mx vc id (r : Row) key :
  idColKey cols = Some idKey -> (vc =? 1)%nat && (1 <? mx)%nat = false -> key <> idKey ->
  normalizeRow cols mx vc id r !! key = r !! key.
Proof.
  intros E Hc Hk. unfold normalizeRow, setId. rewrite E, Hc.
  apply lookup_insert_ne. congruence.
Qed.

(** [maxVisitsGlobal] is the largest visit count of the rules, 1 at least. *)
Lemma maxVisitsGlobalOf_spec rs :
  Forall (fun r => (visitCountOf r <= maxVisitsGlobalOf rs)%nat) rs
  /\ (1 <= maxVisitsGlobalOf rs)%nat
  /\ (maxVisitsGlobalOf rs = 1%nat
      \/ Exists (fun r => visitCountOf r = maxVisitsGlobalOf rs) rs).
Proof.
  unfold maxVisitsGlobalOf.
  assert (forall rs m0,
    let m := fold_left (fun mx r => if (mx <? visitCountOf r)%nat
                                     then visitCountOf r else mx) rs m0 in
    Forall (fun r => (visitCountOf r <= m)%nat) rs /\ (m0 <= m)%nat
    /\ (m = m0 \/ Exists (fun r => visitCountOf r = m) rs)) as G.
  { clear rs. induction rs as [|r rs IH]; intros m0; cbn [fold_left].
    - split; [constructor|]. split; [lia|left; reflexivity].
    - specialize (IH (if (m0 <? visitCountOf r)%nat then visitCountOf r else m0)).
      cbn zeta in IH. destruct IH as (Hall & Hle & Hex).
      destruct (Nat.ltb_spec m0 (visitCountOf r)).
      + split; [constructor; [lia|exact Hall]|]. split; [lia|].
        destruct Hex as [->|Hex]; right; [left; reflexivity|right; exact Hex].
      + split; [constructor; [lia|exact Hall]|]. split; [lia|].
        destruct Hex as [E|Hex]; [left; exact E|right; right; exact Hex]. }
  destruct (G rs 1%nat) as (H1 & H2 & H3). auto.
Qed.

End ConsolidationFacts.

(** ** Where the cells of a row come from *)

Section OriginFacts.

Variable now : Dayjs.t.
Variable cols : Columns.
Variable config : Config.
Variable rowsData : list Patient.

Lemma length_string_app (a b : string) :
  String.length (a ++ b) = (String.length a + String.length b)%nat.
Proof. induction a as [|c a IH]; [reflexivity|]. rewrite append_cons. cbn. rewrite IH. reflexivity. Qed.

Lemma visitKey_long v : (15 <= String.length (visitKey v))%nat.
Proof. unfold visitKey. rewrite length_string_app. cbn. lia. Qed.

Lemma visitKey_not_single v : visitKey v <> "Tashrif sanasi"%string.
Proof. intros E. pose proof (visitKey_long v) as H. rewrite E in H. cbn in H. lia. Qed.

Lemma visitKey_not_flag v : visitKey v <> "_isUnplanned"%string.
Proof. intros E. pose proof (visitKey_long v) as H. rewrite E in H. cbn in H. lia. Qed.

Lemma visitKey_not_birth v : visitKey v <> "_birthDate"%string.
Proof. intros E. pose proof (visitKey_long v) as H. rewrite E in H. cbn in H. lia. Qed.

Lemma baseRow_lookup p key :
  birthKey cols <> Some key -> key <> "_birthDate"%string ->
  baseRow cols p !! key = fields p !! key.
Proof.
  intros Hb Hk. unfold baseRow. rewrite lookup_delete_ne by congruence.
  destruct (birthKey cols) as [k|]; [|reflexivity].
  destruct (_birthDate p); [|reflexivity].
  apply lookup_insert_ne. congruence.
Qed.

Lemma setId_lookup_ne id (row : Row) key :
  idColKey cols <> Some key -> setId cols id row !! key = row !! key.
Proof.
  intros Hk. unfold setId. destruct (idColKey cols) as [k|]; [|reflexivity].
  apply lookup_insert_ne. congruence.
Qed.

Lemma in_unplannedLoop ps row : forall id acc,
  In row (unplannedLoop cols ps id acc) ->
  In row acc
  \/ exists p id', In p ps
       /\ row = <[ "_isUnplanned"%string := VBool true ]> (setId cols id' (baseRow cols p)).
Proof.
  induction ps as [|p ps IH]; intros id acc H; [left; exact H|].
  cbn [unplannedLoop] in H. apply IH in H. destruct H as [H|(p' & id' & Hp & ->)].
  - apply in_app_or in H. destruct H as [H|[<-|[]]]; [left; exact H|].
    right. exists p, id. split; [left; reflexivity|reflexivity].
  - right. exists p', id'. split; [right; exact Hp|reflexivity].
Qed.

(** Apart from the visit columns, the identifier, the birth-date column
    and the unplanned flag, a row of a cohort carries the cells of one
    person of the sheet. *)
Lemma cohort_row_fields range row key :
  In row (rows (cohortGroup now cols config rowsData range)) ->
  ~ In key (visitKeysOf (visitCountOf range)) ->
  key <> "_isUnplanned"%string -> key <> "_birthDate"%string ->
  idColKey cols <> Some key -> birthKey cols <> Some key ->
  exists p, In p rowsData /\ row !! key = fields p !! key.
Proof.
  intros Hin Hvk Hu Hbd Hid Hb.
  set (vc := visitCountOf range) in *.
  assert (forall p, In p (poolOf cols rowsData range) -> In p rowsData) as Hsub.
  { intros p Hp. unfold poolOf, rangePatients in Hp. apply filter_In in Hp. apply Hp. }
  assert (forall ds base, length ds = vc ->
            assignDates vc (visitKeysOf vc) 0 ds base !! key = base !! key) as Hassign.
  { intros ds base Hl. apply assignDates_other.
    - rewrite length_visitKeysOf. cbn. lia.
    - rewrite drop_0, list_elem_of_In. exact Hvk. }
  cbn [rows cohortGroup] in Hin. apply in_app_or in Hin. destruct Hin as [Hin|Hin].
  - unfold assignedRowsOf, assignCohort in Hin. fold vc in Hin.
    destruct (useBirthday range).
    + unfold logicA in Hin. cbn [fst] in Hin. apply in_map_iff in Hin.
      destruct Hin as (p & <- & Hp). exists p. split; [apply Hsub, Hp|].
      unfold birthdayRow. rewrite Hassign.
      * apply baseRow_lookup; assumption.
      * rewrite birthdayDates_eq, length_sortByValue, length_map, length_seq. reflexivity.
    + apply logicB_rows in Hin. destruct Hin as (p & d & id & m & _ & Hp & _ & ->).
      exists p. split; [apply Hsub, Hp|].
      unfold placedRow. rewrite Hassign.
      * rewrite setId_lookup_ne by assumption. apply baseRow_lookup; assumption.
      * apply length_cycleDates, visitCountOf_pos.
  - unfold unplannedRowsOf, unplannedRows in Hin.
    destruct (0 <? _)%nat; [|contradiction].
    destruct (_ <? _)%nat; [|contradiction].
    apply in_unplannedLoop in Hin. destruct Hin as [[]|(p & id & Hp & ->)].
    exists p. split; [apply Hsub; eapply In_drop, Hp|].
    rewrite lookup_insert_ne by congruence.
    rewrite setId_lookup_ne by assumption. apply baseRow_lookup; assumption.
Qed.

Lemma in_taggedRows groups vc r :
  In (vc, r) (taggedRows groups) ->
  exists g, In g groups /\ vc = groupVisitCount g /\ In r (rows g).
Proof.
  unfold taggedRows. intros H. apply in_concat in H. destruct H as (l & Hl & Hr).
  apply in_map_iff in Hl. destruct Hl as (g & <- & Hg).
  apply in_map_iff in Hr. destruct Hr as (r' & E & Hr'). injection E as <- <-.
  exists g. auto.
Qed.

End OriginFacts.

Lemma succeeded_outputOf r : succeeded r = true -> r = inr (outputOf r).
Proof. destruct r; [discriminate|reflexivity]. Qed.


(** ** The time of day does not change the day *)

Section RetimeFacts.
Import Calendar Dayjs CalendarFacts DayjsFacts.

Variable targetYear : Z.
Variable holidays : list string.
Variable saturdayWorking : bool.

#[local] Abbreviation isWD := (isWorkingDay holidays saturdayWorking).
#[local] Abbreviation snap := (findNextWorkingDay holidays saturdayWorking).

Lemma time_retime t d : time (retime t d) = t.
Proof. reflexivity. Qed.

Lemma startOf_day_retime t d : startOf_day (retime t d) = startOf_day d.
Proof. reflexivity. Qed.

Lemma retime_retime t t' d : retime t (retime t' d) = retime t d.
Proof. reflexivity. Qed.

Lemma retime_time d : retime (time d) d = d.
Proof. destruct d; reflexivity. Qed.

(** [.date(x)] reads the year, the month and the time of its date. *)
Lemma set_date_retime a b x :
  year a = year b -> month a = month b ->
  set_date a x = retime (time a) (set_date b x).
Proof.
  intros Ey Em. unfold set_date. rewrite Ey, Em.
  destruct (normDate _ _ _ _) as [[y m] d]. reflexivity.
Qed.

Lemma add_day_retime t d : add_day (retime t d) = retime t (add_day d).
Proof. unfold add_day. cbn [date retime]. apply set_date_retime; reflexivity. Qed.

Lemma isWorkingDay_retime t d : isWD (retime t d) = isWD d.
Proof. apply isWorkingDay_civil. reflexivity. Qed.

Lemma findLoop_retime t n : forall d,
  findNextWorkingDay_loop holidays saturdayWorking n (retime t d)
  = option_map (retime t) (findNextWorkingDay_loop holidays saturdayWorking n d).
Proof.
  induction n as [|n IH]; intros d; [reflexivity|].
  cbn [findNextWorkingDay_loop]. rewrite isWorkingDay_retime.
  destruct (isWD d); [reflexivity|]. rewrite add_day_retime. apply IH.
Qed.

Lemma snap_retime t d : snap (retime t d) = retime t (snap d).
Proof.
  unfold findNextWorkingDay. rewrite findLoop_retime.
  destruct (findNextWorkingDay_loop holidays saturdayWorking 60 d); reflexivity.
Qed.

Lemma candidate_retime t vc d v :
  cycleCandidate targetYear vc (retime t d) v = retime t (cycleCandidate targetYear vc d v).
Proof.
  unfold cycleCandidate, add_month, set_month, subtract_year, set_year.
  cbn [year month date time retime].
  destruct (targetYear <? _); reflexivity.
Qed.

Lemma cycleDates_retime t vc d :
  cycleDates targetYear holidays saturdayWorking vc (retime t d)
  = map (retime t) (cycleDates targetYear holidays saturdayWorking vc d).
Proof.
  rewrite !cycleDates_eq.
  assert (retime t d :: map (cycleCandidate targetYear vc (retime t d)) (seq 1 (vc - 1))
          = map (retime t) (d :: map (cycleCandidate targetYear vc d) (seq 1 (vc - 1)))) as ->.
  { cbn [map]. f_equal. rewrite map_map. apply map_ext. intros v. apply candidate_retime. }
  rewrite (sortByValue_retime t (time d)).
  - rewrite !map_map. apply map_ext. intros x. apply snap_retime.
  - constructor; [reflexivity|]. apply List.Forall_forall. intros x Hx.
    apply in_map_iff in Hx. destruct Hx as (v & <- & _). apply candidate_time.
Qed.

Lemma map_startOf_day_retime t l :
  map startOf_day (map (retime t) l) = map startOf_day l.
Proof. rewrite map_map. apply map_ext. intros x. reflexivity. Qed.

Lemma monthDays_retime y m t n : forall k,
  monthDays y m k t n = map (retime t) (monthDays y m k 0 n).
Proof.
  induction n as [|n IH]; intros k; [reflexivity|].
  cbn [monthDays map]. rewrite IH. reflexivity.
Qed.

Lemma filter_working_retime t l :
  List.filter isWD (map (retime t) l) = map (retime t) (List.filter isWD l).
Proof.
  induction l as [|x l IH]; [reflexivity|].
  cbn [map List.filter]. rewrite isWorkingDay_retime.
  destruct (isWD x); cbn [map]; rewrite IH; reflexivity.
Qed.

Lemma dayPlan_map (f : Dayjs.t -> Dayjs.t) N D wd : forall d,
  dayPlan N D d (map f wd) = map f (dayPlan N D d wd).
Proof.
  induction wd as [|x wd IH]; intros d; [reflexivity|].
  cbn [map dayPlan]. rewrite IH, map_app. f_equal.
  change (map f (replicate ?n x)) with (f <$> replicate n x).
  rewrite fmap_replicate. reflexivity.
Qed.

(** The birthday visit depends on [now] through its time of day only. *)
Lemma birthdayVisit_retime now now' vc bd v :
  birthdayVisit now targetYear holidays saturdayWorking vc bd v
  = retime (time now) (birthdayVisit now' targetYear holidays saturdayWorking vc bd v).
Proof.
  unfold birthdayVisit.
  set (tm := Qfloor _).
  assert (daysInMonthOf (set_month (set_year now targetYear) tm)
          = daysInMonthOf (set_month (set_year now' targetYear) tm)) as Ed by reflexivity.
  rewrite Ed.
  set (dim := daysInMonthOf (set_month (set_year now' targetYear) tm)).
  rewrite <- snap_retime. f_equal.
  destruct (dim <? bd);
    apply (set_date_retime (set_month (set_year now targetYear) tm)
             (set_month (set_year now' targetYear) tm)); reflexivity.
Qed.

Lemma time_set_date a x : time (set_date a x) = time a.
Proof. unfold set_date. destruct (normDate _ _ _ _) as [[y m] d]. reflexivity. Qed.

Lemma time_birthdayVisit now vc bd v :
  time (birthdayVisit now targetYear holidays saturdayWorking vc bd v) = time now.
Proof.
  unfold birthdayVisit. rewrite time_snap.
  destruct (_ <? bd); rewrite time_set_date; reflexivity.
Qed.

Lemma birthdayDates_retime now now' vc bd :
  birthdayDates now targetYear holidays saturdayWorking vc bd
  = map (retime (time now))
      (birthdayDates now' targetYear holidays saturdayWorking vc bd).
Proof.
  rewrite !birthdayDates_eq.
  rewrite <- (sortByValue_retime (time now) (time now')).
  - f_equal. rewrite map_map. apply map_ext. intros v. apply birthdayVisit_retime.
  - apply List.Forall_forall. intros x Hx. apply in_map_iff in Hx.
    destruct Hx as (v & <- & _). apply time_birthdayVisit.
Qed.

End RetimeFacts.

Section DaysFacts.
Import Calendar Dayjs.

Variable cols : Columns.
Variable config : Config.

Lemma rowDays_insert k v (r : Row) : rowDays (<[ k := v ]> r) = <[ k := dayOnly v ]> (rowDays r).
Proof. unfold rowDays. apply fmap_insert. Qed.

Lemma rowDays_delete k (r : Row) : rowDays (delete k r) = delete k (rowDays r).
Proof. unfold rowDays. apply fmap_delete. Qed.

Lemma getProp_rowDays (r : Row) k : getProp (rowDays r) k = dayOnly (getProp r k).
Proof.
  unfold getProp, rowDays. rewrite lookup_fmap.
  destruct (r !! k); reflexivity.
Qed.

Lemma rowDays_setId id (r : Row) : rowDays (setId cols id r) = setId cols id (rowDays r).
Proof.
  unfold setId. destruct (idColKey cols); [|reflexivity]. apply rowDays_insert.
Qed.

Lemma rowDays_assignDates vc keys ds : forall idx (row : Row),
  rowDays (assignDates vc keys idx ds row)
  = assignDates vc keys idx (map startOf_day ds) (rowDays row).
Proof.
  induction ds as [|d ds IH]; intros idx row; [reflexivity|].
  cbn [assignDates map]. rewrite IH. f_equal.
  destruct (idx <? vc)%nat; [apply rowDays_insert|reflexivity].
Qed.

Lemma rowDays_placedRow_retime t vc p d id :
  rowDays (placedRow cols config vc p (retime t d) id)
  = rowDays (placedRow cols config vc p d id).
Proof.
  unfold placedRow. rewrite !rowDays_assignDates.
  rewrite cycleDates_retime, map_startOf_day_retime. reflexivity.
Qed.

Lemma placedRows_retime t vc ps : forall days id,
  map rowDays (placedRows cols config vc ps (map (retime t) days) id)
  = map rowDays (placedRows cols config vc ps days id).
Proof.
  induction ps as [|p ps IH]; intros [|d days] id; try reflexivity.
  cbn [map placedRows]. rewrite IH, rowDays_placedRow_retime. reflexivity.
Qed.

Lemma rowDays_birthdayRow now now' vc p :
  rowDays (birthdayRow now cols config vc p) = rowDays (birthdayRow now' cols config vc p).
Proof.
  unfold birthdayRow. rewrite !rowDays_assignDates.
  rewrite (birthdayDates_retime _ _ _ now now'), map_startOf_day_retime.
  rewrite (birthdayDates_retime _ _ _ now' now'), map_startOf_day_retime.
  reflexivity.
Qed.

(** The working days of a month at midnight. *)
#[local] Abbreviation midnightDays m :=
  (List.filter (isWorkingDay (holidays config) (saturdayWorking config))
     (monthDays (targetYear config) (Z.of_nat m) 1 0
        (Z.to_nat (daysInMonth (targetYear config) (Z.of_nat m))))).

Lemma getWorkingDays_retime now (m : nat) :
  validTime now -> (m < 12)%nat ->
  getWorkingDays now (holidays config) (saturdayWorking config)
    (targetYear config) (Z.of_nat m)
  = map (retime (time now)) (midnightDays m).
Proof.
  intros Hnow Hm. rewrite getWorkingDays_month by assumption.
  rewrite monthDays_retime, filter_working_retime. reflexivity.
Qed.

Lemma monthStep_days now vc countsToUse pool rows pIndex (m : nat) :
  validTime now -> (m < 12)%nat ->
  let st := monthStep now cols config vc countsToUse pool (rows, pIndex) m in
  let st0 :=
    if (nth m countsToUse 0 =? 0) || (length (midnightDays m) =? 0)%nat
    then ([], pIndex)
    else
      let p4m := take (Z.to_nat (nth m countsToUse 0)) (drop pIndex pool) in
      (placedRows cols config vc p4m
         (dayPlan (Z.of_nat (length p4m)) (Z.of_nat (length (midnightDays m)))
            0 (midnightDays m)) 1,
       (pIndex + length p4m)%nat) in
  map rowDays (fst st) = map rowDays rows ++ map rowDays (fst st0) /\ snd st = snd st0.
Proof.
  intros Hnow Hm. cbn zeta. rewrite monthStep_eq.
  rewrite getWorkingDays_retime by assumption. rewrite length_map.
  destruct (_ || _); cbn [fst snd map]; [rewrite app_nil_r; auto|].
  split; [|reflexivity].
  rewrite map_app. f_equal. rewrite dayPlan_map. apply placedRows_retime.
Qed.

Lemma fold_monthStep_days now1 now2 vc countsToUse pool ms :
  validTime now1 -> validTime now2 -> Forall (fun m => (m < 12)%nat) ms ->
  forall st1 st2,
    map rowDays (fst st1) = map rowDays (fst st2) -> snd st1 = snd st2 ->
    let r1 := fold_left (monthStep now1 cols config vc countsToUse pool) ms st1 in
    let r2 := fold_left (monthStep now2 cols config vc countsToUse pool) ms st2 in
    map rowDays (fst r1) = map rowDays (fst r2) /\ snd r1 = snd r2.
Proof.
  intros H1 H2 Hms. induction Hms as [|m ms Hm _ IH]; intros [rows1 p1] [rows2 p2] Er Ep.
  - cbn. auto.
  - cbn [fst snd] in Er, Ep. subst p2. cbn [fold_left].
    destruct (monthStep_days now1 vc countsToUse pool rows1 p1 m H1 Hm) as [A1 B1].
    destruct (monthStep_days now2 vc countsToUse pool rows2 p1 m H2 Hm) as [A2 B2].
    apply IH.
    + rewrite A1, A2, Er. reflexivity.
    + rewrite B1, B2. reflexivity.
Qed.

Lemma assignCohort_days now1 now2 range pool :
  validTime now1 -> validTime now2 ->
  map rowDays (fst (assignCohort now1 cols config range pool))
  = map rowDays (fst (assignCohort now2 cols config range pool))
  /\ snd (assignCohort now1 cols config range pool)
     = snd (assignCohort now2 cols config range pool).
Proof.
  intros H1 H2. unfold assignCohort. destruct (useBirthday range).
  - unfold logicA. cbn [fst snd]. split; [|reflexivity].
    rewrite !map_map. apply map_ext. intros p. apply rowDays_birthdayRow.
  - unfold logicB. apply fold_monthStep_days; try assumption; try reflexivity.
    apply List.Forall_forall. intros m Hm. apply in_seq in Hm. lia.
Qed.

Lemma unplannedRows_length a1 a2 pIndex pool :
  length a1 = length a2 ->
  unplannedRows cols a1 pIndex pool = unplannedRows cols a2 pIndex pool.
Proof. intros E. unfold unplannedRows. rewrite E. reflexivity. Qed.

Lemma cohortGroup_days now1 now2 rowsData range :
  validTime now1 -> validTime now2 ->
  groupDays (cohortGroup now1 cols config rowsData range)
  = groupDays (cohortGroup now2 cols config rowsData range).
Proof.
  intros H1 H2. unfold groupDays, cohortGroup. cbn [rows groupVisitCount]. f_equal.
  unfold unplannedRowsOf, assignedRowsOf.
  destruct (assignCohort_days now1 now2 range (poolOf cols rowsData range) H1 H2) as [A B].
  rewrite !map_app, A, B. f_equal. f_equal.
  apply unplannedRows_length.
  apply (f_equal (@length _)) in A. rewrite !length_map in A. exact A.
Qed.

End DaysFacts.

Section RunDaysFacts.
Import Dayjs.

Variable cols : Columns.
Variable config : Config.
Variable rowsData : list Patient.

Lemma rowDays_normalizeRow mx vc id (r : Row) :
  rowDays (normalizeRow cols mx vc id r) = normalizeRow cols mx vc id (rowDays r).
Proof.
  unfold normalizeRow. rewrite rowDays_setId. f_equal.
  destruct (_ && _); [|reflexivity].
  rewrite rowDays_delete, rowDays_insert, getProp_rowDays. reflexivity.
Qed.

Lemma taggedRows_days groups :
  taggedRows (map groupDays groups)
  = map (fun vr => (fst vr, rowDays (snd vr))) (taggedRows groups).
Proof.
  unfold taggedRows. induction groups as [|g groups IH]; [reflexivity|].
  cbn [map concat]. rewrite IH, map_app. f_equal.
  cbn [rows groupVisitCount groupDays]. rewrite !map_map. reflexivity.
Qed.

Lemma numberedRows_days mx src : forall id,
  map rowDays (numberedRows cols mx src id)
  = numberedRows cols mx (map (fun vr => (fst vr, rowDays (snd vr))) src) id.
Proof.
  induction src as [|[vc r] src IH]; intros id; [reflexivity|].
  cbn [numberedRows map fst snd]. rewrite IH, rowDays_normalizeRow. reflexivity.
Qed.

Lemma consolidate_days mx groups :
  map rowDays (consolidate cols mx groups) = consolidate cols mx (map groupDays groups).
Proof. rewrite !consolidate_eq, numberedRows_days, taggedRows_days. reflexivity. Qed.

(** Two states of the cohort loop that agree up to the time of day. *)
#[local] Abbreviation sameDays st1 st2 :=
  (map groupDays (allRangesRows st1) = map groupDays (allRangesRows st2)
   /\ warnings st1 = warnings st2).

Lemma processRanges_days now1 now2 rs :
  validTime now1 -> validTime now2 ->
  forall st1 st2, sameDays st1 st2 ->
    match processRanges now1 cols config rowsData rs st1,
          processRanges now2 cols config rowsData rs st2 with
    | inl e1, inl e2 => e1 = e2
    | inr r1, inr r2 => sameDays r1 r2
    | _, _ => False
    end.
Proof.
  intros H1 H2. induction rs as [|r rs IH]; intros st1 st2 [Eg Ew].
  - cbn. auto.
  - cbn [processRanges].
    destruct (processRange_cases now1 cols config rowsData r st1)
      as [(Hl & ->)|[(Ho & ->)|(Hl & Hn & ws & -> & Ews)]];
    destruct (processRange_cases now2 cols config rowsData r st2)
      as [(Hl' & ->)|[(Ho' & ->)|(Hl' & Hn' & ws' & -> & Ews')]];
      try lia; try contradiction;
      try (destruct Ho as (_ & _ & Ho); lia);
      try (destruct Ho' as (_ & _ & Ho'); lia).
    + apply IH. cbn [allRangesRows warnings]. rewrite Ew. auto.
    + reflexivity.
    + apply IH. cbn [allRangesRows warnings].
      rewrite !map_app, Eg, Ew, Ews, Ews'. cbn [map].
      rewrite (cohortGroup_days cols config now1 now2) by assumption. auto.
Qed.

End RunDaysFacts.


(** ** Exact and binary64 month arithmetic *)

(** Up to 93 visits a year the rounding of binary64 never changes a month
    index: the rational arithmetic of the model is the one of the source. *)
Lemma binary64_agrees_to_93 : forallb Binary64.agrees (seqZ 1 93) = true.
Proof. vm_compute. reflexivity. Qed.

(** With 94 visits the product [47 * (12 / 94)] is rounded below 6. *)
Lemma binary64_differs_at_94 :
  Binary64.targetMonth 94 47 = 5 /\ 12 * 47 / 94 = 6.
Proof. split; vm_compute; reflexivity. Qed.

(** ** Visit dates of the assigned rows (C1) *)

(** C1, as the code has it.  For every cohort rule with visit count [v]
    and every row recorded as assigned, the visit columns hold exactly [v]
    dates in ascending order (two visits may fall on the same day), and
    each of them is a working day or a date from which no working day
    lies within sixty days. *)
Theorem assigned_visit_dates
    (now : Dayjs.t) (cols : Columns) (config : Config) (range : Range)
    (pool : list Patient) (row : Row) :
  Dayjs.validTime now ->
  In row (fst (assignCohort now cols config range pool)) ->
  exists ds : list Dayjs.t,
    visitDatesOf (visitCountOf range) row = map VDate ds
    /\ length ds = visitCountOf range
    /\ ascending ds
    /\ Forall (fun d =>
         isWorkingDay (holidays config) (saturdayWorking config) d = true
         \/ forall i, (i < 60)%nat ->
              isWorkingDay (holidays config) (saturdayWorking config)
                (Dayjs.addDays i d) = false) ds.
Proof.
  intros Hnow Hin. pose proof (visitCountOf_pos range) as Hvc.
  set (vc := visitCountOf range) in *.
  unfold assignCohort in Hin. fold vc in Hin.
  destruct (useBirthday range).
  - unfold logicA in Hin. cbn [fst] in Hin. apply in_map_iff in Hin.
    destruct Hin as (p & <- & _). unfold birthdayRow.
    set (bd := match _birthDate p with Some b => Dayjs.date b | None => 0 end).
    set (ds := birthdayDates now (targetYear config) (holidays config)
                 (saturdayWorking config) vc bd).
    assert (length ds = vc) as Hl.
    { unfold ds. rewrite birthdayDates_eq, length_sortByValue, length_map, length_seq.
      reflexivity. }
    exists ds. split; [apply visitDatesOf_assignDates, Hl|].
    split; [exact Hl|]. split.
    + unfold ds. rewrite birthdayDates_eq. apply sortByValue_ascending.
    + unfold ds. rewrite birthdayDates_eq.
      eapply Permutation_Forall; [symmetry; apply sortByValue_perm|].
      apply List.Forall_forall. intros d Hd. apply in_map_iff in Hd.
      destruct Hd as (v & <- & _). unfold birthdayVisit. apply snap_working_or_stuck.
  - apply logicB_rows in Hin.
    destruct Hin as (p & d & id & m & Hm & _ & Hd & ->).
    apply (workingDay_facts now config Hnow m d Hm) in Hd.
    destruct Hd as (Hv & Ht & _).
    unfold placedRow.
    set (ds := cycleDates (targetYear config) (holidays config)
                 (saturdayWorking config) vc d).
    assert (length ds = vc) as Hl by (apply length_cycleDates, Hvc).
    exists ds. split; [apply visitDatesOf_assignDates, Hl|].
    split; [exact Hl|]. split.
    + unfold ds. rewrite cycleDates_eq.
      set (l := d :: map (cycleCandidate (targetYear config) vc d) (seq 1 (vc - 1))).
      assert (Forall Dayjs.valid l /\ Forall (fun x => Dayjs.time x = Dayjs.time d) l)
        as [Hlv Hlt].
      { unfold l. split; constructor; try assumption; try reflexivity;
          apply List.Forall_forall; intros x Hx; apply in_map_iff in Hx;
          destruct Hx as (v & <- & _).
        - apply candidate_valid, Hv.
        - apply candidate_time. }
      apply (ascending_map_snap _ _ (Dayjs.time d)).
      * eapply Permutation_Forall; [symmetry; apply sortByValue_perm|exact Hlv].
      * eapply Permutation_Forall; [symmetry; apply sortByValue_perm|exact Hlt].
      * apply sortByValue_ascending.
    + unfold ds. rewrite cycleDates_eq.
      apply List.Forall_forall. intros x Hx. apply in_map_iff in Hx.
      destruct Hx as (y & <- & _). apply snap_working_or_stuck.
Qed.

(** The first patient of a monthly cohort scheduled around a closure from
    January to March 2026. *)
Lemma assigned_visit_dates_witness :
  exists ds : list Dayjs.t,
    visitDatesOf 12
      (hd ∅ (fst (assignCohort Samples.morning Samples.cols
                    (Samples.config2026 Samples.winterClosure [Samples.monthly])
                    Samples.monthly Samples.four)))
    = map VDate ds
    /\ length ds = 12%nat
    /\ ascending ds
    /\ Forall (fun d =>
         isWorkingDay Samples.winterClosure false d = true
         \/ forall i, (i < 60)%nat ->
              isWorkingDay Samples.winterClosure false (Dayjs.addDays i d) = false) ds.
Proof.
  apply (assigned_visit_dates Samples.morning Samples.cols
           (Samples.config2026 Samples.winterClosure [Samples.monthly])
           Samples.monthly Samples.four).
  - unfold Dayjs.validTime, Calendar.msPerDay. simpl. lia.
  - apply In_hd. vm_compute. lia.
Defined.

(** C1 as stated fails.  With 24 visits on the birthday timeline two
    visits fall in each month on the same day, so the dates are not
    strictly increasing; with a closure from January to March 2026 the
    January visit of a monthly cycle stays on 1 January, a holiday. *)
Lemma assigned_visit_dates_counterexample :
  (exists row ds,
      In row (fst (assignCohort Samples.morning Samples.cols
                     (Samples.config2026 [] [Samples.fortnightly])
                     Samples.fortnightly
                     [Samples.person 2 "Aliyev Vali" 2000 5 15]))
      /\ visitDatesOf (visitCountOf Samples.fortnightly) row = map VDate ds
      /\ ~ strictlyAscending ds)
  /\ (exists row ds,
      In row (fst (assignCohort Samples.morning Samples.cols
                     (Samples.config2026 Samples.winterClosure [Samples.monthly])
                     Samples.monthly Samples.four))
      /\ visitDatesOf (visitCountOf Samples.monthly) row = map VDate ds
      /\ ~ Forall (fun d => isWorkingDay Samples.winterClosure false d = true) ds).
Proof.
  split.
  - eexists. exists (birthdayDates Samples.morning 2026 [] false 24 15).
    split; [apply (In_hd ∅); vm_compute; lia|]. split; [vm_compute; reflexivity|].
    unfold strictlyAscending. intros H.
    remember (birthdayDates Samples.morning 2026 [] false 24 15) as l eqn:El.
    vm_compute in El. subst l.
    apply StronglySorted_inv in H. destruct H as [_ H].
    apply Forall_inv in H. unfold strictlyBefore in H. vm_compute in H. discriminate.
  - eexists. exists (cycleDates 2026 Samples.winterClosure false 12 (Dayjs.mk 2026 3 1 32400000)).
    split; [apply (In_hd ∅); vm_compute; lia|]. split; [vm_compute; reflexivity|].
    intros H.
    remember (cycleDates 2026 Samples.winterClosure false 12 (Dayjs.mk 2026 3 1 32400000))
      as l eqn:El.
    vm_compute in El. subst l.
    apply Forall_inv in H. vm_compute in H. discriminate.
Qed.

(** ** Capacity check (C2) *)




(** ** The even distribution (C3) *)

(** C3. For [n >= 0] people and [d > 0] slots the allocation gives
    [floor(n/d) + 1] to each of the first [n mod d] slots and [floor(n/d)]
    to the others, and the quotas add up to [n].  The twelve monthly
    counts of the auto plan are this allocation for [d = 12], and the day
    loops of a month hand the month's people, in order, to its working
    days by these quotas, leaving no one out. *)
Theorem even_distribution_quotas (n d : Z) :
  0 <= n -> 0 < d ->
  (forall i, 0 <= i < d ->
     countForDay n d i = if i <? n mod d then n / d + 1 else n / d)
  /\ sumZ (map (countForDay n d) (seqZ 0 d)) = n
  /\ (forall m, 0 <= m < 12 ->
        autoCounts n !! Z.to_nat m
        = Some (if m <? n mod 12 then n / 12 + 1 else n / 12))
  /\ length (autoCounts n) = 12%nat
  /\ sumZ (autoCounts n) = n
  /\ (forall cols config vc (patientsForMonth : list Patient)
             (workingDays : list Dayjs.t),
        Z.of_nat (length patientsForMonth) = n ->
        Z.of_nat (length workingDays) = d ->
        monthlyRows
          (placeOnDays cols config vc patientsForMonth n d 0 workingDays
             {| currentPatientIdx := 0; monthlyIdCounter := 1; monthlyRows := [] |})
        = placedRows cols config vc patientsForMonth (dayPlan n d 0 workingDays) 1
        /\ length (dayPlan n d 0 workingDays) = length patientsForMonth).
Proof.
  intros Hn Hd. split; [|split; [|split; [|split; [|split]]]].
  - intros i _. apply countForDay_eq; assumption.
  - apply sum_quotas; assumption.
  - intros m Hm. rewrite autoCounts_eq, list_lookup_fmap.
    rewrite lookup_seqZ_lt by lia. cbn [fmap option_fmap option_map].
    rewrite countForDay_eq by lia. rewrite Z2Nat.id by lia. reflexivity.
  - rewrite autoCounts_eq, length_map, length_seqZ. reflexivity.
  - rewrite autoCounts_eq. apply sum_quotas; lia.
  - intros cols config vc P wd HP Hwd. subst n d.
    pose proof (length_dayPlan_all (Z.of_nat (length P)) wd ltac:(lia) ltac:(lia)) as Hl.
    rewrite Nat2Z.id in Hl. split; [|exact Hl].
    rewrite placeOnDays_eq by (cbn [currentPatientIdx]; rewrite Hl; lia).
    cbn [currentPatientIdx monthlyIdCounter monthlyRows app].
    rewrite Hl, drop_0, take_ge by lia. reflexivity.
Qed.

(** Thirteen people over the twelve months. *)
Lemma even_distribution_quotas_witness :
  map (countForDay 13 12) (seqZ 0 12) = [2; 1; 1; 1; 1; 1; 1; 1; 1; 1; 1; 1]
  /\ sumZ (autoCounts 13) = 13.
Proof.
  split; [reflexivity|].
  apply (even_distribution_quotas 13 12); lia.
Defined.

(** ** Assigned and unplanned rows (C4) *)

(** C4 fails on the code.  A manual cohort whose twelve monthly counts
    are all zero has four eligible people; none is assigned, and because
    the unplanned rows are only recorded when at least one row was
    assigned, none is recorded as unplanned either: the cohort's result
    and the consolidated sheet are empty. *)
Theorem unplanned_rows_lost :
  length (poolOf Samples.cols Samples.four
            (Samples.manual [0; 0; 0; 0; 0; 0; 0; 0; 0; 0; 0; 0])) = 4%nat
  /\ assignedRowsOf Samples.morning Samples.cols
       (Samples.config2026 [] [Samples.manual [0; 0; 0; 0; 0; 0; 0; 0; 0; 0; 0; 0]])
       Samples.four (Samples.manual [0; 0; 0; 0; 0; 0; 0; 0; 0; 0; 0; 0]) = []
  /\ unplannedRowsOf Samples.morning Samples.cols
       (Samples.config2026 [] [Samples.manual [0; 0; 0; 0; 0; 0; 0; 0; 0; 0; 0; 0]])
       Samples.four (Samples.manual [0; 0; 0; 0; 0; 0; 0; 0; 0; 0; 0; 0]) = []
  /\ processExcel Samples.morning Samples.cols
       (Samples.config2026 [] [Samples.manual [0; 0; 0; 0; 0; 0; 0; 0; 0; 0; 0; 0]])
       Samples.four
     = inr {| cohortResults := [ {| rows := []; groupVisitCount := 1 |} ];
              consolidatedPlan := Some [];
              outWarnings := [Shortfall 2000 2000 0 4] |}.
Proof.
  split; [reflexivity|]. split; [reflexivity|]. split; [reflexivity|].
  vm_compute. reflexivity.
Qed.

(** ** The cycle projection (C5) *)




(** ** The birthday projection (C6) *)



(** ** The working-day search (C7) *)

(** C7. [findNextWorkingDay] returns the first working day among the
    date and the 59 days after it when there is one, and the date itself
    when none of these 60 days is a working day; a date that is a working
    day (not a Sunday, not a Saturday unless Saturdays are worked, not a
    holiday) is returned unchanged. *)
Theorem findNextWorkingDay_first_working
    (holidays : list string) (saturdayWorking : bool) (d : Dayjs.t) :
  let working := isWorkingDay holidays saturdayWorking in
  let result := findNextWorkingDay holidays saturdayWorking d in
  (forall i, (i < 60)%nat -> working (Dayjs.addDays i d) = true ->
     (forall j, (j < i)%nat -> working (Dayjs.addDays j d) = false) ->
     result = Dayjs.addDays i d)
  /\ ((forall i, (i < 60)%nat -> working (Dayjs.addDays i d) = false) -> result = d)
  /\ (working d = true -> result = d)
  /\ (working d = true <->
      Dayjs.day d <> 0 /\ ~ (Dayjs.day d = 6 /\ saturdayWorking = false)
      /\ ~ In (Dayjs.format d) holidays).
Proof.
  intros working result.
  assert (forall i, (i < 60)%nat -> working (Dayjs.addDays i d) = true ->
            (forall j, (j < i)%nat -> working (Dayjs.addDays j d) = false) ->
            result = Dayjs.addDays i d) as First.
  { intros i Hi W Hmin. unfold result, findNextWorkingDay.
    assert (findNextWorkingDay_loop holidays saturdayWorking 60 d
            = Some (Dayjs.addDays i d)) as ->; [|reflexivity].
    apply findLoop_Some. exists i. auto. }
  split; [exact First|]. split; [|split].
  - intros Hnone. unfold result, findNextWorkingDay.
    assert (findNextWorkingDay_loop holidays saturdayWorking 60 d = None) as ->;
      [|reflexivity].
    apply findLoop_None. exact Hnone.
  - intros W. apply (First 0%nat); [lia|exact W|]. intros j Hj. lia.
  - apply isWorkingDay_iff.
Qed.

(** Saturday 31 January 2026 with Monday 2 February a holiday: the search
    stops on Tuesday 3 February; Friday 30 January stays. *)
Lemma findNextWorkingDay_first_working_witness :
  findNextWorkingDay ["2026-02-02"%string] false (Dayjs.mk 2026 0 31 0)
    = Dayjs.mk 2026 1 3 0
  /\ findNextWorkingDay [] false (Dayjs.mk 2026 0 30 0) = Dayjs.mk 2026 0 30 0.
Proof.
  split.
  - apply (findNextWorkingDay_first_working ["2026-02-02"%string] false
             (Dayjs.mk 2026 0 31 0)) with (i := 3%nat).
    + lia.
    + reflexivity.
    + intros j Hj. destruct j as [|[|[|j]]]; [reflexivity|reflexivity|reflexivity|lia].
  - apply (findNextWorkingDay_first_working [] false (Dayjs.mk 2026 0 30 0)).
    reflexivity.
Defined.

(** ** The consolidated sheet (C8) *)

(** C8. When an identifier column was detected (and is not itself a
    visit column), the consolidated sheet holds the rows of all cohorts
    with a population, cohort by cohort in the order of the rules and
    within a cohort the assigned rows before the unplanned ones, numbered
    1, 2, 3, ... in the identifier column.  When the largest visit count
    of the rules exceeds 1, a row of a single-visit cohort has its
    ['Tashrif sanasi'] cell moved to ['1-tashrif sanasi'], its other cells
    are kept, and the visit columns 2, 3, ... stay unset (no such column
    being in the sheet); the rows of the other cohorts keep their cells. *)
Theorem consolidated_plan
    (now : Dayjs.t) (cols : Columns) (config : Config) (rowsData : list Patient)
    (out : Output) (idKey : string) :
  processExcel now cols config rowsData = inr out ->
  idColKey cols = Some idKey ->
  idKey <> "Tashrif sanasi"%string -> idKey <> "1-tashrif sanasi"%string ->
  let mx := maxVisitsGlobalOf (ranges config) in
  let src := taggedRows (cohortResults out) in
  (Forall (fun r => (visitCountOf r <= mx)%nat) (ranges config)
   /\ (mx = 1%nat \/ Exists (fun r => visitCountOf r = mx) (ranges config)))
  /\ cohortResults out =
       map (cohortGroup now cols config rowsData)
         (List.filter (fun r => negb (length (poolOf cols rowsData r) =? 0)%nat)
            (ranges config))
  /\ (cohortResults out <> [] ->
      exists plan,
        consolidatedPlan out = Some plan
        /\ length plan = length src
        /\ forall i vc r,
             src !! i = Some (vc, r) ->
             exists newR : Row,
               plan !! i = Some newR
               /\ newR !! idKey = Some (VNum (Z.of_nat i + 1))
               /\ (vc = 1%nat -> (1 < mx)%nat ->
                   newR !! "1-tashrif sanasi"%string = Some (getProp r "Tashrif sanasi")
                   /\ newR !! "Tashrif sanasi"%string = None
                   /\ (forall key,
                         key <> idKey -> key <> "1-tashrif sanasi"%string ->
                         key <> "Tashrif sanasi"%string -> newR !! key = r !! key)
                   /\ (forall v,
                         (2 <= v)%nat -> idKey <> visitKey v ->
                         birthKey cols <> Some (visitKey v) ->
                         (forall p, In p rowsData -> fields p !! visitKey v = None) ->
                         newR !! visitKey v = None))
               /\ (~ (vc = 1%nat /\ (1 < mx)%nat) ->
                   forall key, key <> idKey -> newR !! key = r !! key)).
Proof.
  intros Hrun Hid Hn1 Hn2 mx src.
  unfold processExcel in Hrun.
  destruct (processRanges now cols config rowsData (ranges config) _) as [e|st] eqn:E;
    [discriminate|].
  injection Hrun as <-. cbn [cohortResults consolidatedPlan] in *.
  apply processRanges_ok in E. cbn [allRangesRows app] in E.
  destruct (maxVisitsGlobalOf_spec (ranges config)) as (Hmax & _ & Hex).
  split; [split; assumption|]. split; [exact E|].
  intros Hne. fold mx. exists (consolidate cols mx (allRangesRows st)).
  split.
  { destruct (allRangesRows st); [contradiction|reflexivity]. }
  rewrite consolidate_eq. fold src.
  split; [apply length_numberedRows|].
  intros i vc r Hi.
  exists (normalizeRow cols mx vc (Nat.iter i (bumpId cols) 1) r).
  split; [apply lookup_numberedRows, Hi|].
  rewrite (bumpId_iter cols idKey) by exact Hid.
  split; [rewrite (normalizeRow_id cols idKey) by exact Hid; f_equal; f_equal; lia|].
  split.
  - intros -> Hmx.
    assert ((1 =? 1)%nat && (1 <? mx)%nat = true) as Hc.
    { apply andb_true_iff. split; [reflexivity|apply Nat.ltb_lt, Hmx]. }
    assert (forall key, key <> idKey -> key <> "1-tashrif sanasi"%string ->
              key <> "Tashrif sanasi"%string ->
              normalizeRow cols mx 1 (1 + Z.of_nat i) r !! key = r !! key) as Hkeep.
    { intros key K1 K2 K3.
      rewrite (normalizeRow_renamed cols idKey) by assumption.
      destruct (String.eqb_spec key "Tashrif sanasi"); [contradiction|].
      destruct (String.eqb_spec key "1-tashrif sanasi"); [contradiction|reflexivity]. }
    split; [|split; [|split]].
    + rewrite (normalizeRow_renamed cols idKey) by (assumption || congruence). reflexivity.
    + rewrite (normalizeRow_renamed cols idKey) by (assumption || congruence). reflexivity.
    + exact Hkeep.
    + intros v Hv Hvid Hvb Hfields.
      rewrite Hkeep.
      * apply list_elem_of_lookup_2, list_elem_of_In, in_taggedRows in Hi.
        destruct Hi as (g & Hg & Hvc & Hr). rewrite E in Hg.
        apply in_map_iff in Hg. destruct Hg as (range & <- & _).
        cbn [groupVisitCount cohortGroup] in Hvc.
        destruct (cohort_row_fields now cols config rowsData range r (visitKey v) Hr)
          as (p & Hp & ->).
        -- rewrite <- Hvc. cbn. intros [H|[]]. symmetry in H.
           apply visitKey_not_single in H. exact H.
        -- apply visitKey_not_flag.
        -- apply visitKey_not_birth.
        -- rewrite Hid. congruence.
        -- exact Hvb.
        -- apply Hfields, Hp.
      * congruence.
      * rewrite <- visitKey_1. intros H. apply visitKey_inj in H. lia.
      * apply visitKey_not_single.
  - intros Hnot key Hk.
    apply (normalizeRow_kept cols idKey); [exact Hid| |exact Hk].
    apply andb_false_iff.
    destruct (Nat.eqb_spec vc 1) as [->|]; [|left; reflexivity].
    right. apply Nat.ltb_ge. lia.
Qed.

(** A hand-planned single-visit cohort followed by a monthly cycle. *)
Lemma consolidated_plan_witness :
  cohortResults
    (outputOf (processExcel Samples.morning Samples.cols
                 (Samples.config2026 [] [Samples.twoPlanned; Samples.monthly])
                 Samples.four))
  = map (cohortGroup Samples.morning Samples.cols
           (Samples.config2026 [] [Samples.twoPlanned; Samples.monthly]) Samples.four)
      (List.filter (fun r => negb (length (poolOf Samples.cols Samples.four r) =? 0)%nat)
         [Samples.twoPlanned; Samples.monthly]).
Proof.
  destruct (consolidated_plan Samples.morning Samples.cols
              (Samples.config2026 [] [Samples.twoPlanned; Samples.monthly]) Samples.four
              (outputOf (processExcel Samples.morning Samples.cols
                           (Samples.config2026 [] [Samples.twoPlanned; Samples.monthly])
                           Samples.four))
              "No"%string) as (_ & H & _).
  - apply succeeded_outputOf. vm_compute. reflexivity.
  - reflexivity.
  - discriminate.
  - discriminate.
  - exact H.
Defined.

(** ** Dependence on the wall clock (C9) *)

(** C9, as the code has it.  Two runs on the same workbook and the same
    configuration, at any two instants, throw the same error or hand over
    results that agree in everything (rows, their order, identifiers,
    warnings) once each date cell is reduced to its calendar day; the
    time of day of the visit dates is the one of the run. *)
Theorem run_days_independent_of_clock
    (now1 now2 : Dayjs.t) (cols : Columns) (config : Config) (rowsData : list Patient) :
  Dayjs.validTime now1 -> Dayjs.validTime now2 ->
  resultDays (processExcel now1 cols config rowsData)
  = resultDays (processExcel now2 cols config rowsData).
Proof.
  intros H1 H2. unfold processExcel.
  pose proof (processRanges_days cols config rowsData now1 now2 (ranges config) H1 H2
                {| allRangesRows := []; warnings := [] |}
                {| allRangesRows := []; warnings := [] |} (conj eq_refl eq_refl)) as H.
  destruct (processRanges now1 cols config rowsData (ranges config) _) as [e1|r1];
    destruct (processRanges now2 cols config rowsData (ranges config) _) as [e2|r2];
    try contradiction.
  - cbn. congruence.
  - destruct H as [Eg Ew]. cbn [resultDays]. f_equal.
    assert (length (allRangesRows r1) = length (allRangesRows r2)) as El.
    { apply (f_equal (@length _)) in Eg. rewrite !length_map in Eg. exact Eg. }
    unfold outputDays. cbn [cohortResults consolidatedPlan outWarnings].
    rewrite Eg, Ew, El. destruct (0 <? length (allRangesRows r2))%nat; [|reflexivity].
    cbn [option_map]. rewrite !consolidate_days, Eg. reflexivity.
Qed.

(** A morning run and an afternoon run of the same plan. *)
Lemma run_days_independent_of_clock_witness :
  resultDays (processExcel Samples.morning Samples.cols
                (Samples.config2026 [] [Samples.twoPlanned; Samples.monthly]) Samples.four)
  = resultDays (processExcel Samples.afternoon Samples.cols
                  (Samples.config2026 [] [Samples.twoPlanned; Samples.monthly]) Samples.four).
Proof.
  apply (run_days_independent_of_clock Samples.morning Samples.afternoon);
    unfold Dayjs.validTime, Calendar.msPerDay; simpl; lia.
Defined.

(** C9 as stated fails: the visit dates carry the time of day at which
    the run executes.  The same plan run at 09:00 and at 15:00 gives the
    first visit date at 09:00 and at 15:00 of the same day. *)
Lemma run_days_independent_of_clock_counterexample :
  firstVisitTime 1
    (processExcel Samples.morning Samples.cols
       (Samples.config2026 [] [Samples.twoPlanned]) Samples.four) = 32400000
  /\ firstVisitTime 1
       (processExcel Samples.afternoon Samples.cols
          (Samples.config2026 [] [Samples.twoPlanned]) Samples.four) = 54000000
  /\ processExcel Samples.morning Samples.cols
       (Samples.config2026 [] [Samples.twoPlanned]) Samples.four
     <> processExcel Samples.afternoon Samples.cols
          (Samples.config2026 [] [Samples.twoPlanned]) Samples.four.
Proof.
  assert (firstVisitTime 1
            (processExcel Samples.morning Samples.cols
               (Samples.config2026 [] [Samples.twoPlanned]) Samples.four) = 32400000) as M
    by (vm_compute; reflexivity).
  assert (firstVisitTime 1
            (processExcel Samples.afternoon Samples.cols
               (Samples.config2026 [] [Samples.twoPlanned]) Samples.four) = 54000000) as A
    by (vm_compute; reflexivity).
  split; [exact M|]. split; [exact A|].
  intros E. rewrite E in M. rewrite M in A. discriminate A.
Qed.

(** ** The gender heuristic and the filter (C10) *)






(** * Properties of the rest of the program *)

(** ** Facts of strings *)

Section StrFacts.
Import JsString.

Lemma append_nil_r (s : string) : (s ++ "")%string = s.
Proof. induction s as [|c s IH]; [reflexivity|]. rewrite append_cons, IH. reflexivity. Qed.

Lemma append_assoc (a b c : string) : ((a ++ b) ++ c)%string = (a ++ (b ++ c))%string.
Proof. induction a as [|x a IH]; [reflexivity|]. rewrite !append_cons, IH. reflexivity. Qed.

Lemma startsWith_spec s t :
  Str.startsWith s t = true <-> exists b, s = (t ++ b)%string.
Proof.
  revert s. induction t as [|c t IH]; intros s; cbn [Str.startsWith].
  - split; [intros _; exists s; reflexivity|reflexivity].
  - destruct s as [|d s].
    + split; [discriminate|]. intros (b & E). discriminate.
    + rewrite andb_true_iff, Ascii.eqb_eq, IH. split.
      * intros (-> & b & ->). exists b. reflexivity.
      * intros (b & E). rewrite append_cons in E. injection E as -> ->. eauto.
Qed.

Lemma includes_spec s k :
  Str.includes s k = true <-> exists a b, s = (a ++ k ++ b)%string.
Proof.
  induction s as [|c s IH]; cbn [Str.includes]; rewrite orb_true_iff, startsWith_spec.
  - split.
    + intros [(b & E)|F]; [|discriminate]. exists ""%string, b. exact E.
    + intros (a & b & E). left. destruct a; [|discriminate]. exists b. exact E.
  - rewrite IH. split.
    + intros [(b & E)|(a & b & E)].
      * exists ""%string, b. exact E.
      * exists (String c a), b. rewrite append_cons, E. reflexivity.
    + intros (a & b & E). destruct a as [|x a].
      * left. exists b. exact E.
      * right. rewrite append_cons in E. injection E as -> ->. eauto.
Qed.

Lemma includes_false_cons c s k :
  Str.includes (String c s) k = false -> Str.includes s k = false.
Proof. cbn [Str.includes]. rewrite orb_false_iff. tauto. Qed.

Lemma includes_app_false a b k :
  Str.includes (a ++ b) k = false -> Str.includes b k = false.
Proof.
  induction a as [|c a IH]; [auto|]. rewrite append_cons. intros H.
  apply IH. eapply includes_false_cons; exact H.
Qed.

(** A one-character key occurs in a string exactly when the character
    does. *)
Lemma includes_char_cons c d s :
  Str.includes (String d s) (String c "") = Ascii.eqb d c || Str.includes s (String c "").
Proof. cbn [Str.includes Str.startsWith]. destruct (Ascii.eqb d c); [reflexivity|]. cbn. reflexivity. Qed.

Lemma includes_char_app c a b :
  Str.includes (a ++ b) (String c "") = Str.includes a (String c "") || Str.includes b (String c "").
Proof.
  induction a as [|d a IH].
  - reflexivity.
  - rewrite append_cons, !includes_char_cons, IH.
    replace (Str.includes "" (String c "")) with false by reflexivity.
    destruct (Ascii.eqb d c); cbn; [reflexivity|].
    destruct a; reflexivity.
Qed.

Lemma split_nonempty sep s : Str.split sep s <> [].
Proof.
  destruct s as [|c s]; cbn; [discriminate|].
  destruct (Ascii.eqb c sep); [discriminate|]. destruct (Str.split sep s); discriminate.
Qed.

Lemma concat_cons sep w ws :
  ws <> [] -> String.concat sep (w :: ws) = (w ++ sep ++ String.concat sep ws)%string.
Proof. destruct ws; [congruence|reflexivity]. Qed.

Lemma concat_cons_char sep c w ws :
  String.concat sep (String c w :: ws) = String c (String.concat sep (w :: ws)).
Proof. destruct ws; [reflexivity|]. cbn [String.concat]. apply append_cons. Qed.

(** Joining the parts with the separator gives the string back. *)
Lemma concat_split sep s : String.concat (String sep "") (Str.split sep s) = s.
Proof.
  induction s as [|c s IH]; [reflexivity|]. cbn [Str.split].
  pose proof (split_nonempty sep s) as Hne.
  destruct (Ascii.eqb_spec c sep) as [->|N].
  - rewrite concat_cons by assumption. rewrite IH. reflexivity.
  - destruct (Str.split sep s) as [|w ws] eqn:E; [congruence|].
    rewrite concat_cons_char, IH. reflexivity.
Qed.

(** No part contains the separator. *)
Lemma split_no_sep sep s :
  Forall (fun w => Str.includes w (String sep "") = false) (Str.split sep s).
Proof.
  induction s as [|c s IH]; cbn [Str.split].
  - constructor; [reflexivity|constructor].
  - destruct (Ascii.eqb_spec c sep) as [->|N].
    + constructor; [reflexivity|assumption].
    + destruct (Str.split sep s) as [|w ws]; [constructor; [|constructor]|].
      * rewrite includes_char_cons. apply Ascii.eqb_neq in N. rewrite N. reflexivity.
      * inversion IH as [|? ? Hw Hws]; subst. constructor; [|assumption].
        rewrite includes_char_cons. apply Ascii.eqb_neq in N. rewrite N. exact Hw.
Qed.

(** Splitting a part that has no separator followed by more parts. *)
Lemma split_app sep w rest :
  Str.includes w (String sep "") = false ->
  Str.split sep (w ++ String sep rest) = w :: Str.split sep rest.
Proof.
  induction w as [|c w IH]; intros H.
  - change ("" ++ String sep rest)%string with (String sep rest).
    cbn [Str.split]. rewrite Ascii.eqb_refl. reflexivity.
  - rewrite includes_char_cons in H. apply orb_false_iff in H. destruct H as [N H].
    rewrite append_cons. cbn [Str.split]. rewrite N, IH by assumption. reflexivity.
Qed.

Lemma split_single sep w :
  Str.includes w (String sep "") = false -> Str.split sep w = [w].
Proof.
  induction w as [|c w IH]; intros H; [reflexivity|].
  rewrite includes_char_cons in H. apply orb_false_iff in H. destruct H as [N H].
  cbn [Str.split]. rewrite N, IH by assumption. reflexivity.
Qed.

(** The first word of [splitFirst] is the first part of [split]. *)
Lemma splitFirst_split s : splitFirst s = hd ""%string (Str.split " " s).
Proof.
  induction s as [|c s IH]; [reflexivity|]. cbn [splitFirst Str.split].
  destruct (Ascii.eqb c " "); [reflexivity|].
  rewrite IH. destruct (Str.split " " s); reflexivity.
Qed.

Lemma toLowerCase_app a b :
  toLowerCase (a ++ b) = (toLowerCase a ++ toLowerCase b)%string.
Proof.
  induction a as [|c a IH]; [reflexivity|].
  rewrite append_cons. cbn [toLowerCase]. rewrite IH, append_cons. reflexivity.
Qed.

Lemma stringOfZ_nonempty n : Dayjs.stringOfZ n <> ""%string.
Proof.
  unfold Dayjs.stringOfZ, NilZero.string_of_int.
  destruct (Z.to_int n) as [u|u]; cbn.
  - unfold NilZero.string_of_uint. destruct u; discriminate.
  - discriminate.
Qed.

End StrFacts.

(** ** Facts of the column detection *)

Section ColumnFacts.
Import JsString.

Lemma mentions_spec keywords h :
  mentions keywords (toLowerCase h) = true <-> mentionsOneOf keywords h.
Proof.
  unfold mentions, mentionsOneOf, occursIn. rewrite existsb_exists.
  split; intros (k & Hk & H); exists k; (split; [exact Hk|]); apply includes_spec; exact H.
Qed.

Lemma mentions_false keywords h :
  mentions keywords (toLowerCase h) = false <-> ~ mentionsOneOf keywords h.
Proof.
  rewrite <- mentions_spec. destruct (mentions keywords (toLowerCase h)); split; congruence.
Qed.

(** The loop returns one plus the index of the first header that mentions
    a keyword. *)
Lemma findBirthDateColumn_loop_Some headerRow : forall i r,
  findBirthDateColumn_loop headerRow i = Some r <->
  exists (j : nat) h,
    r = (i + j + 1)%nat /\ headerRow !! j = Some h
    /\ mentionsOneOf birthKeywords h
    /\ forall (j' : nat) h', (j' < j)%nat -> headerRow !! j' = Some h' ->
         ~ mentionsOneOf birthKeywords h'.
Proof.
  induction headerRow as [|h0 rest IH]; intros i r; cbn [findBirthDateColumn_loop].
  - split; [discriminate|]. intros (j & h & _ & E & _). discriminate.
  - destruct (mentions birthKeywords (toLowerCase h0)) eqn:M.
    + apply mentions_spec in M. split.
      * intros E. injection E as <-. exists 0%nat, h0.
        split; [lia|]. split; [reflexivity|]. split; [exact M|]. intros j' h' Hj. lia.
      * intros (j & h & -> & E & Hm & Hmin). destruct j as [|j]; [f_equal; lia|].
        exfalso. exact (Hmin 0%nat h0 ltac:(lia) eq_refl M).
    + apply mentions_false in M. rewrite IH. split.
      * intros (j & h & -> & E & Hm & Hmin). exists (S j), h.
        split; [lia|]. split; [exact E|]. split; [exact Hm|].
        intros [|j'] h' Hj E'; [cbn in E'; injection E' as <-; exact M|].
        apply (Hmin j'); [lia|exact E'].
      * intros (j & h & -> & E & Hm & Hmin). destruct j as [|j].
        { cbn in E. injection E as <-. contradiction. }
        exists j, h. split; [lia|]. split; [exact E|]. split; [exact Hm|].
        intros j' h' Hj E'. apply (Hmin (S j')); [lia|exact E'].
Qed.


(** The birth column lies inside a header row that has headers. *)
Lemma findBirthDateColumn_bounds headerRow :
  (1 <= findBirthDateColumn headerRow <= Nat.max 1 (length headerRow))%nat.
Proof.
  unfold findBirthDateColumn.
  destruct (findBirthDateColumn_loop headerRow 0) as [r|] eqn:E; cbn [default from_option id].
  - apply findBirthDateColumn_loop_Some in E. destruct E as (j & h & -> & E & _).
    apply lookup_lt_Some in E. lia.
  - lia.
Qed.

Lemma find_firstToMention keywords headers h :
  firstMentioning keywords headers = Some h <-> firstToMention keywords headers h.
Proof.
  unfold firstMentioning, firstToMention.
  induction headers as [|h0 rest IH]; cbn [List.find].
  - split; [discriminate|]. intros (i & E & _). discriminate.
  - destruct (mentions keywords (toLowerCase h0)) eqn:M.
    + apply mentions_spec in M. split.
      * intros E. injection E as <-. exists 0%nat.
        split; [reflexivity|]. split; [exact M|]. intros j h' Hj. lia.
      * intros (i & E & Hm & Hmin). destruct i as [|i]; [exact E|].
        exfalso. exact (Hmin 0%nat h0 ltac:(lia) eq_refl M).
    + apply mentions_false in M. rewrite IH. split.
      * intros (i & E & Hm & Hmin). exists (S i).
        split; [exact E|]. split; [exact Hm|].
        intros [|j] h' Hj E'; [cbn in E'; injection E' as <-; exact M|].
        apply (Hmin j); [lia|exact E'].
      * intros (i & E & Hm & Hmin). destruct i as [|i].
        { cbn in E. injection E as <-. contradiction. }
        exists i. split; [exact E|]. split; [exact Hm|].
        intros j h' Hj E'. apply (Hmin (S j)); [lia|exact E'].
Qed.

Lemma find_none_mentions keywords headers :
  firstMentioning keywords headers = None <->
  Forall (fun h => ~ mentionsOneOf keywords h) headers.
Proof.
  unfold firstMentioning.
  induction headers as [|h0 rest IH]; cbn [List.find].
  - split; [constructor|reflexivity].
  - destruct (mentions keywords (toLowerCase h0)) eqn:M.
    + apply mentions_spec in M. split; [discriminate|].
      intros H. inversion H; subst. contradiction.
    + apply mentions_false in M. rewrite IH. split.
      * intros H. constructor; assumption.
      * intros H. inversion H; subst. assumption.
Qed.

(** The empty header mentions nothing, when no keyword is empty. *)
Lemma mentions_empty keywords :
  Forall (fun k => k <> ""%string) keywords -> ~ mentionsOneOf keywords "".
Proof.
  intros Hk (k & Hin & a & b & E).
  rewrite List.Forall_forall in Hk. apply (Hk k Hin).
  cbn in E. destruct a; [|discriminate]. destruct k; [reflexivity|discriminate].
Qed.

Lemma steppedOver_spec h :
  String.eqb h "" || Str.startsWith h "Col" = true <-> steppedOver h.
Proof.
  unfold steppedOver. rewrite orb_true_iff, String.eqb_eq, startsWith_spec. tauto.
Qed.

(** The trimming loop stops on the last header it does not step over. *)
Lemma trimHeaders_loop_spec headers n :
  let n' := trimHeaders_loop headers n in
  (n' <= n)%nat
  /\ (forall (k : nat) h, (n' <= k < n)%nat -> headers !! k = Some h -> steppedOver h)
  /\ (n' = 0%nat \/ exists h, headers !! (n' - 1)%nat = Some h /\ ~ steppedOver h).
Proof.
  induction n as [|n IH]; cbn [trimHeaders_loop].
  - cbn. split; [lia|]. split; [intros; lia|left; reflexivity].
  - destruct (headers !! n) as [h|] eqn:E.
    + destruct (String.eqb h "" || Str.startsWith h "Col") eqn:Hs.
      * apply steppedOver_spec in Hs. cbn zeta in *.
        destruct IH as (Hle & Hmid & Hlast).
        split; [lia|]. split; [|exact Hlast].
        intros k h' Hk Ek. destruct (Nat.eq_dec k n) as [->|N].
        { rewrite E in Ek. injection Ek as <-. exact Hs. }
        apply (Hmid k); [lia|exact Ek].
      * cbn zeta. split; [lia|]. split; [intros; lia|].
        right. exists h. replace (S n - 1)%nat with n by lia.
        split; [exact E|]. rewrite <- steppedOver_spec. congruence.
    + cbn zeta in *. destruct IH as (Hle & Hmid & Hlast).
      split; [lia|]. split; [|exact Hlast].
      intros k h' Hk Ek. destruct (Nat.eq_dec k n) as [->|N]; [congruence|].
      apply (Hmid k); [lia|exact Ek].
Qed.

End ColumnFacts.

(** ** Facts of the header row and of the rows *)

Section ReadingFacts.
Import JsString.

Lemma cellMatches_null cell : isNullCell cell = true -> cellMatches cell = false.
Proof.
  destruct cell as [v| |]; try discriminate. destruct v; try discriminate; reflexivity.
Qed.

Lemma matchCountOf_pos row : (0 <? matchCountOf row)%nat = true <-> headerLike row.
Proof.
  unfold matchCountOf, headerLike. rewrite Nat.ltb_lt. split.
  - intros H.
    destruct (List.filter cellMatches
                (List.filter (fun cell => negb (isNullCell cell)) row))
      as [|cell rest] eqn:E; [cbn in H; lia|].
    assert (In cell (cell :: rest)) as Hin by (left; reflexivity).
    rewrite <- E in Hin. apply filter_In in Hin. destruct Hin as (Hin & M).
    apply filter_In in Hin. destruct Hin as (Hin & _).
    exists cell. split; [exact Hin|]. apply mentions_spec. exact M.
  - intros (cell & Hin & M). apply mentions_spec in M.
    assert (In cell (List.filter cellMatches
                       (List.filter (fun cell => negb (isNullCell cell)) row))) as H.
    { apply filter_In. split; [|exact M]. apply filter_In. split; [exact Hin|].
      destruct (isNullCell cell) eqn:N; [|reflexivity].
      apply cellMatches_null in N. unfold cellMatches in N. congruence. }
    destruct (List.filter cellMatches _); [destruct H|cbn; lia].
Qed.

Lemma findHeaderRow_loop_Some sheet n : forall r r',
  findHeaderRow_loop sheet n r = Some r' <->
  exists j : nat,
    (j < n)%nat /\ r' = (r + j)%nat /\ headerLike (getRow sheet r')
    /\ forall j' : nat, (j' < j)%nat -> ~ headerLike (getRow sheet (r + j')).
Proof.
  induction n as [|n IH]; intros r r'; cbn [findHeaderRow_loop].
  - split; [discriminate|]. intros (j & Hj & _). lia.
  - destruct (0 <? matchCountOf (getRow sheet r))%nat eqn:M.
    + apply matchCountOf_pos in M. split.
      * intros E. injection E as <-. exists 0%nat.
        split; [lia|]. split; [lia|]. split; [exact M|]. intros j' Hj. lia.
      * intros (j & Hj & -> & Hh & Hmin). destruct j as [|j]; [f_equal; lia|].
        exfalso. apply (Hmin 0%nat); [lia|]. rewrite Nat.add_0_r. exact M.
    + assert (~ headerLike (getRow sheet r)) as N
        by (rewrite <- matchCountOf_pos; congruence).
      rewrite IH. split.
      * intros (j & Hj & -> & Hh & Hmin). exists (S j).
        split; [lia|]. split; [lia|]. split; [exact Hh|].
        intros [|j'] Hj'; [rewrite Nat.add_0_r; exact N|].
        replace (r + S j')%nat with (S r + j')%nat by lia. apply Hmin. lia.
      * intros (j & Hj & -> & Hh & Hmin). destruct j as [|j].
        { rewrite Nat.add_0_r in Hh. contradiction. }
        exists j. split; [lia|]. split; [lia|].
        split; [replace (S r + j)%nat with (r + S j)%nat by lia; exact Hh|].
        intros j' Hj'. replace (S r + j')%nat with (r + S j')%nat by lia.
        apply Hmin. lia.
Qed.

Lemma findHeaderRow_loop_None sheet n : forall r,
  findHeaderRow_loop sheet n r = None <->
  forall j : nat, (j < n)%nat -> ~ headerLike (getRow sheet (r + j)).
Proof.
  induction n as [|n IH]; intros r; cbn [findHeaderRow_loop].
  - split; [intros _ j Hj; lia|reflexivity].
  - destruct (0 <? matchCountOf (getRow sheet r))%nat eqn:M.
    + apply matchCountOf_pos in M. split; [discriminate|].
      intros H. exfalso. apply (H 0%nat); [lia|]. rewrite Nat.add_0_r. exact M.
    + assert (~ headerLike (getRow sheet r)) as N
        by (rewrite <- matchCountOf_pos; congruence).
      rewrite IH. split.
      * intros H [|j] Hj; [rewrite Nat.add_0_r; exact N|].
        replace (r + S j)%nat with (S r + j)%nat by lia. apply H. lia.
      * intros H j Hj. replace (S r + j)%nat with (r + S j)%nat by lia.
        apply H. lia.
Qed.

Lemma findHeaderRow_bounds sheet :
  (1 <= findHeaderRow sheet <= Nat.max 1 (Nat.min 15 (length sheet)))%nat.
Proof.
  unfold findHeaderRow.
  destruct (findHeaderRow_loop sheet (Nat.min 15 (length sheet)) 1) as [r|] eqn:E;
    cbn [default from_option id]; [|lia].
  apply findHeaderRow_loop_Some in E. destruct E as (j & Hj & -> & _). lia.
Qed.

Section Rows.

Variable tz : Z.
Variable dayjsOfString : string -> option Dayjs.t.

#[local] Abbreviation readRow' := (readRow tz dayjsOfString).

(** The rows read are the rows below the header that have values, in
    order. *)
Lemma eachRow_loop_eq headers hIdx last bIdx rows : forall n acc,
  eachRow_loop tz dayjsOfString headers hIdx last bIdx rows n acc =
  acc ++ map (readRow' headers last bIdx)
           (List.filter hasValues (drop (hIdx + 1 - n) rows)).
Proof.
  induction rows as [|row rest IH]; intros n acc; cbn [eachRow_loop].
  - rewrite drop_nil. cbn. rewrite app_nil_r. reflexivity.
  - rewrite IH. destruct (Nat.leb_spec n hIdx) as [Le|Gt].
    + replace (hIdx + 1 - n)%nat with (S (hIdx + 1 - S n)) by lia.
      cbn [drop]. destruct (hasValues row); reflexivity.
    + replace (hIdx + 1 - n)%nat with 0%nat by lia.
      replace (hIdx + 1 - S n)%nat with 0%nat by lia.
      cbn [drop List.filter]. destruct (hasValues row); [|reflexivity].
      cbn [map]. rewrite <- app_assoc. reflexivity.
Qed.




End Rows.

End ReadingFacts.

(** ** Facts of the epoch and of [parseDate] *)

Module EpochFacts.
Import Calendar Dayjs CalendarFacts DayjsFacts.

Lemma MakeDay_prevMonth y m d :
  0 <= m <= 11 ->
  let '(y', m') := prevMonth y m in
  0 <= m' <= 11 /\ MakeDay y' m' (d + daysInMonth y' m') = MakeDay y m d.
Proof.
  intros Hm. unfold prevMonth. destruct (Z.ltb_spec 0 m) as [P|Z0].
  - split; [lia|]. rewrite !MakeDay_month by lia.
    pose proof (daysBeforeMonth_succ y (m - 1) ltac:(lia)) as H.
    replace (m - 1 + 1) with m in H by lia. lia.
  - assert (m = 0) as -> by lia. split; [lia|].
    rewrite !MakeDay_month by lia. rewrite daysBeforeMonth_0.
    pose proof (DayFromYear_succ (y - 1)) as H.
    replace (y - 1 + 1) with y in H by lia.
    rewrite <- daysBeforeMonth_12 in H.
    pose proof (daysBeforeMonth_succ (y - 1) 11 ltac:(lia)) as H2.
    change (11 + 1) with 12 in H2. lia.
Qed.

Lemma MakeDay_nextMonth y m d :
  0 <= m <= 11 ->
  let '(y', m') := nextMonth y m in
  0 <= m' <= 11 /\ MakeDay y' m' (d - daysInMonth y m) = MakeDay y m d.
Proof.
  intros Hm. unfold nextMonth. destruct (Z.ltb_spec m 11) as [L|G].
  - split; [lia|]. rewrite !MakeDay_month by lia.
    rewrite daysBeforeMonth_succ by lia. lia.
  - assert (m = 11) as -> by lia. split; [lia|].
    rewrite !MakeDay_month by lia. rewrite daysBeforeMonth_0.
    pose proof (DayFromYear_succ y) as H.
    rewrite <- daysBeforeMonth_12 in H.
    pose proof (daysBeforeMonth_succ y 11 ltac:(lia)) as H2.
    change (11 + 1) with 12 in H2. lia.
Qed.

(** Rolling a day number into its month keeps the day and ends on a day
    of the calendar. *)
Lemma normDate_spec f : forall y m d,
  0 <= m <= 11 ->
  Z.abs d < Z.of_nat f \/ 1 <= d <= daysInMonth y m ->
  let '(y', m', d') := normDate f y m d in
  0 <= m' <= 11 /\ 1 <= d' <= daysInMonth y' m' /\ MakeDay y' m' d' = MakeDay y m d.
Proof.
  induction f as [|f IH]; intros y m d Hm Hd; cbn [normDate].
  - destruct Hd as [Hd|Hd]; [lia|]. auto.
  - destruct (Z.ltb_spec d 1) as [L|G].
    + pose proof (MakeDay_prevMonth y m d Hm) as P.
      destruct (prevMonth y m) as [y' m']. destruct P as (Hm' & E).
      pose proof (daysInMonth_bounds y' m') as B.
      specialize (IH y' m' (d + daysInMonth y' m') Hm' ltac:(lia)).
      destruct (normDate f y' m' (d + daysInMonth y' m')) as [[y2 m2] d2].
      destruct IH as (A & B2 & C). rewrite C, E. auto.
    + destruct (Z.ltb_spec (daysInMonth y m) d) as [L2|G2]; [|split; [assumption|split; [lia|reflexivity]]].
      pose proof (MakeDay_nextMonth y m d Hm) as P.
      destruct (nextMonth y m) as [y' m']. destruct P as (Hm' & E).
      pose proof (daysInMonth_bounds y m) as B.
      specialize (IH y' m' (d - daysInMonth y m) Hm' ltac:(lia)).
      destruct (normDate f y' m' (d - daysInMonth y m)) as [[y2 m2] d2].
      destruct IH as (A & B2 & C). rewrite C, E. auto.
Qed.

Lemma ofEpochDay_spec n :
  valid (ofEpochDay n) /\ dayNumber (ofEpochDay n) = n /\ time (ofEpochDay n) = 0.
Proof.
  unfold ofEpochDay, set_date. cbn [year month date time].
  pose proof (normDate_spec (S (Z.to_nat (Z.abs (n + 1)))) 1970 0 (n + 1)
                ltac:(lia) ltac:(lia)) as H.
  destruct (normDate _ 1970 0 (n + 1)) as [[y m] d].
  destruct H as (Hm & Hd & E). unfold valid, dayNumber. cbn [year month date time].
  split; [auto|]. split; [|reflexivity]. rewrite E.
  rewrite MakeDay_month by lia. rewrite daysBeforeMonth_0.
  change (DayFromYear 1970) with 0. lia.
Qed.

(** The year of a day of the calendar is bounded by its day number. *)
Lemma year_from_dayNumber a y0 :
  valid a -> DayFromYear y0 <= dayNumber a -> y0 <= year a.
Proof.
  intros [Hm Hd] H. unfold dayNumber in H.
  pose proof (MakeDay_in_year (year a) (month a) (date a) Hm Hd) as B.
  destruct (Z.le_gt_cases y0 (year a)) as [L|G]; [assumption|].
  pose proof (DayFromYear_mono (year a + 1) y0 ltac:(lia)). lia.
Qed.

Section Millis.

Variable tz : Z.

(** A time value in range is read as the local day and time of day of
    the instant. *)
Lemma dayjsOfMillis_spec ms :
  Z.abs ms <= maxTime ->
  exists d, dayjsOfMillis tz ms = Some d
    /\ valid d /\ validTime d /\ valueOf d = ms + tz.
Proof.
  intros Hr. unfold dayjsOfMillis.
  destruct (Z.leb_spec (Z.abs ms) maxTime) as [_|F]; [|lia].
  eexists. split; [reflexivity|].
  destruct (ofEpochDay_spec ((ms + tz) / msPerDay)) as (Hv & Hn & _).
  pose proof (Z.mod_pos_bound (ms + tz) msPerDay ltac:(unfold msPerDay; lia)) as Hb.
  pose proof (Z.div_mod (ms + tz) msPerDay ltac:(unfold msPerDay; lia)) as Hdm.
  revert Hv Hn. generalize (ofEpochDay ((ms + tz) / msPerDay)). intros e Hv Hn.
  split; [exact Hv|]. split; [exact Hb|].
  rewrite valueOf_retime, Hn. lia.
Qed.

End Millis.

End EpochFacts.

(** ** Facts of the characters of a string *)

Section CharFacts.
Import JsString.

Lemma allChars_app P a b : allChars P (a ++ b) = allChars P a && allChars P b.
Proof.
  induction a as [|c a IH]; [reflexivity|].
  rewrite append_cons. cbn [allChars]. rewrite IH, andb_assoc. reflexivity.
Qed.

Lemma allChars_impl (P Q : ascii -> bool) s :
  (forall c, P c = true -> Q c = true) -> allChars P s = true -> allChars Q s = true.
Proof.
  intros H. induction s as [|c s IH]; [reflexivity|]. cbn [allChars].
  rewrite !andb_true_iff. intros [Hc Hs]. split; [apply H, Hc|apply IH, Hs].
Qed.

Lemma string_of_uint_chars u :
  allChars isDigitOrMinus (NilEmpty.string_of_uint u) = true.
Proof. induction u; cbn [NilEmpty.string_of_uint allChars]; try rewrite IHu; reflexivity. Qed.

Lemma nilzero_chars u :
  allChars isDigitOrMinus (NilZero.string_of_uint u) = true.
Proof. destruct u; [reflexivity|..]; apply string_of_uint_chars. Qed.

Lemma stringOfZ_chars n : allChars isDigitOrMinus (Dayjs.stringOfZ n) = true.
Proof.
  unfold Dayjs.stringOfZ, NilZero.string_of_int.
  destruct (Z.to_int n) as [u|u]; [apply nilzero_chars|].
  cbn [allChars]. rewrite nilzero_chars. reflexivity.
Qed.

(** A character that fails the test does not occur in the string. *)
Lemma allChars_excludes P c s :
  P c = false -> allChars P s = true -> Str.includes s (String c "") = false.
Proof.
  intros Hc. induction s as [|d s IH]; [reflexivity|]. cbn [allChars].
  rewrite andb_true_iff. intros [Hd Hs]. rewrite includes_char_cons, (IH Hs), orb_false_r.
  apply Ascii.eqb_neq. intros ->. congruence.
Qed.

Lemma trimEnd_id s : allChars (fun c => negb (isWhite c)) s = true -> trimEnd s = s.
Proof.
  induction s as [|c s IH]; [reflexivity|]. cbn [allChars trimEnd].
  rewrite andb_true_iff, negb_true_iff. intros [Hc Hs]. rewrite (IH Hs).
  destruct s; [rewrite Hc|]; reflexivity.
Qed.

Lemma trim_id s : allChars (fun c => negb (isWhite c)) s = true -> trim s = s.
Proof.
  intros H. unfold trim.
  assert (trimStart s = s) as ->.
  { destruct s as [|c s]; [reflexivity|]. cbn [allChars] in H.
    apply andb_true_iff in H. destruct H as [Hc _]. apply negb_true_iff in Hc.
    cbn [trimStart]. rewrite Hc. reflexivity. }
  apply trimEnd_id, H.
Qed.

Lemma digits_not_white c : isDigitOrMinus c = true -> negb (isWhite c) = true.
Proof.
  unfold isDigitOrMinus, isWhite. intros H. apply negb_true_iff.
  rewrite orb_true_iff, andb_true_iff, !Nat.leb_le, Nat.eqb_eq in H.
  destruct (nat_of_ascii c =? 32)%nat eqn:E32; [apply Nat.eqb_eq in E32; lia|].
  rewrite orb_false_r. apply andb_false_iff.
  destruct (Nat.leb_spec (nat_of_ascii c) 13); [|auto].
  left. apply Nat.leb_gt. lia.
Qed.

End CharFacts.

Section ParseDateFacts.
Import Calendar Dayjs CalendarFacts DayjsFacts EpochFacts.

Variable tz : Z.
Variable dayjsOfString : string -> option Dayjs.t.

#[local] Abbreviation parse := (parseDate tz dayjsOfString).

Lemma parseDate_serial n :
  4000 <= n -> parse (Plain (VNum n)) = dayjsOfMillis tz ((n - 25569) * msPerDay).
Proof.
  intros H. unfold parseDate.
  destruct (Z.leb_spec 1900 n); [|lia]. destruct (Z.leb_spec n 2100); [lia|].
  cbn [andb]. destruct (Z.ltb_spec n 4000); [lia|].
  f_equal. unfold msPerDay. lia.
Qed.

(** A serial number in the range of [Date] is read as the local date and
    time of its instant. *)
Lemma parseDate_serial_spec n :
  4000 <= n <= 100025569 ->
  exists d,
    parse (Plain (VNum n)) = Some d
    /\ valid d /\ validTime d /\ valueOf d = (n - 25569) * msPerDay + tz.
Proof.
  intros H. rewrite parseDate_serial by lia.
  apply dayjsOfMillis_spec. unfold msPerDay, maxTime. lia.
Qed.

End ParseDateFacts.

(** ** Facts of the analysis *)

Section PlaceholderFacts.
Import JsString.

(** A keyword with a character that the string lacks does not occur in
    it. *)
Lemma includes_needs_char s k c :
  Str.includes k (String c "") = true ->
  Str.includes s (String c "") = false ->
  Str.includes s k = false.
Proof.
  intros Hk Hs. destruct (Str.includes s k) eqn:E; [|reflexivity].
  apply includes_spec in E. destruct E as (a & b & ->).
  apply includes_spec in Hk. destruct Hk as (a' & b' & ->).
  rewrite !includes_char_app in Hs. rewrite includes_char_cons in Hs.
  rewrite Ascii.eqb_refl in Hs. cbn [orb] in Hs.
  rewrite !orb_true_r in Hs. discriminate.
Qed.

Lemma toLowerCase_digits s : allChars isDigitOrMinus s = true -> toLowerCase s = s.
Proof.
  induction s as [|c s IH]; [reflexivity|]. cbn [allChars toLowerCase].
  rewrite andb_true_iff. intros [Hc Hs]. rewrite (IH Hs). f_equal.
  unfold lowerChar. unfold isDigitOrMinus in Hc.
  rewrite orb_true_iff, andb_true_iff, !Nat.leb_le, Nat.eqb_eq in Hc.
  destruct (Nat.leb_spec 65 (nat_of_ascii c)); [|reflexivity].
  destruct (Nat.leb_spec (nat_of_ascii c) 90); [lia|reflexivity].
Qed.

Lemma placeholder_chars n :
  allChars placeholderChar (toLowerCase (colPlaceholder n)) = true.
Proof.
  unfold colPlaceholder. rewrite toLowerCase_app, allChars_app.
  rewrite (toLowerCase_digits (Dayjs.stringOfZ (Z.of_nat n))) by apply stringOfZ_chars.
  apply andb_true_iff. split; [reflexivity|].
  apply (allChars_impl isDigitOrMinus); [|apply stringOfZ_chars].
  intros c H. unfold placeholderChar. rewrite H. reflexivity.
Qed.

(** Neither placeholder mentions a keyword that has a character beyond
    those of a placeholder. *)
Lemma placeholder_mentions_nothing keywords n :
  Forall beyondPlaceholders keywords ->
  mentions keywords (toLowerCase (colPlaceholder n)) = false
  /\ mentions keywords (toLowerCase (emptyPlaceholder n)) = false.
Proof.
  intros H. unfold mentions. split.
  - apply not_true_is_false. intros E. apply existsb_exists in E.
    destruct E as (k & Hin & Hk). rewrite List.Forall_forall in H.
    destruct (H k Hin) as (c & Hc & Hp).
    rewrite (includes_needs_char _ k c Hc) in Hk; [discriminate|].
    apply (allChars_excludes placeholderChar); [exact Hp|apply placeholder_chars].
  - apply not_true_is_false. intros E. apply existsb_exists in E.
    destruct E as (k & Hin & Hk). rewrite List.Forall_forall in H.
    destruct (H k Hin) as (c & Hc & Hp).
    rewrite (includes_needs_char _ k c Hc) in Hk; [discriminate|reflexivity].
Qed.

Lemma birthKeywords_beyond : Forall beyondPlaceholders birthKeywords.
Proof.
  unfold birthKeywords.
  repeat constructor;
    first [ exists "t"%char; split; reflexivity
          | exists "b"%char; split; reflexivity
          | exists "d"%char; split; reflexivity
          | exists "s"%char; split; reflexivity ].
Qed.

(** The birth column is the same whichever placeholder stands for the
    empty header cells. *)
Lemma findBirthDateColumn_loop_placeholder cells : forall c i,
  findBirthDateColumn_loop (headersOf_loop colPlaceholder cells c) i
  = findBirthDateColumn_loop (headersOf_loop emptyPlaceholder cells c) i.
Proof.
  induction cells as [|cell rest IH]; intros c i; [reflexivity|].
  cbn [headersOf_loop findBirthDateColumn_loop].
  destruct (truthy (flatten cell)).
  - rewrite IH. reflexivity.
  - destruct (placeholder_mentions_nothing birthKeywords c birthKeywords_beyond)
      as (-> & ->).
    apply IH.
Qed.

Lemma findBirthDateColumn_placeholder cells :
  findBirthDateColumn (headersOf colPlaceholder cells)
  = findBirthDateColumn (headersOf emptyPlaceholder cells).
Proof.
  unfold findBirthDateColumn, headersOf.
  rewrite findBirthDateColumn_loop_placeholder. reflexivity.
Qed.

End PlaceholderFacts.

Section CountFacts.

Lemma countBirths_nonneg P births : 0 <= countBirths P births.
Proof. unfold countBirths. lia. Qed.

Lemma countBirths_cons P b births :
  countBirths P (b :: births) =
  (if match b with Some d => P (Dayjs.year d) | None => false end then 1 else 0)
  + countBirths P births.
Proof.
  unfold countBirths. cbn [List.filter].
  destruct (match b with Some d => P (Dayjs.year d) | None => false end); cbn [length]; lia.
Qed.

Lemma countBirths_app P l1 l2 :
  countBirths P (l1 ++ l2) = countBirths P l1 + countBirths P l2.
Proof.
  induction l1 as [|b l1 IH]; [unfold countBirths; cbn; lia|].
  rewrite <- app_comm_cons, !countBirths_cons, IH. lia.
Qed.

Lemma countBirths_ext P Q births :
  (forall k, P k = Q k) -> countBirths P births = countBirths Q births.
Proof.
  intros H. induction births as [|b l IH]; [reflexivity|].
  rewrite !countBirths_cons, IH. destruct b; [rewrite H|]; reflexivity.
Qed.

Lemma countBirths_le P Q births :
  (forall k, P k = true -> Q k = true) -> countBirths P births <= countBirths Q births.
Proof.
  intros H. induction births as [|b l IH]; [reflexivity|].
  rewrite !countBirths_cons. destruct b as [d|]; [|lia].
  destruct (P (Dayjs.year d)) eqn:E; [rewrite (H _ E); lia|].
  destruct (Q (Dayjs.year d)); lia.
Qed.

Lemma countBirths_or P Q births :
  (forall k, P k = true -> Q k = false) ->
  countBirths (fun k => P k || Q k) births = countBirths P births + countBirths Q births.
Proof.
  intros H. induction births as [|b l IH]; [reflexivity|].
  rewrite !countBirths_cons, IH. destruct b as [d|]; [|lia].
  destruct (P (Dayjs.year d)) eqn:E; [rewrite (H _ E); cbn; lia|].
  destruct (Q (Dayjs.year d)); cbn; lia.
Qed.

Lemma fold_left_add {A} (f : A -> Z) l : forall a,
  fold_left (fun acc x => acc + f x) l a = a + sumZ (map f l).
Proof.
  induction l as [|x l IH]; intros a; cbn [fold_left map]; [unfold sumZ; cbn; lia|].
  rewrite IH. unfold sumZ. cbn [fold_right]. lia.
Qed.

(** The counts of single years add up to the count of the span. *)
Lemma sum_years Q births s (n : nat) :
  sumZ (map (fun y => countBirths (fun k => (k =? y) && Q k) births)
          (seqZ s (Z.of_nat n)))
  = countBirths (fun k => (s <=? k) && (k <? s + Z.of_nat n) && Q k) births.
Proof.
  induction n as [|n IH].
  - rewrite seqZ_nil by lia. cbn [map]. unfold sumZ. cbn [fold_right].
    rewrite (countBirths_ext _ (fun _ => false)).
    + induction births as [|b l IHl]; [reflexivity|].
      rewrite countBirths_cons, <- IHl. destruct b; reflexivity.
    + intros k.
      destruct (Z.leb_spec s k); destruct (Z.ltb_spec k (s + Z.of_nat 0));
        cbn [andb]; try reflexivity; lia.
  - rewrite seqZ_S, map_app, sumZ_app, IH. cbn [map].
    replace (sumZ [countBirths (fun k => (k =? s + Z.of_nat n) && Q k) births])
      with (countBirths (fun k => (k =? s + Z.of_nat n) && Q k) births)
      by (unfold sumZ; cbn [fold_right]; lia).
    rewrite <- countBirths_or.
    + apply countBirths_ext. intros k.
      destruct (Z.leb_spec s k); destruct (Z.ltb_spec k (s + Z.of_nat n));
        destruct (Z.ltb_spec k (s + Z.of_nat (S n)));
        destruct (Z.eqb_spec k (s + Z.of_nat n)); destruct (Q k);
        cbn [andb orb]; try reflexivity; lia.
    + intros k H. apply andb_true_iff in H. destruct H as [H _].
      apply andb_true_iff in H. destruct H as [_ H]. apply Z.ltb_lt in H.
      destruct (Z.eqb_spec k (s + Z.of_nat n)); [lia|reflexivity].
Qed.

End CountFacts.

Section SumTotalsFacts.

Lemma sumTotals_empty : sumTotals ∅ = 0.
Proof. unfold sumTotals. apply map_fold_empty. Qed.

Lemma sumTotals_insert_None (m : gmap Z YearCount) y c :
  m !! y = None -> sumTotals (<[ y := c ]> m) = total c + sumTotals m.
Proof.
  intros H. unfold sumTotals. rewrite map_fold_insert_L; [reflexivity| |exact H].
  intros. lia.
Qed.

Lemma sumTotals_delete (m : gmap Z YearCount) y c :
  m !! y = Some c -> sumTotals m = total c + sumTotals (delete y m).
Proof.
  intros H. unfold sumTotals. rewrite (map_fold_delete_L _ _ y c m); [reflexivity| |exact H].
  intros. lia.
Qed.

Lemma sumTotals_insert_Some (m : gmap Z YearCount) y c c' :
  m !! y = Some c -> sumTotals (<[ y := c' ]> m) = sumTotals m - total c + total c'.
Proof.
  intros H. rewrite <- insert_delete_eq.
  rewrite sumTotals_insert_None by apply lookup_delete_eq.
  rewrite (sumTotals_delete m y c H). lia.
Qed.

End SumTotalsFacts.

Section AnalyzeFacts.

Variable tz : Z.
Variable dayjsOfString : string -> option Dayjs.t.
Variable now : Dayjs.t.
Variable bIdx : nat.
Variable nIdx : Z.

#[local] Abbreviation birthOf := (fun row => parseDate tz dayjsOfString (getCell row bIdx)).
#[local] Abbreviation step :=
  (fun st row => analyzeRow tz dayjsOfString now bIdx nIdx row st).

(** The analysis visits the rows below the header that have values. *)
Lemma analyze_loop_eq hIdx rows : forall n st,
  analyze_loop tz dayjsOfString now hIdx bIdx nIdx rows n st =
  fold_left step (List.filter hasValues (drop (hIdx + 1 - n) rows)) st.
Proof.
  induction rows as [|row rest IH]; intros n st; cbn [analyze_loop].
  - rewrite drop_nil. reflexivity.
  - rewrite IH. destruct (Nat.leb_spec n hIdx) as [Le|Gt].
    + replace (hIdx + 1 - n)%nat with (S (hIdx + 1 - S n)) by lia.
      cbn [drop]. destruct (hasValues row); reflexivity.
    + replace (hIdx + 1 - n)%nat with 0%nat by lia.
      replace (hIdx + 1 - S n)%nat with 0%nat by lia.
      cbn [drop List.filter]. destruct (hasValues row); reflexivity.
Qed.

Lemma countBirths_snoc P births b :
  countBirths P (births ++ [b]) =
  countBirths P births
  + (if match b with Some d => P (Dayjs.year d) | None => false end then 1 else 0).
Proof.
  rewrite countBirths_app, countBirths_cons. change (countBirths P []) with 0. lia.
Qed.

(** One row keeps the invariant. *)
Lemma analyzeRow_inv births row st :
  analysisInv now births st ->
  analysisInv now (births ++ [birthOf row]) (step st row).
Proof.
  intros [Hy Hn]. destruct st as [yc n]. cbn [fst snd] in *.
  unfold analyzeRow.
  destruct (parseDate tz dayjsOfString (getCell row bIdx)) as [d|] eqn:Eb.
  - destruct ((1900 <=? Dayjs.year d) && (Dayjs.year d <? Dayjs.year now + 1)) eqn:Ec.
    + split; cbn [fst snd].
      * intros y. rewrite countBirths_snoc. fold (countedYear now (Dayjs.year d)) in Ec.
        destruct (Z.eq_dec y (Dayjs.year d)) as [->|N].
        -- rewrite lookup_insert_eq. rewrite Z.eqb_refl, Ec. cbn [andb].
           specialize (Hy (Dayjs.year d)).
           destruct (yc !! Dayjs.year d) as [c|]; cbn [default from_option id].
           ++ destruct Hy as (Ht & H1 & Hm & Hf & Hs & _).
              destruct (isFemaleRow nIdx row); cbn [total male female];
                repeat split; try lia; exact Ec.
           ++ destruct (isFemaleRow nIdx row); cbn [total male female];
                repeat split; try lia; exact Ec.
        -- rewrite lookup_insert_ne by congruence.
           destruct (Z.eqb_spec (Dayjs.year d) y); [congruence|]. cbn [andb].
           rewrite Z.add_0_r. apply Hy.
      * specialize (Hy (Dayjs.year d)).
        destruct (yc !! Dayjs.year d) as [c|] eqn:El; cbn [default from_option id].
        -- rewrite (sumTotals_insert_Some yc _ c _ El).
           destruct (isFemaleRow nIdx row); cbn [total]; lia.
        -- rewrite (sumTotals_insert_None yc _ _ El).
           destruct (isFemaleRow nIdx row); cbn [total]; lia.
    + split; cbn [fst snd]; [|exact Hn].
      intros y. rewrite countBirths_snoc. fold (countedYear now (Dayjs.year d)) in Ec.
      destruct (Z.eqb_spec (Dayjs.year d) y) as [E|N]; cbn [andb].
      * rewrite Ec, Z.add_0_r. apply Hy.
      * rewrite Z.add_0_r. apply Hy.
  - split; cbn [fst snd]; [|exact Hn].
    intros y. rewrite countBirths_snoc, Z.add_0_r. apply Hy.
Qed.

Lemma analyze_fold_inv rows : forall births st,
  analysisInv now births st ->
  analysisInv now (births ++ map birthOf rows) (fold_left step rows st).
Proof.
  induction rows as [|row rest IH]; intros births st H; cbn [fold_left map].
  - rewrite app_nil_r. exact H.
  - replace (births ++ birthOf row :: map birthOf rest)
      with ((births ++ [birthOf row]) ++ map birthOf rest)
      by (rewrite <- app_assoc; reflexivity).
    apply IH, analyzeRow_inv, H.
Qed.

Lemma analysisInv_start : analysisInv now [] (∅, 0).
Proof.
  split; cbn [fst snd]; [|rewrite sumTotals_empty; reflexivity].
  intros y. rewrite lookup_empty. reflexivity.
Qed.

End AnalyzeFacts.

(** The analysis of a sheet satisfies the invariant for the birth dates
    of its data rows. *)
Lemma analyzeExcel_inv tz dayjsOfString now sheet :
  analysisInv now
    (map (fun row =>
            parseDate tz dayjsOfString
              (getCell row
                 (findBirthDateColumn
                    (headersOf colPlaceholder (getRow sheet (findHeaderRow sheet))))))
       (dataRows sheet))
    (analyzeExcel tz dayjsOfString now sheet).
Proof.
  unfold analyzeExcel. rewrite analyze_loop_eq.
  replace (findHeaderRow sheet + 1 - 1)%nat with (findHeaderRow sheet) by lia.
  rewrite findBirthDateColumn_placeholder. fold (dataRows sheet).
  apply (analyze_fold_inv tz dayjsOfString now _ _ (dataRows sheet) [] (∅, 0)).
  apply analysisInv_start.
Qed.

(** ** Facts that link the analysis, the browser script and the engine *)

Section PoolFacts.

Variable tz : Z.
Variable dayjsOfString : string -> option Dayjs.t.

(** The pool of a rule for both sexes counts the valid birth dates of its
    years, from 1900 on. *)
Lemma pool_size_both_sexes nameKey range headers last bIdx rows :
  bothSexes range ->
  Z.of_nat (length (rangePatients nameKey range
                      (map (readRow tz dayjsOfString headers last bIdx) rows)))
  = countBirths
      (fun k => (1900 <=? k) && (startYear range <=? k) && (k <=? endYear range))
      (map (fun row => parseDate tz dayjsOfString (getCell row bIdx)) rows).
Proof.
  intros Hg. unfold rangePatients.
  induction rows as [|row rest IH]; [reflexivity|].
  cbn [map List.filter]. rewrite countBirths_cons, <- IH.
  unfold inRange at 1. cbn [_birthDate readRow].
  destruct (parseDate tz dayjsOfString (getCell row bIdx)) as [d|]; [|lia].
  assert (negb (String.eqb (gender range) "") && negb (String.eqb (gender range) "all")
          = false) as ->.
  { destruct Hg as [-> | ->]; reflexivity. }
  destruct (Z.ltb_spec (Dayjs.year d) 1900); destruct (Z.leb_spec 1900 (Dayjs.year d));
    try lia; cbn [andb].
  - lia.
  - destruct (Z.ltb_spec (Dayjs.year d) (startYear range));
      destruct (Z.leb_spec (startYear range) (Dayjs.year d)); try lia; cbn [orb andb].
    + lia.
    + destruct (Z.ltb_spec (endYear range) (Dayjs.year d));
        destruct (Z.leb_spec (Dayjs.year d) (endYear range)); try lia; cbn [length]; lia.
Qed.

Lemma countBirths_false births : countBirths (fun _ => false) births = 0.
Proof.
  induction births as [|b l IH]; [reflexivity|].
  rewrite countBirths_cons, IH. destruct b; reflexivity.
Qed.

(** What the browser script computes as available for a rule for both
    sexes: the valid birth dates of the years of the rule that the
    analysis counted. *)
Lemma available_eq now sheet range :
  bothSexes range ->
  availableOf (receivedCounts (fst (analyzeExcel tz dayjsOfString now sheet)))
    (startYear range) (endYear range) (gender range)
  = countBirths
      (fun k => (startYear range <=? k) && (k <=? endYear range) && countedYear now k)
      (birthsOf tz dayjsOfString sheet).
Proof.
  intros Hg. unfold availableOf. rewrite fold_left_add, Z.add_0_l.
  pose proof (analyzeExcel_inv tz dayjsOfString now sheet) as [Hy _].
  fold (birthsOf tz dayjsOfString sheet) in Hy.
  rewrite (map_ext _ (fun y => countBirths (fun k => (k =? y) && countedYear now k)
                                 (birthsOf tz dayjsOfString sheet))).
  - destruct (Z.le_gt_cases (endYear range - startYear range + 1) 0) as [Le|Gt].
    + rewrite seqZ_nil by lia. cbn [map]. unfold sumZ. cbn [fold_right].
      rewrite (countBirths_ext _ (fun _ => false)); [rewrite countBirths_false; reflexivity|].
      intros k. destruct (Z.leb_spec (startYear range) k);
        destruct (Z.leb_spec k (endYear range)); cbn [andb]; try reflexivity; lia.
    + replace (endYear range - startYear range + 1)
        with (Z.of_nat (Z.to_nat (endYear range - startYear range + 1))) by lia.
      rewrite sum_years. apply countBirths_ext. intros k.
      destruct (Z.leb_spec (startYear range) k);
        destruct (Z.leb_spec k (endYear range));
        destruct (Z.ltb_spec k
                    (startYear range
                     + Z.of_nat (Z.to_nat (endYear range - startYear range + 1))));
        cbn [andb]; try reflexivity; lia.
  - intros y. unfold receivedCounts. rewrite lookup_fmap. specialize (Hy y).
    assert (String.eqb (gender range) "male" = false
            /\ String.eqb (gender range) "female" = false) as [Em Ef]
      by (destruct Hg as [-> | ->]; split; reflexivity).
    destruct (fst (analyzeExcel tz dayjsOfString now sheet) !! y) as [c|];
      cbn [fmap option_fmap option_map contribution].
    + rewrite Em, Ef. destruct Hy as (<- & _). unfold orZero.
      destruct (Z.eqb_spec (total c) 0); lia.
    + symmetry. exact Hy.
Qed.

End PoolFacts.

Section NoThrowFacts.

Variable now : Dayjs.t.
Variable cols : Columns.
Variable config : Config.
Variable rowsData : list Patient.

Lemma processRanges_no_throw rs : forall st,
  Forall (fun r => ~ overCapacity cols rowsData r) rs ->
  exists st', processRanges now cols config rowsData rs st = inr st'.
Proof.
  induction rs as [|r rs IH]; intros st H; cbn [processRanges]; [eauto|].
  inversion H as [|? ? Hr Hrs]; subst.
  destruct (processRange_cases now cols config rowsData r st)
    as [(_ & ->)|[(Ho & _)|(_ & _ & ws & -> & _)]]; [apply IH, Hrs|contradiction|apply IH, Hrs].
Qed.

End NoThrowFacts.

(** What [processExcel] has read from a sheet that has rows. *)
Lemma rows_read tz dayjsOfString sheet :
  match readSheet tz dayjsOfString sheet with
  | inl _ => sheet = []
  | inr rd =>
      sheet <> []
      /\ birthColIdx rd =
           findBirthDateColumn
             (headersOf colPlaceholder (getRow sheet (findHeaderRow sheet)))
      /\ rowsData rd =
           map (readRow tz dayjsOfString (headers rd) (length (trimmedHeaders rd))
                  (birthColIdx rd))
             (dataRows sheet)
  end.
Proof.
  unfold readSheet. destruct sheet as [|row0 rest]; [reflexivity|].
  cbn [length Nat.ltb Nat.leb].
  cbn [headerRowIdx rowsData headers trimmedHeaders birthColIdx].
  split; [discriminate|]. split; [reflexivity|].
  rewrite eachRow_loop_eq. rewrite app_nil_l.
  replace (findHeaderRow (row0 :: rest) + 1 - 1)%nat
    with (findHeaderRow (row0 :: rest)) by lia.
  unfold trimmedHeadersOf. rewrite length_take. fold (dataRows (row0 :: rest)).
  f_equal. f_equal.
  unfold lastNonEmptyIdxOf.
  pose proof (trimHeaders_loop_spec
                (headersOf colPlaceholder (getRow (row0 :: rest) (findHeaderRow (row0 :: rest))))
                (length (headersOf colPlaceholder
                           (getRow (row0 :: rest) (findHeaderRow (row0 :: rest)))))) as H.
  cbn zeta in H. destruct H as (Hle & _).
  destruct (_ <? _)%nat; lia.
Qed.

(** ** Facts of trimming *)

Section TrimFacts.
Import JsString.

Lemma trimStart_suffix s : exists a, s = (a ++ trimStart s)%string.
Proof.
  induction s as [|c s (a & IH)]; [exists ""%string; reflexivity|].
  cbn [trimStart]. destruct (isWhite c).
  - exists (String c a). rewrite append_cons. f_equal. exact IH.
  - exists ""%string. reflexivity.
Qed.

Lemma trimEnd_prefix s : exists b, s = (trimEnd s ++ b)%string.
Proof.
  induction s as [|c s (b & IH)]; [exists ""%string; reflexivity|].
  cbn [trimEnd]. destruct (trimEnd s) as [|d r] eqn:E.
  - destruct (isWhite c).
    + exists (String c s). reflexivity.
    + exists s. reflexivity.
  - exists b. rewrite append_cons. f_equal. exact IH.
Qed.

(** Trimming does not bring in a character. *)
Lemma trim_keeps_out c s :
  Str.includes s (String c "") = false -> Str.includes (trim s) (String c "") = false.
Proof.
  intros H. unfold trim.
  destruct (trimStart_suffix s) as (a & Ea).
  destruct (trimEnd_prefix (trimStart s)) as (b & Eb).
  rewrite Ea, includes_char_app in H. apply orb_false_iff in H. destruct H as [_ H].
  rewrite Eb, includes_char_app in H. apply orb_false_iff in H. tauto.
Qed.

Lemma trimEnd_idem s : trimEnd (trimEnd s) = trimEnd s.
Proof.
  induction s as [|c s IH]; [reflexivity|]. cbn [trimEnd].
  destruct (trimEnd s) as [|d r] eqn:E.
  - destruct (isWhite c) eqn:W; [reflexivity|]. cbn [trimEnd]. rewrite W. reflexivity.
  - cbn [trimEnd]. cbn [trimEnd] in IH. rewrite IH. reflexivity.
Qed.

(** The result of [trimEnd] starts as its argument does. *)
Lemma trimEnd_head c s :
  trimEnd (String c s) = ""%string \/ exists r, trimEnd (String c s) = String c r.
Proof.
  cbn [trimEnd]. destruct (trimEnd s).
  - destruct (isWhite c); [left; reflexivity|right; eauto].
  - right. eauto.
Qed.

Lemma trimStart_head s :
  trimStart s = ""%string
  \/ exists c r, trimStart s = String c r /\ isWhite c = false.
Proof.
  induction s as [|c s IH]; [left; reflexivity|]. cbn [trimStart].
  destruct (isWhite c) eqn:W; [exact IH|]. right. eauto.
Qed.

Lemma trim_idem s : trim (trim s) = trim s.
Proof.
  unfold trim. destruct (trimStart_head s) as [E|(c & r & E & W)]; rewrite E.
  - reflexivity.
  - destruct (trimEnd_head c r) as [E'|(r' & E')]; rewrite E'; [reflexivity|].
    cbn [trimStart]. rewrite W, <- E'. apply trimEnd_idem.
Qed.

Lemma trim_empty_or_not s : trim s = ""%string \/ trim s <> ""%string.
Proof. destruct (trim s); [left; reflexivity|right; discriminate]. Qed.

(** Leading white space does not change the trimmed string. *)
Lemma trim_pad pad s :
  allChars isWhite pad = true -> trim (pad ++ s) = trim s.
Proof.
  intros H. unfold trim. f_equal.
  induction pad as [|c pad IH]; [reflexivity|].
  cbn [allChars] in H. apply andb_true_iff in H. destruct H as [Hc Hp].
  rewrite append_cons. cbn [trimStart]. rewrite Hc. apply IH, Hp.
Qed.

End TrimFacts.

(** ** Facts of the holiday field *)

Section HolidayFacts.
Import JsString.

(** The parts of entries joined by a comma and a padding. *)
Lemma split_joined_from pad rest : forall p t,
  Str.includes pad "," = false ->
  Str.includes p "," = false ->
  Forall (fun h => Str.includes h "," = false) (t :: rest) ->
  Str.split "," (p ++ String.concat (String "," pad) (t :: rest))
  = (p ++ t)%string :: map (fun h => pad ++ h)%string rest.
Proof.
  induction rest as [|t' rest IH]; intros p t Hpad Hp H;
    inversion H as [|? ? Ht Hrest]; subst.
  - cbn [String.concat map]. apply split_single.
    rewrite includes_char_app, Hp, Ht. reflexivity.
  - rewrite concat_cons by discriminate. rewrite <- append_assoc, append_cons.
    rewrite split_app by (rewrite includes_char_app, Hp, Ht; reflexivity).
    cbn [map]. f_equal. apply IH; assumption.
Qed.

Lemma split_joined pad t rest :
  Str.includes pad "," = false ->
  Forall (fun h => Str.includes h "," = false) (t :: rest) ->
  Str.split "," (String.concat (String "," pad) (t :: rest))
  = t :: map (fun h => pad ++ h)%string rest.
Proof.
  intros Hpad H.
  apply (split_joined_from pad rest ""%string t Hpad eq_refl H).
Qed.

Lemma white_no_comma pad : allChars isWhite pad = true -> Str.includes pad "," = false.
Proof. apply allChars_excludes. reflexivity. Qed.

(** Clean entries joined by commas, each comma followed by white space,
    are read back as they are. *)
Lemma parseHolidays_joined pad entries :
  allChars isWhite pad = true ->
  Forall cleanEntry entries ->
  parseHolidays (String.concat (String "," pad) entries) = entries.
Proof.
  intros Hpad H. unfold parseHolidays.
  destruct entries as [|t rest]; [reflexivity|].
  rewrite split_joined.
  - cbn [map List.filter]. inversion H as [|? ? (Hn & _ & Ht) Hrest]; subst.
    rewrite Ht. apply String.eqb_neq in Hn. rewrite Hn. cbn [negb]. f_equal.
    clear H Hn Ht. induction Hrest as [|h l (Hn & _ & Ht) _ IH]; [reflexivity|].
    cbn [map List.filter]. rewrite trim_pad by exact Hpad. rewrite Ht.
    apply String.eqb_neq in Hn. rewrite Hn. cbn [negb]. f_equal. exact IH.
  - apply white_no_comma, Hpad.
  - eapply Forall_impl; [exact H|]. intros h (_ & Hc & _). exact Hc.
Qed.

Lemma zeros_chars n : allChars isDigitOrMinus (Dayjs.zeros n) = true.
Proof. induction n as [|n IH]; [reflexivity|]. cbn [Dayjs.zeros allChars]. rewrite IH. reflexivity. Qed.

Lemma padStart_chars s n :
  allChars isDigitOrMinus s = true -> allChars isDigitOrMinus (Dayjs.padStart s n) = true.
Proof. intros H. unfold Dayjs.padStart. rewrite allChars_app, zeros_chars, H. reflexivity. Qed.

Lemma format_chars d : allChars isDigitOrMinus (Dayjs.format d) = true.
Proof.
  unfold Dayjs.format. rewrite !allChars_app.
  rewrite !padStart_chars by apply stringOfZ_chars. reflexivity.
Qed.

Lemma padStart_nonempty s n : s <> ""%string -> Dayjs.padStart s n <> ""%string.
Proof.
  intros H. unfold Dayjs.padStart. destruct (Dayjs.zeros _); [|discriminate].
  exact H.
Qed.

(** A formatted date is a clean entry. *)
Lemma format_clean d : cleanEntry (Dayjs.format d).
Proof.
  pose proof (format_chars d) as H. split; [|split].
  - unfold Dayjs.format.
    pose proof (padStart_nonempty (Dayjs.stringOfZ (Dayjs.year d)) 4
                  (stringOfZ_nonempty _)) as Hn.
    destruct (Dayjs.padStart (Dayjs.stringOfZ (Dayjs.year d)) 4); [congruence|].
    rewrite append_cons. discriminate.
  - apply (allChars_excludes isDigitOrMinus); [reflexivity|exact H].
  - apply trim_id. apply (allChars_impl isDigitOrMinus); [apply digits_not_white|exact H].
Qed.

End HolidayFacts.

(** ** Facts of the sheets *)

Section SheetFacts.

Variable now : Dayjs.t.
Variable cols : Columns.
Variable config : Config.
Variable trimmedHeaders : list string.

#[local] Abbreviation hsOf := (rangeHeadersOf trimmedHeaders).
#[local] Abbreviation placedRows' := (placedRows cols config).
#[local] Abbreviation workingDaysOf m :=
  (getWorkingDays now (holidays config) (saturdayWorking config)
     (targetYear config) (Z.of_nat m)).
#[local] Abbreviation stepSheets vc cs pool :=
  (monthStepSheets now cols config trimmedHeaders vc cs pool).
#[local] Abbreviation step vc cs pool := (monthStep now cols config vc cs pool).

(** One month of the distribution branch with its sheet, in closed
    form. *)
Lemma monthStepSheets_eq vc countsToUse pool rows pIndex sheets m :
  stepSheets vc countsToUse pool (rows, pIndex, sheets) m
  = if (nth m countsToUse 0 =? 0) || (length (workingDaysOf m) =? 0)%nat
    then (rows, pIndex, sheets)
    else
      let p4m := take (Z.to_nat (nth m countsToUse 0)) (drop pIndex pool) in
      let placed :=
        placedRows' vc p4m
          (dayPlan (Z.of_nat (length p4m)) (Z.of_nat (length (workingDaysOf m)))
             0 (workingDaysOf m)) 1 in
      (rows ++ placed, (pIndex + length p4m)%nat,
       if (length p4m =? 0)%nat then sheets
       else sheets ++ [monthSheet (hsOf vc) m placed]).
Proof.
  unfold monthStepSheets.
  destruct (nth m countsToUse 0 =? 0); [reflexivity|]. cbn [orb].
  destruct (Nat.eqb_spec (length (workingDaysOf m)) 0) as [E0|N0]; [reflexivity|].
  rewrite takePatients_eq. cbn [app].
  set (p4m := take (Z.to_nat (nth m countsToUse 0)) (drop pIndex pool)).
  assert (Nat.min (Z.to_nat (nth m countsToUse 0)) (length pool - pIndex) = length p4m) as ->.
  { unfold p4m. rewrite length_take, length_drop. reflexivity. }
  destruct (Nat.eqb_spec (length p4m) 0) as [Ep|Np].
  - cbn zeta. destruct p4m; [|discriminate]. cbn [placedRows]. rewrite app_nil_r. reflexivity.
  - cbn zeta.
    pose proof (length_dayPlan_all (Z.of_nat (length p4m)) (workingDaysOf m)
                  ltac:(lia) ltac:(lia)) as Hl.
    rewrite Nat2Z.id in Hl.
    rewrite placeOnDays_eq
      by (cbn [currentPatientIdx]; rewrite Hl; lia).
    cbn [currentPatientIdx monthlyIdCounter monthlyRows app].
    rewrite Hl. rewrite drop_0, take_ge by lia. reflexivity.
Qed.

(** The months of the distribution branch: the rows they add and the
    sheets they add, month by month. *)
Lemma fold_monthStepSheets vc countsToUse pool n : forall a rows pIndex sheets,
  exists parts : list (nat * list Row),
    fold_left (stepSheets vc countsToUse pool) (seq a n) (rows, pIndex, sheets)
    = (rows ++ concat (map snd parts),
       snd (fold_left (step vc countsToUse pool) (seq a n) (rows, pIndex)),
       sheets ++ map (fun x => monthSheet (hsOf vc) (fst x) (snd x)) parts)
    /\ fst (fold_left (step vc countsToUse pool) (seq a n) (rows, pIndex))
       = rows ++ concat (map snd parts)
    /\ Forall (fun x => (a <= fst x < a + n)%nat /\ snd x <> []
                        /\ exists ps days, length ps = length days
                             /\ snd x = placedRows' vc ps days 1) parts
    /\ StronglySorted lt (map fst parts).
Proof.
  induction n as [|n IH]; intros a rows pIndex sheets.
  - exists []. cbn. rewrite !app_nil_r. repeat split; constructor.
  - cbn [seq fold_left]. rewrite monthStepSheets_eq, monthStep_eq.
    destruct ((nth a countsToUse 0 =? 0) || (length (workingDaysOf a) =? 0)%nat) eqn:Skip.
    + destruct (IH (S a) rows pIndex sheets) as (parts & E1 & E2 & Hp & Hs).
      exists parts. split; [exact E1|]. split; [exact E2|]. split; [|exact Hs].
      eapply Forall_impl; [exact Hp|]. intros x (Hm & Hr). split; [lia|exact Hr].
    + cbn zeta.
      set (p4m := take (Z.to_nat (nth a countsToUse 0)) (drop pIndex pool)).
      set (plan := dayPlan (Z.of_nat (length p4m)) (Z.of_nat (length (workingDaysOf a)))
                     0 (workingDaysOf a)).
      apply orb_false_iff in Skip. destruct Skip as [_ Hwd].
      apply Nat.eqb_neq in Hwd.
      assert (length plan = length p4m) as Hlen.
      { unfold plan. rewrite length_dayPlan_all by lia. apply Nat2Z.id. }
      destruct (IH (S a) (rows ++ placedRows' vc p4m plan 1) (pIndex + length p4m)%nat
                  (if (length p4m =? 0)%nat then sheets
                   else sheets ++ [monthSheet (hsOf vc) a (placedRows' vc p4m plan 1)]))
        as (parts & E1 & E2 & Hp & Hs).
      destruct (Nat.eqb_spec (length p4m) 0) as [Ep|Np].
      * exists parts. destruct p4m; [|discriminate]. cbn [placedRows] in *.
        rewrite app_nil_r in *.
        split; [exact E1|]. split; [exact E2|]. split; [|exact Hs].
        eapply Forall_impl; [exact Hp|]. intros x (Hm & Hr). split; [lia|exact Hr].
      * exists ((a, placedRows' vc p4m plan 1) :: parts).
        cbn [map concat fst snd]. rewrite E1, E2, <- !app_assoc. cbn [app].
        split; [reflexivity|]. split; [reflexivity|]. split.
        -- constructor.
           ++ cbn [fst snd]. split; [lia|]. split.
              ** intros E. apply (f_equal (@length Row)) in E.
                 rewrite length_placedRows in E by (symmetry; exact Hlen).
                 cbn in E. lia.
              ** exists p4m, plan. split; [symmetry; exact Hlen|reflexivity].
           ++ eapply Forall_impl; [exact Hp|]. intros x (Hm & Hr). split; [lia|exact Hr].
        -- constructor; [exact Hs|].
           apply List.Forall_forall. intros m Hin. apply in_map_iff in Hin.
           destruct Hin as (x & <- & Hx). rewrite List.Forall_forall in Hp.
           destruct (Hp x Hx) as (Hm & _). lia.
Qed.

Lemma lookup_placedRows vc : forall ps days id (i : nat) row,
  placedRows' vc ps days id !! i = Some row ->
  exists p d, ps !! i = Some p /\ days !! i = Some d
              /\ row = placedRow cols config vc p d (Nat.iter i (bumpId cols) id).
Proof.
  induction ps as [|p ps IH]; intros [|d days] id i row H; try discriminate.
  destruct i as [|i]; cbn [placedRows] in H.
  - injection H as <-. exists p, d. auto.
  - cbn in H. destruct (IH _ _ _ _ H) as (p' & d' & Ep & Ed & ->).
    exists p', d'. rewrite Nat.iter_succ_r. auto.
Qed.

(** The identifier of a placed row, unless a visit column has the name of
    the identifier column. *)
Lemma placedRow_id idKey vc p d id :
  idColKey cols = Some idKey -> (1 <= vc)%nat -> ~ In idKey (visitKeysOf vc) ->
  getProp (placedRow cols config vc p d id) idKey = VNum id.
Proof.
  intros E Hvc Hn. unfold getProp, placedRow.
  rewrite assignDates_other.
  - unfold setId. rewrite E, lookup_insert_eq. reflexivity.
  - rewrite length_cycleDates by exact Hvc. rewrite length_visitKeysOf. lia.
  - rewrite drop_0. rewrite list_elem_of_In. exact Hn.
Qed.

Lemma lookup_map {A B} (f : A -> B) l (i : nat) :
  map f l !! i = option_map f (l !! i).
Proof.
  revert i. induction l as [|x l IH]; intros [|i]; try reflexivity. cbn. apply IH.
Qed.

Lemma lookup_valuesOf headers (row : Row) (j : nat) key :
  headers !! j = Some key -> valuesOf headers row !! j = Some (getProp row key).
Proof. intros H. unfold valuesOf. rewrite lookup_map, H. reflexivity. Qed.

Lemma lookup_renumber rows : forall id (i : nat),
  renumber cols rows id !! i
  = option_map (setId cols (Nat.iter i (bumpId cols) id)) (rows !! i).
Proof.
  induction rows as [|r rows IH]; intros id [|i]; try reflexivity.
  cbn [renumber]. rewrite !lookup_cons. rewrite IH, Nat.iter_succ_r. reflexivity.
Qed.

Lemma length_renumber rows : forall id, length (renumber cols rows id) = length rows.
Proof. induction rows as [|r rows IH]; intros id; [reflexivity|]. cbn. rewrite IH. reflexivity. Qed.

(** The unplanned rows, one by one. *)
Lemma unplannedLoop_eq ps : forall id acc,
  unplannedLoop cols ps id acc
  = acc ++ map (fun r => <[ "_isUnplanned"%string := VBool true ]> r)
             (renumber cols (map (baseRow cols) ps) id).
Proof.
  induction ps as [|p ps IH]; intros id acc; cbn [unplannedLoop map renumber].
  - rewrite app_nil_r. reflexivity.
  - rewrite IH, <- app_assoc. reflexivity.
Qed.

Lemma setId_id idKey id (row : Row) :
  idColKey cols = Some idKey -> getProp (setId cols id row) idKey = VNum id.
Proof. intros E. unfold getProp, setId. rewrite E, lookup_insert_eq. reflexivity. Qed.

End SheetFacts.

Section FlagFacts.

Variable now : Dayjs.t.
Variable cols : Columns.
Variable config : Config.

Lemma flag_not_visitKey vc : ~ In "_isUnplanned"%string (visitKeysOf vc).
Proof.
  unfold visitKeysOf. destruct (vc =? 1)%nat.
  - intros [E|[]]. discriminate.
  - intros H. apply in_map_iff in H. destruct H as (v & E & _).
    exact (visitKey_not_flag v E).
Qed.

(** An assigned row carries the flag of the person it was made from,
    unless the identifier or the birth-date column has that name. *)
Lemma assigned_row_flag range pool row :
  In row (fst (assignCohort now cols config range pool)) ->
  idColKey cols <> Some "_isUnplanned"%string ->
  birthKey cols <> Some "_isUnplanned"%string ->
  exists p, In p pool /\ row !! "_isUnplanned"%string = fields p !! "_isUnplanned"%string.
Proof.
  intros Hin Hid Hb. set (vc := visitCountOf range) in *.
  assert (forall ds base, length ds = vc ->
            assignDates vc (visitKeysOf vc) 0 ds base !! "_isUnplanned"%string
            = base !! "_isUnplanned"%string) as Hassign.
  { intros ds base Hl. apply assignDates_other.
    - rewrite length_visitKeysOf. cbn. lia.
    - rewrite drop_0, list_elem_of_In. apply flag_not_visitKey. }
  unfold assignCohort in Hin. fold vc in Hin. destruct (useBirthday range).
  - unfold logicA in Hin. cbn [fst] in Hin. apply in_map_iff in Hin.
    destruct Hin as (p & <- & Hp). exists p. split; [exact Hp|].
    unfold birthdayRow. rewrite Hassign.
    + apply baseRow_lookup; [assumption|discriminate].
    + rewrite birthdayDates_eq, length_sortByValue, length_map, length_seq. reflexivity.
  - apply logicB_rows in Hin. destruct Hin as (p & d & id & m & _ & Hp & _ & ->).
    exists p. split; [exact Hp|].
    unfold placedRow. rewrite Hassign.
    + rewrite setId_lookup_ne by assumption. apply baseRow_lookup; [assumption|discriminate].
    + apply length_cycleDates, visitCountOf_pos.
Qed.

End FlagFacts.

Section BirthdaySheetFacts.
Import Dayjs.

Variable now : Dayjs.t.
Variable cols : Columns.
Variable config : Config.
Variable trimmedHeaders : list string.

#[local] Abbreviation monthOf vc := (fun p => Z.to_nat (firstMonthOf now config vc p)).
#[local] Abbreviation rowOf vc := (birthdayRow now cols config vc).
#[local] Abbreviation hsOf := (rangeHeadersOf trimmedHeaders).

(** The group of a month after the patients have been filed: those it had
    and the rows of the patients whose first visit falls in that month, in
    the order of the pool. *)
Lemma groupByMonth_lookup vc pool : forall (g : list (list Row)) (m : nat),
  groupByMonth now cols config vc pool g !! m
  = option_map
      (fun l => l ++ map (rowOf vc)
                       (List.filter (fun p => (monthOf vc p =? m)%nat) pool))
      (g !! m).
Proof.
  induction pool as [|p rest IH]; intros g m; cbn [groupByMonth List.filter map].
  - destruct (g !! m); cbn [option_map]; [rewrite app_nil_r|]; reflexivity.
  - rewrite IH. destruct (Nat.eqb_spec (monthOf vc p) m) as [E|N].
    + rewrite <- E, list_lookup_alter_eq.
      destruct (g !! monthOf vc p); cbn [fmap option_fmap option_map map]; [|reflexivity].
      rewrite <- app_assoc. reflexivity.
    + rewrite list_lookup_alter_ne by exact N. reflexivity.
Qed.

(** The rendering loop adds one sheet for each month that has a group. *)
Lemma fold_renderMonth vc byMonth n : forall a sheets,
  fold_left (renderMonth cols trimmedHeaders vc byMonth) (seq a n) sheets
  = sheets ++
    flat_map
      (fun m =>
         if (length (nth m byMonth []) =? 0)%nat then []
         else [monthSheet (hsOf vc) m (renumber cols (nth m byMonth []) 1)])
      (seq a n).
Proof.
  induction n as [|n IH]; intros a sheets; cbn [seq fold_left flat_map].
  - rewrite app_nil_r. reflexivity.
  - rewrite IH. unfold renderMonth.
    destruct (length (nth a byMonth []) =? 0)%nat; [reflexivity|].
    rewrite <- app_assoc. reflexivity.
Qed.

(** The first visit of a person with a birth day falls in a month of the
    calendar. *)
Lemma firstMonthOf_bounds vc p b :
  _birthDate p = Some b -> 1 <= date b ->
  0 <= firstMonthOf now config vc p <= 11.
Proof.
  intros Eb Hb. unfold firstMonthOf. rewrite Eb.
  destruct (birthdayDates now (targetYear config) (holidays config)
              (saturdayWorking config) vc (date b)) as [|d ds] eqn:E; [lia|].
  assert (In d (birthdayDates now (targetYear config) (holidays config)
                  (saturdayWorking config) vc (date b))) as Hin
    by (rewrite E; left; reflexivity).
  rewrite birthdayDates_eq in Hin.
  apply (Permutation_in _ (sortByValue_perm _)) in Hin.
  apply in_map_iff in Hin. destruct Hin as (v & <- & Hv). apply in_seq in Hv.
  rewrite birthdayVisit_eq by (lia || assumption).
  match goal with |- context [findNextWorkingDay _ _ ?x] =>
    assert (valid x) as Hx end.
  { pose proof (month_index_bounds vc v ltac:(lia)) as Hm.
    pose proof (CalendarFacts.daysInMonth_bounds (targetYear config)
                  (12 * Z.of_nat v / Z.of_nat vc)) as B.
    unfold valid. cbn [year month date]. lia. }
  apply (valid_snap (holidays config) (saturdayWorking config)) in Hx.
  destruct Hx as [Hm _]. exact Hm.
Qed.

Lemma length_filter_split {A} (f : A -> nat) (l : list A) n :
  length (List.filter (fun x => (f x <? S n)%nat) l)
  = (length (List.filter (fun x => (f x <? n)%nat) l)
     + length (List.filter (fun x => (f x =? n)%nat) l))%nat.
Proof.
  induction l as [|x l IH]; [reflexivity|]. cbn [List.filter].
  destruct (Nat.ltb_spec (f x) (S n)); destruct (Nat.ltb_spec (f x) n);
    destruct (Nat.eqb_spec (f x) n); cbn [length]; lia.
Qed.

(** The monthly sheets of the birthday branch hold as many rows as there
    are people whose first visit falls in one of the months written. *)
Lemma length_birthday_sheets vc pool n :
  length
    (concat
       (map sheetRows
          (flat_map
             (fun m =>
                if (length (List.filter (fun p => (monthOf vc p =? m)%nat) pool) =? 0)%nat
                then []
                else [monthSheet (hsOf vc) m
                        (renumber cols
                           (map (rowOf vc)
                              (List.filter (fun p => (monthOf vc p =? m)%nat) pool)) 1)])
             (seq 0 n))))
  = length (List.filter (fun p => (monthOf vc p <? n)%nat) pool).
Proof.
  induction n as [|n IH].
  - cbn. induction pool as [|p l IHl]; [reflexivity|exact IHl].
  - rewrite seq_S, flat_map_app, map_app, concat_app, length_app, IH.
    rewrite length_filter_split. f_equal. cbn [flat_map Nat.add]. rewrite app_nil_r.
    destruct (Nat.eqb_spec (length (List.filter (fun p => (monthOf vc p =? n)%nat) pool)) 0)
      as [E|N]; [rewrite E; reflexivity|].
    cbn [map concat sheetRows monthSheet]. rewrite app_nil_r.
    rewrite length_map, length_renumber, length_map. reflexivity.
Qed.

End BirthdaySheetFacts.

Lemma flat_map_ext_seq {B} (f g : nat -> list B) n : forall a,
  (forall m, (a <= m < a + n)%nat -> f m = g m) ->
  flat_map f (seq a n) = flat_map g (seq a n).
Proof.
  induction n as [|n IH]; intros a H; [reflexivity|].
  cbn [seq flat_map]. rewrite (H a) by lia. f_equal. apply IH.
  intros m Hm. apply H. lia.
Qed.

(** ** More facts of the working days of a month *)

Section MonthFacts.
Import Calendar Dayjs CalendarFacts DayjsFacts.

Lemma monthDays_In y m t n : forall k j,
  k <= j < k + Z.of_nat n -> In (mk y m j t) (monthDays y m k t n).
Proof.
  induction n as [|n IH]; intros k j H; [lia|]. cbn [monthDays].
  destruct (Z.eq_dec j k) as [->|N]; [left; reflexivity|].
  right. apply IH. lia.
Qed.

(** The days of one month, at one time of day, follow each other. *)
Lemma monthDays_sorted y m t n : forall k,
  0 <= m <= 11 -> StronglySorted strictlyBefore (monthDays y m k t n).
Proof.
  induction n as [|n IH]; intros k Hm; cbn [monthDays]; constructor.
  - apply IH, Hm.
  - apply List.Forall_forall. intros d Hin. apply in_monthDays in Hin.
    destruct Hin as (j & Hj & ->). unfold strictlyBefore, valueOf, dayNumber.
    cbn [year month date time]. rewrite !MakeDay_month by exact Hm.
    unfold msPerDay. lia.
Qed.

Lemma StronglySorted_filter {A} (R : A -> A -> Prop) (f : A -> bool) l :
  StronglySorted R l -> StronglySorted R (List.filter f l).
Proof.
  induction 1 as [|x l Hs IH Hx]; cbn [List.filter]; [constructor|].
  destruct (f x); [|exact IH]. constructor; [exact IH|].
  apply List.Forall_forall. intros y Hy. apply filter_In in Hy.
  rewrite List.Forall_forall in Hx. apply Hx, Hy.
Qed.

Lemma snap_working holidays saturdayWorking d :
  isWorkingDay holidays saturdayWorking d = true ->
  findNextWorkingDay holidays saturdayWorking d = d.
Proof.
  intros W. unfold findNextWorkingDay.
  change 60%nat with (S 59). cbn [findNextWorkingDay_loop]. rewrite W. reflexivity.
Qed.

End MonthFacts.

(** ** Facts of file names *)

Section NameFacts.

(** Two strings cut at the first occurrence of a character agree part by
    part. *)
Lemma app_sep_inj c a1 : forall a2 b1 b2,
  Str.includes a1 (String c "") = false ->
  Str.includes a2 (String c "") = false ->
  (a1 ++ String c b1)%string = (a2 ++ String c b2)%string ->
  a1 = a2 /\ b1 = b2.
Proof.
  induction a1 as [|d a1 IH]; intros a2 b1 b2 H1 H2 E.
  - destruct a2 as [|d2 a2].
    + cbn in E. injection E as ->. auto.
    + rewrite append_cons in E. cbn in E. injection E as <- _.
      rewrite includes_char_cons, Ascii.eqb_refl in H2. discriminate.
  - rewrite includes_char_cons in H1. apply orb_false_iff in H1. destruct H1 as [Hd H1].
    destruct a2 as [|d2 a2].
    + rewrite append_cons in E. cbn in E. injection E as -> _.
      rewrite Ascii.eqb_refl in Hd. discriminate.
    + rewrite !append_cons in E. injection E as <- E.
      rewrite includes_char_cons in H2. apply orb_false_iff in H2. destruct H2 as [_ H2].
      destruct (IH a2 b1 b2 H1 H2 E) as [-> ->]. auto.
Qed.

Lemma string_of_uint_digits u :
  allChars isDigit (NilEmpty.string_of_uint u) = true.
Proof. induction u; cbn [NilEmpty.string_of_uint allChars]; try rewrite IHu; reflexivity. Qed.

Lemma nilzero_digits u :
  allChars isDigit (NilZero.string_of_uint u) = true
  /\ NilZero.string_of_uint u <> ""%string.
Proof.
  destruct u; (split; [first [reflexivity|apply string_of_uint_digits]|discriminate]).
Qed.

Lemma stringOfZ_numeral n : numeral (Dayjs.stringOfZ n).
Proof.
  unfold numeral, Dayjs.stringOfZ, NilZero.string_of_int.
  destruct (Z.to_int n) as [u|u]; destruct (nilzero_digits u) as [Hd Hn];
    exists (NilZero.string_of_uint u); auto.
Qed.

Lemma digits_no_minus ds :
  allChars isDigit ds = true -> Str.includes ds "-" = false.
Proof. apply allChars_excludes. reflexivity. Qed.

(** Two numerals, each followed by a minus sign and more text, agree when
    the whole texts do. *)
Lemma numeral_sep_inj x1 x2 y1 y2 :
  numeral x1 -> numeral x2 ->
  (x1 ++ String "-" y1)%string = (x2 ++ String "-" y2)%string ->
  x1 = x2 /\ y1 = y2.
Proof.
  intros (d1 & N1 & D1 & S1) (d2 & N2 & D2 & S2) E.
  assert (forall d r, allChars isDigit (String d r) = true -> d <> "-"%char) as Hfirst.
  { intros d r H. cbn [allChars] in H. apply andb_true_iff in H. destruct H as [H _].
    intros ->. discriminate. }
  destruct S1 as [-> | ->]; destruct S2 as [-> | ->].
  - apply app_sep_inj in E; [exact E|apply digits_no_minus; assumption..].
  - destruct d1 as [|c r]; [congruence|]. rewrite !append_cons in E.
    injection E as -> _. exfalso. exact (Hfirst _ _ D1 eq_refl).
  - destruct d2 as [|c r]; [congruence|]. rewrite !append_cons in E.
    injection E as <- _. exfalso. exact (Hfirst _ _ D2 eq_refl).
  - rewrite !append_cons in E. injection E as E.
    apply app_sep_inj in E; [|apply digits_no_minus; assumption..].
    destruct E as [-> ->]. auto.
Qed.

Lemma numeral_no_underscore x : numeral x -> Str.includes x "_" = false.
Proof.
  intros (ds & _ & D & S).
  assert (Str.includes ds "_" = false) as H
    by (apply (allChars_excludes isDigit); [reflexivity|exact D]).
  destruct S as [-> | ->]; [exact H|].
  rewrite includes_char_cons, H. reflexivity.
Qed.

End NameFacts.

(** ** Facts of the headers *)

Section HeaderFacts.
Import JsString.










End HeaderFacts.

(** ** Column detection *)


(** X2.  The trimmed headers are a prefix of the headers; every header
    cut off is empty or starts with "Col"; when something is cut off, the
    last header kept is neither; and the birth-date column is never cut
    off: in a row that has headers, the header at the birth position is
    among the trimmed ones. *)
Theorem trimmed_headers_keep_birth_column (headers : list string) :
  let birthColIdx := findBirthDateColumn headers in
  let kept := trimmedHeadersOf headers birthColIdx in
  exists dropped,
    headers = kept ++ dropped
    /\ Forall steppedOver dropped
    /\ (dropped = [] \/ exists h, last kept = Some h /\ ~ steppedOver h)
    /\ (headers <> [] ->
        exists h, kept !! (birthColIdx - 1)%nat = Some h
                  /\ headers !! (birthColIdx - 1)%nat = Some h).
Proof.
  intros birthColIdx kept. subst kept. unfold trimmedHeadersOf, lastNonEmptyIdxOf.
  pose proof (trimHeaders_loop_spec headers (length headers)) as H. cbn zeta in H.
  destruct H as (Hle & Hmid & Hlast).
  pose proof (findBirthDateColumn_bounds headers) as Hb. fold birthColIdx in Hb.
  set (n' := trimHeaders_loop headers (length headers)) in *.
  destruct (Nat.ltb_spec n' birthColIdx) as [Lt|Ge].
  - exists []. rewrite firstn_all, app_nil_r.
    split; [reflexivity|]. split; [constructor|]. split; [left; reflexivity|].
    intros Hne. destruct headers as [|h0 rest]; [congruence|]. cbn [length] in Hb.
    destruct (lookup_lt_is_Some_2 (h0 :: rest) (birthColIdx - 1)%nat) as [h Eh];
      [cbn [length]; lia|].
    exists h. split; exact Eh.
  - exists (drop n' headers). split; [symmetry; apply take_drop|].
    split.
    { apply List.Forall_forall. intros h Hin. apply list_elem_of_In in Hin.
      apply list_elem_of_lookup in Hin. destruct Hin as (k & Ek).
      rewrite lookup_drop in Ek. apply (Hmid (n' + k)%nat); [|exact Ek].
      apply lookup_lt_Some in Ek. lia. }
    split.
    { destruct Hlast as [Z0|(h & Eh & Hn)]; [lia|].
      right. exists h. split; [|exact Hn].
      rewrite last_lookup, length_take, lookup_take_lt by lia.
      replace (Init.Nat.pred (n' `min` length headers)) with (n' - 1)%nat by lia.
      exact Eh. }
    intros Hne.
    destruct (lookup_lt_is_Some_2 headers (birthColIdx - 1)%nat) as [h Eh]; [lia|].
    exists h. split; [|exact Eh]. rewrite lookup_take_lt by lia. exact Eh.
Qed.

(** X3.  The identifier column is the first header that mentions one of
    "№", "t/r", "no", "tartib" in any letter case, and the first header
    of the row when none does; the name column is the first header that
    mentions one of "f.i.sh", "fish", "ism", "name", "familiya", and the
    second header of the row (none in a row of fewer than two) when none
    does. *)
Theorem detected_key_columns (headers : list string) :
  (forall h, firstToMention idKeywords headers h -> detectIdColKey headers = Some h)
  /\ (Forall (fun h => ~ mentionsOneOf idKeywords h) headers ->
      detectIdColKey headers = headers !! 0%nat)
  /\ (forall h, firstToMention nameKeywords headers h ->
      detectNameColKey headers = Some h)
  /\ (Forall (fun h => ~ mentionsOneOf nameKeywords h) headers ->
      detectNameColKey headers = headers !! 1%nat).
Proof.
  assert (forall keywords h,
            Forall (fun k => k <> ""%string) keywords ->
            firstToMention keywords headers h -> noKey (Some h) = false) as Hkey.
  { intros keywords h Hk (i & _ & Hm & _). cbn. apply String.eqb_neq.
    intros ->. exact (mentions_empty keywords Hk Hm). }
  assert (Forall (fun k => k <> ""%string) idKeywords) as Hid
    by (repeat constructor; discriminate).
  assert (Forall (fun k => k <> ""%string) nameKeywords) as Hname
    by (repeat constructor; discriminate).
  split; [|split; [|split]].
  - intros h Hf. unfold detectIdColKey.
    rewrite (proj2 (find_firstToMention idKeywords headers h) Hf).
    rewrite (Hkey idKeywords h Hid Hf). reflexivity.
  - intros Hn. unfold detectIdColKey.
    rewrite (proj2 (find_none_mentions idKeywords headers) Hn). cbn [noKey andb].
    destruct headers; reflexivity.
  - intros h Hf. unfold detectNameColKey.
    rewrite (proj2 (find_firstToMention nameKeywords headers h) Hf).
    rewrite (Hkey nameKeywords h Hname Hf). reflexivity.
  - intros Hn. unfold detectNameColKey.
    rewrite (proj2 (find_none_mentions nameKeywords headers) Hn). cbn [noKey andb].
    destruct headers as [|h0 [|h1 rest]]; reflexivity.
Qed.

(** ** Header row and rows *)

(** X4.  [findHeaderRow] returns the first of the first fifteen rows that
    has a cell whose text mentions a header keyword: no row above it has
    one.  When none of these rows has one, it returns 1.  The result never
    exceeds 15 nor the number of rows (and is 1 for an empty sheet). *)
Theorem header_row_first_match (sheet : Sheet) :
  let r := findHeaderRow sheet in
  (1 <= r <= Nat.max 1 (Nat.min 15 (length sheet)))%nat
  /\ (forall r' : nat, (1 <= r' < r)%nat -> ~ headerLike (getRow sheet r'))
  /\ (headerLike (getRow sheet r)
      \/ (r = 1%nat
          /\ forall r' : nat, (1 <= r' <= Nat.min 15 (length sheet))%nat ->
               ~ headerLike (getRow sheet r'))).
Proof.
  intros r. split; [apply findHeaderRow_bounds|].
  subst r. unfold findHeaderRow.
  destruct (findHeaderRow_loop sheet (Nat.min 15 (length sheet)) 1) as [r|] eqn:E;
    cbn [default from_option id].
  - apply findHeaderRow_loop_Some in E. destruct E as (j & Hj & -> & Hh & Hmin).
    split; [|left; exact Hh].
    intros r' Hr. replace r' with (1 + (r' - 1))%nat by lia. apply Hmin. lia.
  - pose proof (proj1 (findHeaderRow_loop_None sheet _ 1) E) as Hn.
    split; [intros r' Hr; lia|]. right. split; [reflexivity|].
    intros r' Hr. replace r' with (1 + (r' - 1))%nat by lia. apply Hn. lia.
Qed.

(** X5.  [processExcel] refuses a worksheet without rows and nothing
    else.  Otherwise [rowsData] has one entry for every row below the
    header row that has a value in some cell, in the order of the sheet:
    rows at or above the header row and rows without values are skipped,
    no row is read twice. *)
Theorem rows_read_below_header (tz : Z) (dayjsOfString : string -> option Dayjs.t)
    (sheet : Sheet) :
  match readSheet tz dayjsOfString sheet with
  | inl EmptyFile => sheet = []
  | inr rd =>
      sheet <> []
      /\ headerRowIdx rd = findHeaderRow sheet
      /\ rowsData rd =
           map (readRow tz dayjsOfString (headers rd) (length (trimmedHeaders rd))
                  (birthColIdx rd))
             (List.filter hasValues (drop (headerRowIdx rd) sheet))
  end.
Proof.
  unfold readSheet. destruct sheet as [|row0 rest]; [reflexivity|].
  cbn [length Nat.ltb Nat.leb].
  cbn [headerRowIdx rowsData headers trimmedHeaders birthColIdx].
  split; [discriminate|]. split; [reflexivity|].
  rewrite eachRow_loop_eq. rewrite app_nil_l.
  replace (findHeaderRow (row0 :: rest) + 1 - 1)%nat
    with (findHeaderRow (row0 :: rest)) by lia.
  unfold trimmedHeadersOf. rewrite length_take.
  f_equal. f_equal.
  unfold lastNonEmptyIdxOf.
  pose proof (trimHeaders_loop_spec
                (headersOf colPlaceholder (getRow (row0 :: rest) (findHeaderRow (row0 :: rest))))
                (length (headersOf colPlaceholder
                           (getRow (row0 :: rest) (findHeaderRow (row0 :: rest)))))) as H.
  cbn zeta in H. destruct H as (Hle & _).
  destruct (_ <? _)%nat; lia.
Qed.


(** ** Birth dates *)

Section ParseDateProperties.
Import Calendar Dayjs CalendarFacts DayjsFacts EpochFacts.

Variable tz : Z.
Variable dayjsOfString : string -> option Dayjs.t.

#[local] Abbreviation parse := (parseDate tz dayjsOfString).

(** X7.  A numeric birth cell that is not a year.  A number below 1900,
    or between 2101 and 3999, or beyond the last serial number a [Date]
    can hold, gives an invalid date.  A serial number from 4000 on gives
    the local date and time of midnight UTC of that day: a day of the
    calendar whose instant is [(n - 25569)] days after the epoch, shifted
    by the zone; for any zone within a day of UTC its year is 1910 or
    later. *)
Theorem numeric_birth_cell (n : Z) :
  (n < 1900 \/ 2100 < n < 4000 \/ 100025569 < n -> parse (Plain (VNum n)) = None)
  /\ (4000 <= n <= 100025569 ->
      exists d,
        parse (Plain (VNum n)) = Some d
        /\ valid d /\ validTime d
        /\ valueOf d = (n - 25569) * msPerDay + tz
        /\ (- msPerDay <= tz <= msPerDay -> 1910 <= year d)).
Proof.
  split.
  - intros [H|[H|H]].
    + unfold parseDate. destruct (Z.leb_spec 1900 n); [lia|]. cbn [andb].
      destruct (Z.ltb_spec n 4000); [reflexivity|lia].
    + unfold parseDate. destruct (Z.leb_spec n 2100); [lia|]. rewrite andb_false_r.
      destruct (Z.ltb_spec n 4000); [reflexivity|lia].
    + rewrite parseDate_serial by lia. unfold dayjsOfMillis.
      destruct (Z.leb_spec (Z.abs ((n - 25569) * msPerDay)) maxTime) as [L|G];
        [|reflexivity].
      unfold msPerDay, maxTime in L. lia.
  - intros H.
    destruct (parseDate_serial_spec tz dayjsOfString n H) as (d & E & Hv & Ht & Hval).
    exists d. split; [exact E|]. split; [exact Hv|]. split; [exact Ht|].
    split; [exact Hval|]. intros Htz.
    apply year_from_dayNumber; [exact Hv|].
    change (DayFromYear 1910) with (-21915).
    unfold valueOf in Hval. unfold validTime in Ht. unfold msPerDay in *. lia.
Qed.


End ParseDateProperties.


(** X9.  The text the sample generator writes for a birth date, day,
    month and year separated by dots, is handed to dayjs reordered as
    year-month-day, whatever the three numbers are. *)
Theorem generated_birth_text_is_reordered (tz : Z)
    (dayjsOfString : string -> option Dayjs.t) (day month year : Z) :
  parseDate tz dayjsOfString (Plain (VStr (sampleBirthText day month year)))
  = dayjsOfString
      (Dayjs.stringOfZ year ++ "-" ++ Dayjs.stringOfZ month ++ "-"
       ++ Dayjs.stringOfZ day)%string.
Proof.
  unfold sampleBirthText.
  set (D := Dayjs.stringOfZ day). set (M := Dayjs.stringOfZ month).
  set (Y := Dayjs.stringOfZ year).
  assert (forall n, Str.includes (Dayjs.stringOfZ n) "." = false) as Hdot.
  { intros n. apply (allChars_excludes isDigitOrMinus); [reflexivity|apply stringOfZ_chars]. }
  assert (allChars (fun c => negb (JsString.isWhite c))
            (D ++ "." ++ M ++ "." ++ Y)%string = true) as Hw.
  { rewrite !allChars_app, !andb_true_iff.
    repeat split; try reflexivity;
      apply (allChars_impl isDigitOrMinus); try apply digits_not_white;
      apply stringOfZ_chars. }
  assert (Str.split "." (D ++ "." ++ M ++ "." ++ Y)%string = [D; M; Y]) as Hs.
  { change (D ++ "." ++ M ++ "." ++ Y)%string
      with (D ++ String "." (M ++ String "." Y))%string.
    rewrite split_app by apply Hdot. rewrite split_app by apply Hdot.
    rewrite split_single by apply Hdot. reflexivity. }
  unfold parseDate. rewrite (trim_id _ Hw).
  assert (String.eqb (D ++ "." ++ M ++ "." ++ Y)%string "" = false) as ->.
  { apply String.eqb_neq. intros E. pose proof (stringOfZ_nonempty day) as Hn.
    fold D in Hn. destruct D; [congruence|discriminate]. }
  assert (Str.includes (D ++ "." ++ M ++ "." ++ Y)%string "." = true) as ->.
  { apply includes_spec. exists D, (M ++ "." ++ Y)%string. reflexivity. }
  rewrite Hs. reflexivity.
Qed.

(** ** The analysis and the browser check *)

(** X10.  [analyzeExcel] lists exactly the years from 1900 to the current
    one in which some data row has a valid birth date.  For each listed
    year [total] is the number of such rows, it is at least 1 and it is
    the sum of [male] and [female]; [totalPatients] is the sum of the
    totals. *)
Theorem analysis_counts_consistent (tz : Z) (dayjsOfString : string -> option Dayjs.t)
    (now : Dayjs.t) (sheet : Sheet) :
  let yearCounts := fst (analyzeExcel tz dayjsOfString now sheet) in
  let totalPatients := snd (analyzeExcel tz dayjsOfString now sheet) in
  let births := birthsOf tz dayjsOfString sheet in
  (forall y c, yearCounts !! y = Some c ->
     1900 <= y <= Dayjs.year now
     /\ total c = countBirths (Z.eqb y) births
     /\ 1 <= total c /\ 0 <= male c /\ 0 <= female c
     /\ total c = male c + female c)
  /\ (forall y, yearCounts !! y = None -> 1900 <= y <= Dayjs.year now ->
        countBirths (Z.eqb y) births = 0)
  /\ totalPatients = sumTotals yearCounts.
Proof.
  intros yearCounts totalPatients births.
  pose proof (analyzeExcel_inv tz dayjsOfString now sheet) as [Hy Hn].
  fold (birthsOf tz dayjsOfString sheet) in Hy. fold births in Hy.
  fold yearCounts in Hy, Hn. fold totalPatients in Hn.
  assert (forall y, countedYear now y = true ->
            countBirths (fun k => (k =? y) && countedYear now k) births
            = countBirths (Z.eqb y) births) as Hext.
  { intros y Hc. apply countBirths_ext. intros k.
    destruct (Z.eqb_spec k y) as [->|N].
    - rewrite Hc, Z.eqb_refl. reflexivity.
    - destruct (Z.eqb_spec y k); [congruence|reflexivity]. }
  split; [|split; [|exact Hn]].
  - intros y c E. specialize (Hy y). rewrite E in Hy.
    destruct Hy as (Ht & H1 & Hm & Hf & Hs & Hc).
    rewrite (Hext y Hc) in Ht.
    unfold countedYear in Hc. apply andb_true_iff in Hc. destruct Hc as [Hlo Hhi].
    apply Z.leb_le in Hlo. apply Z.ltb_lt in Hhi.
    repeat split; try assumption; lia.
  - intros y E Hr. specialize (Hy y). rewrite E in Hy.
    rewrite <- Hext; [exact Hy|].
    unfold countedYear. apply andb_true_iff. split; [apply Z.leb_le|apply Z.ltb_lt]; lia.
Qed.

(** X11.  For a rule for both sexes, the number the browser script shows
    as available never exceeds the size of the pool the engine forms for
    that rule from the same sheet, and equals it when the rule ends no
    later than the year of the analysis (the analysis leaves out births of
    later years, the engine does not).  For a sheet that [processExcel]
    refuses as empty it is 0. *)
Theorem available_counts_the_pool (tz : Z) (dayjsOfString : string -> option Dayjs.t)
    (analysed : Dayjs.t) (sheet : Sheet) (range : Range) :
  bothSexes range ->
  let available :=
    availableOf (receivedCounts (fst (analyzeExcel tz dayjsOfString analysed sheet)))
      (startYear range) (endYear range) (gender range) in
  match readSheet tz dayjsOfString sheet with
  | inl _ => available = 0
  | inr rd =>
      let pool := poolOf (columns rd) (rowsData rd) range in
      0 <= available <= Z.of_nat (length pool)
      /\ (endYear range <= Dayjs.year analysed -> available = Z.of_nat (length pool))
  end.
Proof.
  intros Hg available. subst available. rewrite (available_eq _ _ _ _ _ Hg).
  pose proof (rows_read tz dayjsOfString sheet) as Hr.
  destruct (readSheet tz dayjsOfString sheet) as [e|rd].
  - destruct e. subst sheet. reflexivity.
  - destruct Hr as (_ & Eb & ->). unfold poolOf.
    rewrite (pool_size_both_sexes tz dayjsOfString _ range _ _ _ _ Hg). rewrite Eb.
    fold (birthsOf tz dayjsOfString sheet).
    split; [split; [apply countBirths_nonneg|]|].
    + apply countBirths_le. intros k H.
      unfold countedYear in H. rewrite !andb_true_iff in H.
      destruct H as ((Hs & He) & (Hlo & _)). rewrite Hs, He, Hlo. reflexivity.
    + intros He. apply countBirths_ext. intros k. unfold countedYear.
      destruct (Z.leb_spec (startYear range) k); destruct (Z.leb_spec k (endYear range));
        destruct (Z.leb_spec 1900 k); destruct (Z.ltb_spec k (Dayjs.year analysed + 1));
        cbn [andb]; try reflexivity; lia.
Qed.

(** The sample sheet holds four people born in 2000; a rule for that year
    and both sexes is shown four available, and the engine forms a pool of
    four. *)
Lemma available_counts_the_pool_witness :
  let available :=
    availableOf
      (receivedCounts
         (fst (analyzeExcel SampleSheets.tashkent SampleSheets.noParser
                 Samples.morning SampleSheets.sheet)))
      (startYear Samples.monthly) (endYear Samples.monthly) (gender Samples.monthly) in
  match readSheet SampleSheets.tashkent SampleSheets.noParser SampleSheets.sheet with
  | inl _ => available = 0
  | inr rd =>
      let pool := poolOf (columns rd) (rowsData rd) Samples.monthly in
      0 <= available <= Z.of_nat (length pool)
      /\ (endYear Samples.monthly <= Dayjs.year Samples.morning ->
          available = Z.of_nat (length pool))
  end.
Proof.
  apply (available_counts_the_pool SampleSheets.tashkent SampleSheets.noParser
           Samples.morning SampleSheets.sheet Samples.monthly).
  right. reflexivity.
Defined.

(** X12.  The browser check and the capacity check of the engine.  When,
    for every rule of the configuration, either the rule is processed in
    full (several visits or birthday mode) or it is a rule for both sexes
    for which the browser script, on the analysis of the same sheet, does
    not show the error class, then the run on that sheet does not throw:
    the capacity error can only occur for a rule the browser marked as an
    error. *)
Theorem no_browser_error_no_capacity_error (tz : Z)
    (dayjsOfString : string -> option Dayjs.t) (analysed now : Dayjs.t)
    (sheet : Sheet) (config : Config) :
  sheet <> [] ->
  Forall
    (fun r =>
       processAllOf r = true
       \/ (bothSexes r
           /\ statusOf
                (availableOf
                   (receivedCounts (fst (analyzeExcel tz dayjsOfString analysed sheet)))
                   (startYear r) (endYear r) (gender r))
                (totalPlannedOf r) (startYear r) (endYear r) 1
              <> StatError))
    (ranges config) ->
  exists out, processSheet tz dayjsOfString now sheet config = inr (inr out).
Proof.
  intros Hne Hall. unfold processSheet.
  pose proof (rows_read tz dayjsOfString sheet) as Hr.
  destruct (readSheet tz dayjsOfString sheet) as [e|rd]; [congruence|].
  destruct Hr as (_ & Eb & Er).
  assert (Forall (fun r => ~ overCapacity (columns rd) (rowsData rd) r) (ranges config))
    as Hno.
  { eapply Forall_impl; [exact Hall|]. cbn beta.
    intros r [Hp|(Hg & Hs)] (Hv & Hu & Hlo & Hhi).
    - assert (processAllOf r = false) as F by (apply processAllOf_false; auto).
      congruence.
    - unfold poolOf in Hlo, Hhi. rewrite Er in Hlo, Hhi.
      rewrite (pool_size_both_sexes tz dayjsOfString _ r _ _ _ _ Hg) in Hlo, Hhi.
      rewrite Eb in Hlo, Hhi. fold (birthsOf tz dayjsOfString sheet) in Hlo, Hhi.
      rewrite (available_eq tz dayjsOfString analysed sheet r Hg) in Hs.
      set (pool := countBirths _ _) in Hlo, Hhi.
      set (available := countBirths _ _) in Hs.
      assert (available <= pool) as Hle.
      { apply countBirths_le. intros k H.
        unfold countedYear in H. rewrite !andb_true_iff in H.
        destruct H as ((H1 & H2) & (H3 & _)). rewrite H1, H2, H3. reflexivity. }
      assert (1900 <= endYear r) as He.
      { destruct (Z.le_gt_cases 1900 (endYear r)) as [L|G]; [exact L|].
        subst pool. rewrite (countBirths_ext _ (fun _ => false)) in Hlo.
        - rewrite countBirths_false in Hlo. lia.
        - intros k. destruct (Z.leb_spec 1900 k); destruct (Z.leb_spec k (endYear r));
            cbn [andb]; rewrite ?andb_false_r; try reflexivity; lia. }
      apply Hs. unfold statusOf. cbn [Z.ltb Z.compare].
      destruct ((available =? 0) && (0 <? startYear r)); [reflexivity|].
      destruct (Z.eqb_spec (endYear r) 0); [lia|]. rewrite andb_false_r.
      destruct (Z.ltb_spec available (totalPlannedOf r)); [reflexivity|lia]. }
  unfold processExcel.
  destruct (processRanges_no_throw now (columns rd) config (rowsData rd) (ranges config)
              {| allRangesRows := []; warnings := [] |} Hno) as (st' & ->).
  eauto.
Qed.

(** On the sample sheet a plan of one visit in January and one in
    February is shown as a warning (2 planned, 4 available), and the run
    goes through. *)
Lemma no_browser_error_no_capacity_error_witness :
  exists out,
    processSheet SampleSheets.tashkent SampleSheets.noParser Samples.morning
      SampleSheets.sheet (Samples.config2026 [] [Samples.twoPlanned])
    = inr (inr out).
Proof.
  apply (no_browser_error_no_capacity_error SampleSheets.tashkent SampleSheets.noParser
           Samples.afternoon).
  - discriminate.
  - constructor; [|constructor]. right. split; [right; reflexivity|].
    vm_compute. discriminate.
Defined.

(** ** The browser script *)

Lemma distribute_loop_from n base : forall remainder k,
  0 <= remainder ->
  distribute_loop n base remainder
  = map (fun i => if i <? remainder + k then base + 1 else base) (seqZ k (Z.of_nat n)).
Proof.
  induction n as [|n IH]; intros remainder k Hr; [reflexivity|].
  cbn [distribute_loop]. rewrite seqZ_cons by lia.
  replace (Z.pred (Z.of_nat (S n))) with (Z.of_nat n) by lia. cbn [map].
  destruct (Z.ltb_spec 0 remainder) as [P|Z0].
  - destruct (Z.ltb_spec k (remainder + k)); [|lia].
    f_equal. rewrite (IH (remainder - 1) (Z.succ k)) by lia.
    apply map_ext. intros i. replace (remainder - 1 + Z.succ k) with (remainder + k) by lia.
    reflexivity.
  - destruct (Z.ltb_spec k (remainder + k)); [lia|].
    f_equal. rewrite (IH remainder (Z.succ k)) by lia.
    apply map_ext_in. intros i Hin. apply list_elem_of_In, elem_of_seqZ in Hin.
    destruct (Z.ltb_spec i (remainder + Z.succ k)); destruct (Z.ltb_spec i (remainder + k));
      try reflexivity; lia.
Qed.

Lemma distribute_loop_eq n base remainder :
  0 <= remainder ->
  distribute_loop n base remainder
  = map (fun i => if i <? remainder then base + 1 else base) (seqZ 0 (Z.of_nat n)).
Proof.
  intros Hr. rewrite (distribute_loop_from n base remainder 0 Hr).
  apply map_ext. intros i. rewrite Z.add_0_r. reflexivity.
Qed.

(** X13.  The distribute button of the browser writes into the twelve
    month fields the same counts as the engine's automatic plan computes
    for that many people: twelve counts that add up to the number
    available.  With nobody available it writes nothing. *)
Theorem distribute_matches_auto_plan (totalAvailable : Z) :
  (distribute totalAvailable = None <-> totalAvailable <= 0)
  /\ (forall written, distribute totalAvailable = Some written ->
        written = autoCounts totalAvailable
        /\ length written = 12%nat
        /\ sumZ written = totalAvailable).
Proof.
  unfold distribute. destruct (Z.leb_spec totalAvailable 0) as [Le|Gt].
  - split; [tauto|]. intros written H. discriminate.
  - assert (0 <= jsRem totalAvailable 12) as Hr
      by (unfold jsRem; apply Z.rem_nonneg; lia).
    rewrite distribute_loop_eq by exact Hr.
    change (map (fun i => if i <? jsRem totalAvailable 12
                          then jsFloorDiv totalAvailable 12 + 1
                          else jsFloorDiv totalAvailable 12) (seqZ 0 (Z.of_nat 12)))
      with (map (countForDay totalAvailable 12) (seqZ 0 12)).
    split; [split; [discriminate|lia]|].
    intros written H.
    assert (written = map (countForDay totalAvailable 12) (seqZ 0 12)) as ->
      by congruence.
    split; [symmetry; apply autoCounts_eq|].
    split; [rewrite length_map, length_seqZ; reflexivity|].
    apply sum_quotas; lia.
Qed.

(** X14.  Every holiday the browser script sends is a clean entry: it is
    not empty, it has no comma, and it has no white space at either
    end. *)
Theorem holidays_sent_are_clean (holidaysText : string) :
  Forall cleanEntry (parseHolidays holidaysText).
Proof.
  unfold parseHolidays. apply List.Forall_forall. intros h Hin.
  apply filter_In in Hin. destruct Hin as (Hin & Hn).
  apply in_map_iff in Hin. destruct Hin as (w & <- & Hw).
  pose proof (split_no_sep "," holidaysText) as Hs.
  rewrite List.Forall_forall in Hs. specialize (Hs w Hw).
  split; [|split].
  - apply negb_true_iff, String.eqb_neq in Hn. exact Hn.
  - apply trim_keeps_out. exact Hs.
  - apply trim_idem.
Qed.

(** X15.  Days typed into the holiday field in the form YYYY-MM-DD,
    separated by commas that may be followed by white space, reach the
    engine as typed, and none of them is a working day. *)
Theorem typed_holidays_are_respected (pad : string) (days : list Dayjs.t)
    (saturdayWorking : bool) :
  allChars JsString.isWhite pad = true ->
  let holidays :=
    parseHolidays (String.concat (String "," pad) (map Dayjs.format days)) in
  holidays = map Dayjs.format days
  /\ Forall (fun d => isWorkingDay holidays saturdayWorking d = false) days.
Proof.
  intros Hpad holidays.
  assert (holidays = map Dayjs.format days) as E.
  { subst holidays. apply parseHolidays_joined; [exact Hpad|].
    apply List.Forall_forall. intros h Hin. apply in_map_iff in Hin.
    destruct Hin as (d & <- & _). apply format_clean. }
  split; [exact E|]. rewrite E.
  apply List.Forall_forall. intros d Hin.
  destruct (isWorkingDay (map Dayjs.format days) saturdayWorking d) eqn:W; [|reflexivity].
  apply isWorkingDay_iff in W. destruct W as (_ & _ & Hn).
  exfalso. apply Hn. apply in_map. exact Hin.
Qed.

(** New Year's Day and 8 March 2026, typed with a space after the
    comma. *)
Lemma typed_holidays_are_respected_witness :
  let holidays :=
    parseHolidays
      (String.concat (String "," " ")
         (map Dayjs.format [Dayjs.mk 2026 0 1 0; Dayjs.mk 2026 2 8 0])) in
  holidays = map Dayjs.format [Dayjs.mk 2026 0 1 0; Dayjs.mk 2026 2 8 0]
  /\ Forall (fun d => isWorkingDay holidays false d = false)
       [Dayjs.mk 2026 0 1 0; Dayjs.mk 2026 2 8 0].
Proof.
  apply (typed_holidays_are_respected " " [Dayjs.mk 2026 0 1 0; Dayjs.mk 2026 2 8 0] false).
  reflexivity.
Defined.

(** ** The sheets of a cohort *)

(** X16.  The monthly sheets of a distribution cohort.  The loop that
    writes them assigns the same rows as the engine.  The rows written on
    the monthly sheets, sheet after sheet, are the assigned rows in order,
    under the headers of the cohort; no sheet is empty; the sheets are
    named after months in calendar order, no month twice; and on each
    sheet the identifier column counts from 1, unless a visit column bears
    the name of the identifier column. *)
Theorem monthly_sheets_of_distribution (now : Dayjs.t) (cols : Columns) (config : Config)
    (trimmedHeaders : list string) (range : Range) (pool : list Patient) :
  let vc := visitCountOf range in
  let hs := rangeHeadersOf trimmedHeaders vc in
  let result :=
    logicBSheets now cols config trimmedHeaders vc (processAllOf range) range pool in
  let assigned := fst (fst result) in
  let sheets := snd result in
  fst result = logicB now cols config vc (processAllOf range) range pool
  /\ concat (map sheetRows sheets) = map (plainRow hs) assigned
  /\ Forall (fun s => sheetRows s <> [] /\ sheetHeaders s = hs) sheets
  /\ (exists months : list nat,
        map sheetName sheets = map (fun m => nth m MONTH_NAMES ""%string) months
        /\ StronglySorted lt months /\ Forall (fun m => (m < 12)%nat) months)
  /\ (forall idKey s (i j : nat) r,
        idColKey cols = Some idKey -> ~ In idKey (visitKeysOf vc) ->
        In s sheets -> sheetRows s !! i = Some r -> hs !! j = Some idKey ->
        cells r !! j = Some (VNum (Z.of_nat i + 1))).
Proof.
  intros vc hs result assigned sheets.
  subst assigned sheets result. unfold logicBSheets, logicB.
  set (cs := if processAllOf range then autoCounts (Z.of_nat (length pool))
             else counts range).
  destruct (fold_monthStepSheets now cols config trimmedHeaders vc cs pool 12 0 [] 0 [])
    as (parts & E1 & E2 & Hp & Hs).
  rewrite E1. cbn [fst snd app]. cbn [app] in E2.
  fold hs. fold hs in E1.
  split; [|split; [|split; [|split]]].
  - rewrite <- E2. destruct (fold_left _ (seq 0 12) ([], 0%nat)); reflexivity.
  - clear. induction parts as [|x parts IH]; [reflexivity|].
    cbn [map concat sheetRows monthSheet]. rewrite map_app, IH. reflexivity.
  - apply List.Forall_forall. intros s Hin. apply in_map_iff in Hin.
    destruct Hin as (x & <- & Hx). rewrite List.Forall_forall in Hp.
    destruct (Hp x Hx) as (_ & Hne & _). cbn [sheetRows sheetHeaders monthSheet].
    split; [|reflexivity]. destruct (snd x); [congruence|discriminate].
  - exists (map fst parts). split; [|split; [exact Hs|]].
    + rewrite !map_map. reflexivity.
    + apply List.Forall_forall. intros m Hin. apply in_map_iff in Hin.
      destruct Hin as (x & <- & Hx). rewrite List.Forall_forall in Hp.
      destruct (Hp x Hx) as (Hm & _). lia.
  - intros idKey s i j r Eid Hvk Hin Hr Hj. apply in_map_iff in Hin.
    destruct Hin as (x & <- & Hx). rewrite List.Forall_forall in Hp.
    destruct (Hp x Hx) as (_ & _ & ps & days & Hl & Ex).
    cbn [sheetRows monthSheet] in Hr. rewrite lookup_map in Hr.
    destruct (snd x !! i) as [row|] eqn:Erow; [|discriminate].
    cbn [option_map] in Hr. injection Hr as <-.
    rewrite Ex in Erow. apply lookup_placedRows in Erow.
    destruct Erow as (p & d & _ & _ & ->).
    cbn [cells plainRow]. rewrite (lookup_valuesOf _ _ _ _ Hj).
    rewrite (placedRow_id cols config idKey vc p d _ Eid (visitCountOf_pos range) Hvk).
    rewrite (bumpId_iter cols idKey i 1 Eid). do 2 f_equal. lia.
Qed.

(** X17.  The sheet "Umumiy" of a cohort.  It is written exactly when the
    cohort has an assigned row.  It then lists the whole pool, one row
    per person: the assigned rows first, then the unplanned rows, which
    are filled yellow; its identifier column counts from 1 through both
    parts.  When no person of the pool has a cell named "_isUnplanned"
    (and neither the identifier nor the birth-date column has that name),
    the assigned rows are not filled: yellow marks exactly the unplanned
    rows. *)
Theorem umumiy_sheet_lists_the_pool (now : Dayjs.t) (cols : Columns) (config : Config)
    (trimmedHeaders : list string) (range : Range) (pool : list Patient) :
  let vc := visitCountOf range in
  let hs := rangeHeadersOf trimmedHeaders vc in
  let assigned := fst (assignCohort now cols config range pool) in
  let pIndex := snd (assignCohort now cols config range pool) in
  match umumiySheet cols trimmedHeaders vc assigned pIndex pool with
  | None => assigned = []
  | Some sheet =>
      assigned <> []
      /\ sheetName sheet = "Umumiy"%string /\ sheetHeaders sheet = hs
      /\ length (sheetRows sheet) = length pool
      /\ (forall (i : nat) r, sheetRows sheet !! i = Some r ->
            (length assigned <= i)%nat -> yellow r = true)
      /\ (forall idKey (i j : nat) r,
            idColKey cols = Some idKey -> idKey <> "_isUnplanned"%string ->
            sheetRows sheet !! i = Some r -> hs !! j = Some idKey ->
            cells r !! j = Some (VNum (Z.of_nat i + 1)))
      /\ (Forall (fun p => fields p !! "_isUnplanned"%string = None) pool ->
          idColKey cols <> Some "_isUnplanned"%string ->
          birthKey cols <> Some "_isUnplanned"%string ->
          forall (i : nat) r, sheetRows sheet !! i = Some r ->
            (i < length assigned)%nat -> yellow r = false)
  end.
Proof.
  intros vc hs assigned pIndex. unfold umumiySheet.
  pose proof (assignCohort_count now cols config range pool) as [Hl Hle].
  fold assigned in Hl. fold pIndex in Hl, Hle.
  destruct (Nat.ltb_spec 0 (length assigned)) as [Hpos|Hz];
    [|destruct assigned; [reflexivity|cbn in Hz; lia]].
  fold hs. cbn [sheetName sheetHeaders sheetRows].
  assert (unplannedRows cols assigned pIndex pool
          = map (fun r => <[ "_isUnplanned"%string := VBool true ]> r)
              (renumber cols (map (baseRow cols) (drop pIndex pool))
                 (Nat.iter (length assigned) (bumpId cols) 1))) as Eu.
  { unfold unplannedRows. destruct (Nat.ltb_spec 0 (length assigned)); [|lia].
    destruct (Nat.ltb_spec pIndex (length pool)) as [Lt|Ge].
    - rewrite unplannedLoop_eq. reflexivity.
    - rewrite drop_ge by lia. reflexivity. }
  rewrite Eu.
  split; [destruct assigned; [cbn in Hpos; lia|discriminate]|].
  split; [reflexivity|]. split; [reflexivity|]. split; [|split; [|split]].
  - rewrite length_app, !length_map, !length_renumber, length_map, length_drop. lia.
  - intros i r Hr Hi. rewrite lookup_app_r in Hr
      by (rewrite length_map, length_renumber; exact Hi).
    rewrite !lookup_map in Hr.
    destruct (renumber cols (map (baseRow cols) (drop pIndex pool)) _ !! _);
      [|discriminate].
    cbn [option_map] in Hr. injection Hr as <-. reflexivity.
  - intros idKey i j r Eid Hflag Hr Hj.
    destruct (Nat.lt_ge_cases i (length assigned)) as [Lt|Ge].
    + rewrite lookup_app_l in Hr by (rewrite length_map, length_renumber; exact Lt).
      rewrite lookup_map, lookup_renumber in Hr.
      destruct (assigned !! i) as [row|]; [|discriminate].
      cbn [option_map] in Hr. injection Hr as <-. cbn [cells].
      rewrite (lookup_valuesOf _ _ _ _ Hj), (setId_id cols idKey _ _ Eid).
      rewrite (bumpId_iter cols idKey i 1 Eid). do 2 f_equal. lia.
    + rewrite lookup_app_r in Hr by (rewrite length_map, length_renumber; exact Ge).
      rewrite length_map, length_renumber in Hr.
      rewrite !lookup_map, lookup_renumber in Hr.
      destruct (map (baseRow cols) (drop pIndex pool) !! (i - length assigned)%nat)
        as [row|]; [|discriminate].
      cbn [option_map] in Hr. injection Hr as <-. cbn [cells].
      rewrite (lookup_valuesOf _ _ _ _ Hj). unfold getProp at 1.
      rewrite lookup_insert_ne by congruence.
      fold (getProp (setId cols
                       (Nat.iter (i - length assigned)
                          (bumpId cols) (Nat.iter (length assigned) (bumpId cols) 1)) row)
              idKey).
      rewrite (setId_id cols idKey _ _ Eid).
      rewrite !(bumpId_iter cols idKey _ _ Eid). do 2 f_equal. lia.
  - intros Hnone Hid Hb i r Hr Lt.
    rewrite lookup_app_l in Hr by (rewrite length_map, length_renumber; exact Lt).
    rewrite lookup_map, lookup_renumber in Hr.
    destruct (assigned !! i) as [row|] eqn:Erow; [|discriminate].
    cbn [option_map] in Hr. injection Hr as <-. cbn [yellow].
    assert (In row assigned) as Hin
      by (apply list_elem_of_In, list_elem_of_lookup; eauto).
    destruct (assigned_row_flag now cols config range pool row Hin Hid Hb)
      as (p & Hp & E).
    rewrite List.Forall_forall in Hnone. rewrite (Hnone p Hp) in E.
    unfold getProp. rewrite setId_lookup_ne by exact Hid. rewrite E. reflexivity.
Qed.

(** X18.  The monthly sheets of a cohort in birthday mode.  For each
    month of the year, in calendar order, the people whose first visit
    falls in that month get one sheet, in the order of the pool and
    numbered from 1 on that sheet; a month without such a person gets no
    sheet.  When every person of the pool has a birth day, every first
    visit falls in a month of the calendar, so the sheets together hold
    one row for each person of the pool. *)
Theorem monthly_sheets_of_birthday_mode (now : Dayjs.t) (cols : Columns)
    (config : Config) (trimmedHeaders : list string) (vc : nat) (pool : list Patient) :
  Forall (fun p => exists b, _birthDate p = Some b /\ 1 <= Dayjs.date b) pool ->
  let hs := rangeHeadersOf trimmedHeaders vc in
  let onMonth := fun m : nat =>
    List.filter (fun p => (Z.to_nat (firstMonthOf now config vc p) =? m)%nat) pool in
  let sheets := logicASheets now cols config trimmedHeaders vc pool in
  sheets
  = flat_map
      (fun m =>
         if (length (onMonth m) =? 0)%nat then []
         else [monthSheet hs m
                 (renumber cols (map (birthdayRow now cols config vc) (onMonth m)) 1)])
      (seq 0 12)
  /\ Forall (fun p => 0 <= firstMonthOf now config vc p <= 11) pool
  /\ length (concat (map sheetRows sheets)) = length pool.
Proof.
  intros Hb hs onMonth sheets.
  assert (sheets
          = flat_map
              (fun m =>
                 if (length (onMonth m) =? 0)%nat then []
                 else [monthSheet hs m
                         (renumber cols (map (birthdayRow now cols config vc) (onMonth m)) 1)])
              (seq 0 12)) as E.
  { subst sheets. unfold logicASheets. rewrite fold_renderMonth. cbn [app].
    apply flat_map_ext_seq. intros m Hm.
    assert (nth m (groupByMonth now cols config vc pool (replicate 12 [])) []
            = map (birthdayRow now cols config vc) (onMonth m)) as ->.
    { rewrite nth_lookup, groupByMonth_lookup.
      rewrite lookup_replicate_2 by lia. reflexivity. }
    rewrite length_map. reflexivity. }
  assert (Forall (fun p => 0 <= firstMonthOf now config vc p <= 11) pool) as Hm.
  { eapply Forall_impl; [exact Hb|]. intros p (b & Eb & Hd).
    exact (firstMonthOf_bounds now config vc p b Eb Hd). }
  split; [exact E|]. split; [exact Hm|].
  rewrite E. subst onMonth hs. cbn beta.
  rewrite (length_birthday_sheets now cols config trimmedHeaders vc pool 12).
  clear E. induction Hm as [|p l Hp _ IH]; [reflexivity|].
  cbn [List.filter]. destruct (Nat.ltb_spec (Z.to_nat (firstMonthOf now config vc p)) 12);
    [cbn [length]; rewrite IH; [reflexivity|]|lia].
  inversion Hb; assumption.
Qed.

(** Twelve visits a year in birthday mode for the four people of the
    sample. *)
Lemma monthly_sheets_of_birthday_mode_witness :
  length
    (concat
       (map sheetRows
          (logicASheets Samples.morning Samples.cols (Samples.config2026 [] [])
             ["No"; "F.I.SH"; "Tug'ilgan sana"]%string 12 Samples.four)))
  = length Samples.four.
Proof.
  refine (proj2 (proj2 (monthly_sheets_of_birthday_mode Samples.morning Samples.cols
                          (Samples.config2026 [] [])
                          ["No"; "F.I.SH"; "Tug'ilgan sana"]%string 12 Samples.four _))).
  repeat constructor; eexists; (split; [reflexivity|cbn; lia]).
Defined.

(** ** The working days of a month *)

(** X19.  [getWorkingDays] ends within the days of the month and returns
    exactly the days of that month that pass [isWorkingDay], each at the
    time of day of the clock, in calendar order and none twice (a month
    index beyond 11 rolls into the following years).  Every day it
    returns is left where it is by [findNextWorkingDay]. *)
Theorem working_days_of_month (now : Dayjs.t) (holidays : list string)
    (saturdayWorking : bool) (yr monthIndex : Z) :
  Dayjs.validTime now ->
  let y := yr + monthIndex / 12 in
  let m := monthIndex mod 12 in
  let days := getWorkingDays now holidays saturdayWorking yr monthIndex in
  getWorkingDays_opt now holidays saturdayWorking yr monthIndex = Some days
  /\ (forall d,
        In d days <->
        exists k, 1 <= k <= Calendar.daysInMonth y m
                  /\ d = Dayjs.mk y m k (Dayjs.time now)
                  /\ isWorkingDay holidays saturdayWorking d = true)
  /\ strictlyAscending days
  /\ Forall (fun d => findNextWorkingDay holidays saturdayWorking d = d) days.
Proof.
  intros Hnow y m days.
  pose proof (getWorkingDays_eq now holidays saturdayWorking Hnow yr monthIndex) as E.
  cbn zeta in E. fold y m in E.
  assert (days = List.filter (isWorkingDay holidays saturdayWorking)
                   (monthDays y m 1 (Dayjs.time now)
                      (Z.to_nat (Calendar.daysInMonth y m)))) as Ed.
  { subst days. unfold getWorkingDays. rewrite E. reflexivity. }
  pose proof (CalendarFacts.daysInMonth_bounds y m) as B.
  pose proof (Z.mod_pos_bound monthIndex 12 ltac:(lia)) as Hm. fold m in Hm.
  split; [rewrite E, Ed; reflexivity|]. rewrite Ed. clear E Ed days.
  split; [|split].
  - intros d. rewrite filter_In. split.
    + intros (Hin & W). apply in_monthDays in Hin. destruct Hin as (k & Hk & ->).
      exists k. split; [lia|]. split; [reflexivity|exact W].
    + intros (k & Hk & -> & W). split; [|exact W]. apply monthDays_In. lia.
  - apply StronglySorted_filter, monthDays_sorted. lia.
  - apply List.Forall_forall. intros d Hin. apply filter_In in Hin.
    apply snap_working, Hin.
Qed.

(** November 2025 without holidays, read at nine in the morning. *)
Lemma working_days_of_month_witness :
  strictlyAscending (getWorkingDays Samples.morning [] false 2025 10).
Proof.
  refine (proj1 (proj2 (proj2 (working_days_of_month Samples.morning [] false 2025 10 _)))).
  unfold Dayjs.validTime, Calendar.msPerDay. cbn. lia.
Defined.

(** ** File names *)

(** X20.  Two cohort rules write their workbook under the same name
    exactly when they have the same end year, the same start year and
    the same gender label; rules that differ only in the visit count, in
    the birthday mode or in the monthly counts share one file name. *)
Theorem range_names_collide (r1 r2 : Range) :
  rangeName r1 = rangeName r2
  <-> endYear r1 = endYear r2 /\ startYear r1 = startYear r2
      /\ genderLabel r1 = genderLabel r2.
Proof.
  unfold rangeName. fold (genderLabel r1) (genderLabel r2). split.
  - intros E.
    assert (forall e s g,
              (Dayjs.stringOfZ e ++ "-" ++ Dayjs.stringOfZ s ++ "_" ++ g ++ ".xlsx")%string
              = ((Dayjs.stringOfZ e ++ String "-" (Dayjs.stringOfZ s))
                 ++ String "_" (g ++ ".xlsx"))%string) as Hshape.
    { intros e s g. rewrite append_assoc. reflexivity. }
    rewrite !Hshape in E.
    assert (forall e s,
              Str.includes (Dayjs.stringOfZ e ++ String "-" (Dayjs.stringOfZ s)) "_"
              = false) as Hno.
    { intros e s.
      change (Dayjs.stringOfZ e ++ String "-" (Dayjs.stringOfZ s))%string
        with (Dayjs.stringOfZ e ++ ("-" ++ Dayjs.stringOfZ s))%string.
      rewrite !includes_char_app.
      rewrite (numeral_no_underscore _ (stringOfZ_numeral e)).
      rewrite (numeral_no_underscore _ (stringOfZ_numeral s)). reflexivity. }
    apply app_sep_inj in E; [|apply Hno..]. destruct E as [E1 E2].
    apply numeral_sep_inj in E1; [|apply stringOfZ_numeral..].
    destruct E1 as [Ee Es].
    apply stringOfZ_inj in Ee. apply stringOfZ_inj in Es.
    apply string_app_inv_tail in E2. auto.
  - intros (-> & -> & ->). reflexivity.
Qed.

(** ** The headers of a sheet *)

